(** * github-typescript-utils: pagination, label and branch helpers

    A shallow embedding of the request-issuing helpers of the repository
    (deployment-utils, branch-utils, advanced-pr-utils, pull-requests and
    comments) together with the properties their specification states.

    Every helper is an [async] function that talks to one REST endpoint of
    the GitHub client and sometimes logs through [ctx.core.info].  Both
    effects are recorded in a chronological trace, thrown values are an
    explicit outcome, and [while] loops are unrolled with fuel.  The
    numbers the helpers count with (limits, page sizes, page numbers,
    lengths) are integers. *)

From Stdlib Require Import ZArith List String Ascii Bool Lia.
From Stdlib Require Import DecimalString.
Import ListNotations.

Local Open Scope string_scope.
Local Open Scope list_scope.
Local Open Scope Z_scope.

(* ================================================================= *)
(** ** JavaScript built-ins used by the helpers *)

Module Js.

(** [Array.prototype.length] as a number. *)
Definition len {A} (l : list A) : Z := Z.of_nat (List.length l).

(** [Array.prototype.slice(start, end)] for integral arguments: negative
    indices count from the end, everything is clamped to the array. *)
Definition slice {A} (start end_ : Z) (l : list A) : list A :=
  let n := len l in
  let k := if start <? 0 then Z.max (n + start) 0 else Z.min start n in
  let final := if end_ <? 0 then Z.max (n + end_) 0 else Z.min end_ n in
  firstn (Z.to_nat (final - k)) (skipn (Z.to_nat k) l).

(** Truthiness of a string: only the empty string is falsy. *)
Definition truthy (s : string) : bool :=
  match s with EmptyString => false | String _ _ => true end.

(** Truthiness of an optional string ([undefined] is falsy). *)
Definition truthy_opt (s : option string) : bool :=
  match s with Some s => truthy s | None => false end.

(** [`${n}`] for an integral number. *)
Definition number_to_string (n : Z) : string :=
  NilZero.string_of_int (Z.to_int n).

(** [Array.prototype.join(sep)] on an array of strings. *)
Definition join (sep : string) (l : list string) : string :=
  String.concat sep l.

(** [String.prototype.includes]: [needle] occurs somewhere in [s]. *)
Fixpoint str_includes (s needle : string) : bool :=
  String.prefix needle s ||
  match s with
  | EmptyString => false
  | String _ rest => str_includes rest needle
  end.

(** A destructuring default: [x = d] takes [d] when [x] is [undefined]. *)
Definition default {A} (x : option A) (d : A) : A :=
  match x with Some v => v | None => d end.

(** [Array.prototype.includes] on an array of numbers. *)
Definition includes_num (l : list Z) (x : Z) : bool :=
  existsb (Z.eqb x) l.

(** [Array.prototype.includes] with a string needle on an array whose
    entries are strings or [undefined]. *)
Definition includes_str (l : list (option string)) (x : string) : bool :=
  existsb (fun y => match y with
                    | Some s => String.eqb s x
                    | None => false
                    end) l.

End Js.

(* ================================================================= *)
(** ** Thrown values, settled promises and the effect monad *)

(** A rejection value of the REST client: only its [status] property is
    ever inspected ([error?.status === 404]); [None] stands for a missing
    or non-numeric status. *)
Record RequestError := mkRequestError {
  status : option Z;
  message : string
}.

(** What a helper can throw: an [Error] it builds itself, or the value a
    request was rejected with. *)
Inductive exn :=
| JsError (msg : string)
| Rejection (e : RequestError).

(** [error?.status] *)
Definition exn_status (e : exn) : option Z :=
  match e with
  | JsError _ => None
  | Rejection r => status r
  end.

(** [error?.status === 404] *)
Definition is_404 (e : exn) : bool :=
  match exn_status e with
  | Some s => s =? 404
  | None => false
  end.

(** A settled promise of the REST client. *)
Inductive settled (A : Type) :=
| Resolved (data : A)
| Rejected (e : exn).
Arguments Resolved {A} data.
Arguments Rejected {A} e.

(** How an [async] helper ends; [OutOfFuel] is the loop unrolling running
    dry and has no counterpart in JavaScript. *)
Inductive outcome (A : Type) :=
| Return (a : A)
| Throw (e : exn)
| OutOfFuel.
Arguments Return {A} a.
Arguments Throw {A} e.
Arguments OutOfFuel {A}.

Section Effects.
Context {Rq Rs : Type}.

(** Observable effects, oldest first. *)
Inductive event :=
| Call (rq : Rq) (rs : settled Rs)
| Info (msg : string).

Definition trace := list event.

Definition is_call (ev : event) : bool :=
  match ev with Call _ _ => true | Info _ => false end.

(** Number of requests issued so far. *)
Definition calls_made (tr : trace) : nat := List.length (filter is_call tr).

(** The requests of a trace, in order. *)
Fixpoint requests (tr : trace) : list Rq :=
  match tr with
  | [] => []
  | Call rq _ :: tr => rq :: requests tr
  | Info _ :: tr => requests tr
  end.

(** The messages logged through [core.info], in order. *)
Fixpoint infos (tr : trace) : list string :=
  match tr with
  | [] => []
  | Call _ _ :: tr => infos tr
  | Info m :: tr => m :: infos tr
  end.

(** The payloads of the requests that resolved, in order. *)
Fixpoint resolved (tr : trace) : list Rs :=
  match tr with
  | [] => []
  | Call _ (Resolved d) :: tr => d :: resolved tr
  | _ :: tr => resolved tr
  end.

(** The REST endpoint a helper is bound to.  Its answer may depend on
    the request and on how many requests came before (a real server and
    a [mockResolvedValueOnce] chain are both instances). *)
Definition endpoint := nat -> Rq -> settled Rs.

Definition M (A : Type) := trace -> outcome A * trace.

Definition ret {A} (a : A) : M A := fun tr => (Return a, tr).

Definition throw {A} (e : exn) : M A := fun tr => (Throw e, tr).

Definition out_of_fuel {A} : M A := fun tr => (OutOfFuel, tr).

Definition bind {A B} (m : M A) (k : A -> M B) : M B :=
  fun tr =>
    match m tr with
    | (Return a, tr') => k a tr'
    | (Throw e, tr') => (Throw e, tr')
    | (OutOfFuel, tr') => (OutOfFuel, tr')
    end.

(** [ctx.core.info(msg)] *)
Definition info (msg : string) : M unit :=
  fun tr => (Return tt, tr ++ [Info msg]).

(** [await ctx.github.rest.<endpoint>(rq)], destructured to its data. *)
Definition request (api : endpoint) (rq : Rq) : M Rs :=
  fun tr =>
    let rs := api (calls_made tr) rq in
    (match rs with
     | Resolved d => Return d
     | Rejected e => Throw e
     end, tr ++ [Call rq rs]).

(** [try { m } catch (error) { handler(error) }] *)
Definition try_catch {A} (m : M A) (handler : exn -> M A) : M A :=
  fun tr =>
    match m tr with
    | (Throw e, tr') => handler e tr'
    | r => r
    end.

(** Running a helper from an empty trace. *)
Definition run {A} (m : M A) : outcome A * trace := m [].

End Effects.

Arguments event : clear implicits.
Arguments trace : clear implicits.
Arguments endpoint : clear implicits.
Arguments M : clear implicits.

Declare Scope js_scope.
Delimit Scope js_scope with js.
Notation "'let*' x ':=' m 'in' k" := (bind m (fun x => k))
  (at level 10, x name, m at level 100, k at level 200) : js_scope.
Notation "m ';;' k" := (bind m (fun _ => k))
  (at level 100, k at level 200, right associativity) : js_scope.
Local Open Scope js_scope.

(* ================================================================= *)
(** ** types.ts *)

Record RepoInfo := mkRepoInfo {
  owner : string;
  repo : string
}.

Record User := mkUser {
  login : string
}.

(** A label as the REST client types it: a bare string, or an object whose
    [name] may be missing. *)
Inductive Label :=
| LabelString (s : string)
| LabelObject (name : option string).

Record PullRequest := mkPullRequest {
  number : Z;
  user : option User;
  labels : list Label
}.

(** [pr.labels] *)
Definition labels_of (pr : PullRequest) : list Label := labels pr.

Inductive PRState := StOpen | StClosed | StAll.
Inductive PRSort := SortCreated | SortUpdated | SortPopularity | SortLongRunning.
Inductive Direction := Asc | Desc.

(* ================================================================= *)
(** ** deployment-utils.ts *)

Module DeploymentUtils.

Record Deployment := mkDeployment {
  id : Z;
  sha : string;
  environment : string
}.

(** Parameters of [repos.listDeployments]. *)
Record ListDeploymentsParams := mkParams {
  p_repo : RepoInfo;
  p_ref : option string;
  p_environment : option string;
  per_page : Z;
  page : Z
}.

Section ListDeployments.
Variable api : endpoint ListDeploymentsParams (list Deployment).
Variable repo : RepoInfo.
Variables ref environment : option string.
Variable limit_arg : option Z.

(** [limit = 100] *)
Definition limit : Z := Js.default limit_arg 100.

(** [...(x && { x })]: the key is present only for a truthy value. *)
Definition spread_if (x : option string) : option string :=
  if Js.truthy_opt x then x else None.

Definition listDeployments_request (perPage page : Z) :=
  {| p_repo := repo;
     p_ref := spread_if ref;
     p_environment := spread_if environment;
     per_page := perPage;
     page := page |}.

(** The [while (deployments.length < limit)] loop. *)
Fixpoint listDeployments_loop (fuel : nat) (perPage : Z)
    (deployments : list Deployment) (page : Z)
    : M ListDeploymentsParams (list Deployment) (list Deployment) :=
  if Js.len deployments <? limit then
    match fuel with
    | O => out_of_fuel
    | S fuel =>
        let* data := request api (listDeployments_request perPage page) in
        if Js.len data =? 0 then ret deployments
        else
          let deployments := deployments ++ data in
          if Js.len data <? perPage then ret deployments
          else listDeployments_loop fuel perPage deployments (page + 1)
    end
  else ret deployments.

Definition listDeployments (fuel : nat)
    : M ListDeploymentsParams (list Deployment) (list Deployment) :=
  let perPage := Z.min limit 100 in
  let* deployments := listDeployments_loop fuel perPage [] 1 in
  ret (Js.slice 0 limit deployments).

End ListDeployments.

End DeploymentUtils.

(* ================================================================= *)
(** ** branch-utils.ts *)

Module BranchUtils.

Record Branch := mkBranch {
  name : string
}.

(** Parameters of [repos.getBranch] and [repos.getBranchProtection]. *)
Record BranchParams := mkBranchParams {
  b_repo : RepoInfo;
  b_branch : string
}.

(** Parameters of [repos.listBranches]. *)
Record ListBranchesParams := mkParams {
  p_repo : RepoInfo;
  per_page : Z;
  page : Z
}.

Section CheckBranchExists.
Variable api : endpoint BranchParams Branch.

Definition checkBranchExists (repo : RepoInfo) (branch : string)
    : M BranchParams Branch bool :=
  try_catch
    (let* _ := request api {| b_repo := repo; b_branch := branch |} in
     ret true)
    (fun error =>
       if is_404 error then ret false
       else throw error).
End CheckBranchExists.

Section ListAllBranches.
Variable api : endpoint ListBranchesParams (list Branch).
Variable repo : RepoInfo.
Variable limit_arg : option Z.

(** [limit = 100] *)
Definition limit : Z := Js.default limit_arg 100.

(** The [while (branches.length < limit)] loop. *)
Fixpoint listAllBranches_loop (fuel : nat) (perPage : Z)
    (branches : list string) (page : Z)
    : M ListBranchesParams (list Branch) (list string) :=
  if Js.len branches <? limit then
    match fuel with
    | O => out_of_fuel
    | S fuel =>
        let* data := request api
                       {| p_repo := repo; per_page := perPage; page := page |} in
        if Js.len data =? 0 then ret branches
        else
          let branches := branches ++ map (fun branch => name branch) data in
          if Js.len data <? perPage then ret branches
          else listAllBranches_loop fuel perPage branches (page + 1)
    end
  else ret branches.

Definition listAllBranches (fuel : nat)
    : M ListBranchesParams (list Branch) (list string) :=
  let perPage := Z.min limit 100 in
  let* branches := listAllBranches_loop fuel perPage [] 1 in
  ret (Js.slice 0 limit branches).
End ListAllBranches.

Section GetBranchProtection.
(** The protection payload is passed through untouched. *)
Variable Protection : Type.
Variable api : endpoint BranchParams Protection.

(** [None] is the [null] of "no protection rules". *)
Definition getBranchProtection (repo : RepoInfo) (branch : string)
    : M BranchParams Protection (option Protection) :=
  try_catch
    (let* data := request api {| b_repo := repo; b_branch := branch |} in
     ret (Some data))
    (fun error =>
       if is_404 error then ret None
       else throw error).
End GetBranchProtection.

End BranchUtils.

(* ================================================================= *)
(** ** The [pulls.list] endpoint, shared by both pull-request modules *)

(** Parameters of [pulls.list]; a key a call site does not pass is [None]. *)
Record PullsListParams := mkPullsListParams {
  pl_repo : RepoInfo;
  pl_state : PRState;
  pl_sort : option PRSort;
  pl_direction : option Direction;
  pl_per_page : Z;
  pl_page : option Z
}.

(** [pr.labels.map((label) => (typeof label === 'string' ? label : label.name))] *)
Definition label_names (pr : PullRequest) : list (option string) :=
  map (fun label => match label with
                    | LabelString s => Some s
                    | LabelObject n => n
                    end) (labels pr).

(** [labels.every((requiredLabel) => prLabels.includes(requiredLabel))] *)
Definition has_every_label (required : list string) (prLabels : list (option string)) : bool :=
  forallb (fun requiredLabel => Js.includes_str prLabels requiredLabel) required.

(* ================================================================= *)
(** ** advanced-pr-utils.ts *)

Module AdvancedPrUtils.

Record AdvancedPRSearchOptions := mkOptions {
  o_labels : option (list string);
  o_state : option PRState;
  o_author : option string;
  o_limit : option Z;
  o_sort : option PRSort;
  o_direction : option Direction;
  o_excludePRs : option (list Z)
}.

Section FindPRsWithLabels.
Variable api : endpoint PullsListParams (list PullRequest).
Variable repo : RepoInfo.
Variable labels : list string.
Variable state_arg : option PRState.
Variable limit_arg : option Z.
Variable excludePRs_arg : option (list Z).

(** [state = 'open', limit = 100, excludePRs = []] *)
Definition state : PRState := Js.default state_arg StOpen.
Definition limit : Z := Js.default limit_arg 100.
Definition excludePRs : list Z := Js.default excludePRs_arg [].

(** The callback of [data.filter]: the pull request is not excluded and
    carries ALL the required labels. *)
Definition matching (pr : PullRequest) : bool :=
  if Js.includes_num excludePRs (number pr) then false
  else
    let prLabels := label_names pr in
    has_every_label labels prLabels.

(** The [while (pullRequests.length < limit)] loop. *)
Fixpoint findPRsWithLabels_loop (fuel : nat) (perPage : Z)
    (pullRequests : list PullRequest) (page : Z)
    : M PullsListParams (list PullRequest) (list PullRequest) :=
  if Js.len pullRequests <? limit then
    match fuel with
    | O => out_of_fuel
    | S fuel =>
        let* data := request api
                       {| pl_repo := repo; pl_state := state;
                          pl_sort := None; pl_direction := None;
                          pl_per_page := perPage; pl_page := Some page |} in
        if Js.len data =? 0 then ret pullRequests
        else
          let matchingPRs := filter matching data in
          let pullRequests := pullRequests ++ matchingPRs in
          if (Js.len data <? perPage) || (limit <=? Js.len pullRequests)
          then ret pullRequests
          else findPRsWithLabels_loop fuel perPage pullRequests (page + 1)
    end
  else ret pullRequests.

Definition findPRsWithLabels (fuel : nat)
    : M PullsListParams (list PullRequest) (list PullRequest) :=
  if Js.len labels =? 0
  then throw (JsError "At least one label must be specified")
  else
    info ("Searching for PRs with labels: " ++ Js.join ", " labels)%string ;;
    let perPage := Z.min (limit * 2) 100 in
    let* pullRequests := findPRsWithLabels_loop fuel perPage [] 1 in
    info ("Found " ++ Js.number_to_string (Js.len pullRequests)
            ++ " PRs matching label criteria")%string ;;
    ret (Js.slice 0 limit pullRequests).
End FindPRsWithLabels.

Section SearchPullRequests.
Variable api : endpoint PullsListParams (list PullRequest).
Variable repo : RepoInfo.
Variable options : AdvancedPRSearchOptions.

Definition s_labels : list string := Js.default (o_labels options) [].
Definition s_state : PRState := Js.default (o_state options) StOpen.
Definition s_author : option string := o_author options.
Definition s_limit : Z := Js.default (o_limit options) 100.
Definition s_sort : PRSort := Js.default (o_sort options) SortCreated.
Definition s_direction : Direction := Js.default (o_direction options) Desc.
Definition s_excludePRs : list Z := Js.default (o_excludePRs options) [].

(** [pr.user?.login !== author] *)
Definition login_differs (pr : PullRequest) (author : string) : bool :=
  match user pr with
  | Some u => negb (String.eqb (login u) author)
  | None => true
  end.

(** The callback of [data.filter]. *)
Definition passes_filters (pr : PullRequest) : bool :=
  if Js.includes_num s_excludePRs (number pr) then false
  else if Js.truthy_opt s_author && login_differs pr (Js.default s_author "")
  then false
  else if (0 <? Js.len s_labels)
          && negb (has_every_label s_labels (label_names pr))
  then false
  else true.

(** The [while (pullRequests.length < limit)] loop. *)
Fixpoint searchPullRequests_loop (fuel : nat) (perPage : Z)
    (pullRequests : list PullRequest) (page : Z)
    : M PullsListParams (list PullRequest) (list PullRequest) :=
  if Js.len pullRequests <? s_limit then
    match fuel with
    | O => out_of_fuel
    | S fuel =>
        let* data := request api
                       {| pl_repo := repo; pl_state := s_state;
                          pl_sort := Some s_sort;
                          pl_direction := Some s_direction;
                          pl_per_page := perPage; pl_page := Some page |} in
        if Js.len data =? 0 then ret pullRequests
        else
          let filteredPRs := filter passes_filters data in
          let pullRequests := pullRequests ++ filteredPRs in
          if (Js.len data <? perPage) || (s_limit <=? Js.len pullRequests)
          then ret pullRequests
          else searchPullRequests_loop fuel perPage pullRequests (page + 1)
    end
  else ret pullRequests.

Definition searchPullRequests (fuel : nat)
    : M PullsListParams (list PullRequest) (list PullRequest) :=
  let perPage := Z.min (s_limit * 2) 100 in
  let* pullRequests := searchPullRequests_loop fuel perPage [] 1 in
  ret (Js.slice 0 s_limit pullRequests).
End SearchPullRequests.

End AdvancedPrUtils.

(* ================================================================= *)
(** ** pull-requests.ts *)

Module PullRequests.

Record PullRequestSearchOptions := mkOptions {
  o_labels : list string;
  o_state : option PRState;
  o_limit : option Z;
  o_sort : option PRSort;
  o_direction : option Direction
}.

Section FindPullRequestsByLabels.
Variable api : endpoint PullsListParams (list PullRequest).
Variable repo : RepoInfo.
Variable options : PullRequestSearchOptions.

Definition f_labels : list string := o_labels options.
Definition f_state : PRState := Js.default (o_state options) StOpen.
Definition f_limit : Z := Js.default (o_limit options) 30.
Definition f_sort : PRSort := Js.default (o_sort options) SortCreated.
Definition f_direction : Direction := Js.default (o_direction options) Desc.

Definition findPullRequestsByLabels
    : M PullsListParams (list PullRequest) (list PullRequest) :=
  if Js.len f_labels =? 0
  then throw (JsError "At least one label must be specified")
  else
    info ("Searching for PRs with labels: " ++ Js.join ", " f_labels)%string ;;
    let* pullRequests :=
      request api {| pl_repo := repo; pl_state := f_state;
                     pl_sort := Some f_sort;
                     pl_direction := Some f_direction;
                     pl_per_page := Z.min (f_limit * 2) 100;
                     pl_page := None |} in
    let matchingPRs :=
      filter (fun pr => has_every_label f_labels (label_names pr)) pullRequests in
    info ("Found " ++ Js.number_to_string (Js.len matchingPRs)
            ++ " PRs matching label criteria")%string ;;
    ret (Js.slice 0 f_limit matchingPRs).
End FindPullRequestsByLabels.

(** Parameters of [pulls.get]. *)
Record PullsGetParams := mkPullsGetParams {
  g_repo : RepoInfo;
  pull_number : Z
}.

Section GetPullRequest.
Variable api : endpoint PullsGetParams PullRequest.

Definition getPullRequest (repo : RepoInfo) (pullNumber : Z)
    : M PullsGetParams PullRequest PullRequest :=
  info ("Getting pull request #" ++ Js.number_to_string pullNumber)%string ;;
  let* pullRequest := request api {| g_repo := repo; pull_number := pullNumber |} in
  ret pullRequest.

(** [label.name]; a bare string has no such property. *)
Definition name_of (label : Label) : option string :=
  match label with
  | LabelString _ => None
  | LabelObject n => n
  end.

(** [requireAll = true]: ALL labels when true, ANY label when false. *)
Definition pullRequestHasLabels (repo : RepoInfo) (pullNumber : Z)
    (labels : list string) (requireAll_arg : option bool)
    : M PullsGetParams PullRequest bool :=
  let requireAll := Js.default requireAll_arg true in
  let* pr := getPullRequest repo pullNumber in
  let prLabels := map (fun label => name_of label) (labels_of pr) in
  if requireAll
  then ret (forallb (fun label => Js.includes_str prLabels label) labels)
  else ret (existsb (fun label => Js.includes_str prLabels label) labels).
End GetPullRequest.

(** Parameters of [issues.removeLabel]. *)
Record RemoveLabelParams := mkRemoveLabelParams {
  r_repo : RepoInfo;
  issue_number : Z;
  name : string
}.

Section RemoveLabels.
Variable api : endpoint RemoveLabelParams unit.
Variable repo : RepoInfo.
Variable pullNumber : Z.

(** The body of [for (const label of labels)], label by label. *)
Fixpoint remove_each (labels : list string) : M RemoveLabelParams unit unit :=
  match labels with
  | [] => ret tt
  | label :: rest =>
      try_catch
        (let* _ := request api {| r_repo := repo;
                                  issue_number := pullNumber;
                                  name := label |} in
         ret tt)
        (fun error =>
           if is_404 error
           then info ("Label '" ++ label ++ "' was not present on PR #"
                        ++ Js.number_to_string pullNumber)%string
           else throw error) ;;
      remove_each rest
  end.

Definition removeLabelsFromPullRequest (labels : list string)
    : M RemoveLabelParams unit unit :=
  if Js.len labels =? 0
  then info "No labels to remove"
  else
    info ("Removing labels from PR #" ++ Js.number_to_string pullNumber
            ++ ": " ++ Js.join ", " labels)%string ;;
    remove_each labels.
End RemoveLabels.

End PullRequests.

(* ================================================================= *)
(** ** comments.ts *)

Module Comments.

Record IssueComment := mkIssueComment {
  id : Z;
  body : option string;
  c_user : option User;
  created_at : string
}.

(** A [Date] is its time value in milliseconds; [None] is the [NaN] of an
    invalid date. *)
Definition Date := option Z.

(** [a > b] and [a < b] on dates: both sides become numbers and every
    comparison with [NaN] is false. *)
Definition date_gt (a b : Date) : bool :=
  match a, b with
  | Some x, Some y => y <? x
  | _, _ => false
  end.

Definition date_lt (a b : Date) : bool :=
  match a, b with
  | Some x, Some y => x <? y
  | _, _ => false
  end.

Record CommentSearchOptions := mkOptions {
  bodyContains : option string;
  author : option string;
  createdAfter : option Date;
  createdBefore : option Date;
  o_limit : option Z
}.

(** Parameters of [issues.listComments]. *)
Record ListCommentsParams := mkParams {
  p_repo : RepoInfo;
  issue_number : Z;
  per_page : Z
}.

Section SearchComments.
(** Built-ins of the language the embedding leaves abstract:
    [String.prototype.toLowerCase] and the [Date] constructor on a
    timestamp string. *)
Variable toLowerCase : string -> string.
Variable new_Date : string -> Date.

Variable api : endpoint ListCommentsParams (list IssueComment).
Variable repo : RepoInfo.
Variable issueNumber : Z.
Variable options : CommentSearchOptions.

(** [limit = 100] *)
Definition limit : Z := Js.default (o_limit options) 100.

(** [comment.body?.toLowerCase().includes(bodyContains.toLowerCase())] *)
Definition body_matches (needle : string) (comment : IssueComment) : bool :=
  match body comment with
  | Some b => Js.str_includes (toLowerCase b) (toLowerCase needle)
  | None => false
  end.

(** [comment.user?.login === author] *)
Definition by_author (who : string) (comment : IssueComment) : bool :=
  match c_user comment with
  | Some u => String.eqb (login u) who
  | None => false
  end.

Definition filter_by_body (cs : list IssueComment) : list IssueComment :=
  match bodyContains options with
  | Some needle =>
      if Js.truthy needle then filter (body_matches needle) cs else cs
  | None => cs
  end.

Definition filter_by_author (cs : list IssueComment) : list IssueComment :=
  match author options with
  | Some who => if Js.truthy who then filter (by_author who) cs else cs
  | None => cs
  end.

Definition filter_created_after (cs : list IssueComment) : list IssueComment :=
  match createdAfter options with
  | Some d => filter (fun comment => date_gt (new_Date (created_at comment)) d) cs
  | None => cs
  end.

Definition filter_created_before (cs : list IssueComment) : list IssueComment :=
  match createdBefore options with
  | Some d => filter (fun comment => date_lt (new_Date (created_at comment)) d) cs
  | None => cs
  end.

Definition searchComments
    : M ListCommentsParams (list IssueComment) (list IssueComment) :=
  let* allComments :=
    request api {| p_repo := repo;
                   issue_number := issueNumber;
                   per_page := Z.min limit 100 |} in
  let filteredComments := allComments in
  let filteredComments := filter_by_body filteredComments in
  let filteredComments := filter_by_author filteredComments in
  let filteredComments := filter_created_after filteredComments in
  let filteredComments := filter_created_before filteredComments in
  ret (Js.slice 0 limit filteredComments).
End SearchComments.

End Comments.

(* ================================================================= *)
(** ** The paginated collector

    The four [while] loops above are one loop up to the request they
    build ([mkreq]) and what they push from a page ([keep]).  [collect] is
    that loop; [collect_events] is the same loop with the trace threading
    removed: from the number [n] of requests issued before it, it gives
    the outcome and the events the loop adds. *)

Section Collector.
Context {Rq Raw Item : Type}.
Variable api : endpoint Rq (list Raw).
Variable mkreq : Z -> Rq.
Variable keep : list Raw -> list Item.
Variables perPage limit : Z.

Fixpoint collect (fuel : nat) (acc : list Item) (page : Z)
    : M Rq (list Raw) (list Item) :=
  if Js.len acc <? limit then
    match fuel with
    | O => out_of_fuel
    | S fuel =>
        let* data := request api (mkreq page) in
        if Js.len data =? 0 then ret acc
        else
          let acc := acc ++ keep data in
          if Js.len data <? perPage then ret acc
          else collect fuel acc (page + 1)
    end
  else ret acc.

Fixpoint collect_events (fuel n : nat) (acc : list Item) (page : Z)
    : outcome (list Item) * trace Rq (list Raw) :=
  if Js.len acc <? limit then
    match fuel with
    | O => (OutOfFuel, [])
    | S fuel =>
        match api n (mkreq page) with
        | Rejected e => (Throw e, [Call (mkreq page) (Rejected e)])
        | Resolved data =>
            if Js.len data =? 0
            then (Return acc, [Call (mkreq page) (Resolved data)])
            else if Js.len data <? perPage
            then (Return (acc ++ keep data), [Call (mkreq page) (Resolved data)])
            else
              let rest :=
                collect_events fuel (S n) (acc ++ keep data) (page + 1) in
              (fst rest, Call (mkreq page) (Resolved data) :: snd rest)
        end
    end
  else (Return acc, []).

End Collector.

(** The [return xs.slice(0, limit)] that ends every collector. *)
Definition sliced {A} (limit : Z) (out : outcome (list A)) : outcome (list A) :=
  match out with
  | Return xs => Return (Js.slice 0 limit xs)
  | Throw e => Throw e
  | OutOfFuel => OutOfFuel
  end.

(** The request [findPRsWithLabels] builds for a page. *)
Definition findPRs_request (repo : RepoInfo) (state_arg : option PRState)
    (perPage page : Z) : PullsListParams :=
  {| pl_repo := repo; pl_state := AdvancedPrUtils.state state_arg;
     pl_sort := None; pl_direction := None;
     pl_per_page := perPage; pl_page := Some page |}.

(** The request [searchPullRequests] builds for a page. *)
Definition search_request (repo : RepoInfo)
    (options : AdvancedPrUtils.AdvancedPRSearchOptions)
    (perPage page : Z) : PullsListParams :=
  {| pl_repo := repo; pl_state := AdvancedPrUtils.s_state options;
     pl_sort := Some (AdvancedPrUtils.s_sort options);
     pl_direction := Some (AdvancedPrUtils.s_direction options);
     pl_per_page := perPage; pl_page := Some page |}.

(** The request [listAllBranches] builds for a page. *)
Definition branches_request (repo : RepoInfo) (perPage page : Z)
    : BranchUtils.ListBranchesParams :=
  {| BranchUtils.p_repo := repo;
     BranchUtils.per_page := perPage;
     BranchUtils.page := page |}.

(** The page a [pulls.list] request asks for (the provider's default is the
    first page). *)
Definition pl_page_number (rq : PullsListParams) : Z := Js.default (pl_page rq) 1.

(** The [core.info] that follows the loop of [findPRsWithLabels]; it is
    reached only when the loop returned. *)
Definition found_info {Rq Rs A} (out : outcome (list A)) : trace Rq Rs :=
  match out with
  | Return xs => [Info ("Found " ++ Js.number_to_string (Js.len xs)
                          ++ " PRs matching label criteria")%string]
  | _ => []
  end.

(** The request [removeLabelsFromPullRequest] issues for one label. *)
Definition remove_request (repo : RepoInfo) (pullNumber : Z) (label : string)
    : PullRequests.RemoveLabelParams :=
  {| PullRequests.r_repo := repo;
     PullRequests.issue_number := pullNumber;
     PullRequests.name := label |}.

(** The line logged for a label that was not on the pull request. *)
Definition not_present_message (pullNumber : Z) (label : string) : string :=
  ("Label '" ++ label ++ "' was not present on PR #"
     ++ Js.number_to_string pullNumber)%string.

(** The labels of a batch whose removal is rejected, when the batch is sent
    label by label as requests number [n], [n + 1], ... *)
Fixpoint rejected_labels (api : endpoint PullRequests.RemoveLabelParams unit)
    (repo : RepoInfo) (pullNumber : Z) (n : nat) (labels : list string)
    : list string :=
  match labels with
  | [] => []
  | label :: rest =>
      match api n (remove_request repo pullNumber label) with
      | Rejected _ => label :: rejected_labels api repo pullNumber (S n) rest
      | Resolved _ => rejected_labels api repo pullNumber (S n) rest
      end
  end.

(** The criteria of [searchComments] read as one test on a comment: every
    criterion that is given (a string criterion that is empty counts as not
    given) must hold.  [bodyContains] asks for a substring of the body,
    lower-casing both sides; [author] for the login of the comment's user;
    [createdAfter] and [createdBefore] for the creation date to be strictly
    later and strictly earlier. *)
Definition meets_criteria (toLowerCase : string -> string)
    (new_Date : string -> Comments.Date)
    (options : Comments.CommentSearchOptions)
    (comment : Comments.IssueComment) : bool :=
  (match Comments.bodyContains options with
   | Some needle =>
       negb (Js.truthy needle) || Comments.body_matches toLowerCase needle comment
   | None => true
   end)
  && (match Comments.author options with
      | Some who => negb (Js.truthy who) || Comments.by_author who comment
      | None => true
      end)
  && (match Comments.createdAfter options with
      | Some d => Comments.date_gt (new_Date (Comments.created_at comment)) d
      | None => true
      end)
  && (match Comments.createdBefore options with
      | Some d => Comments.date_lt (new_Date (Comments.created_at comment)) d
      | None => true
      end).

(* ================================================================= *)
(** ** Properties of traces *)

Section TraceProperties.
Context {Rq Raw : Type}.
Variable per_page_of : Rq -> Z.
Variable page_of : Rq -> Z.

(** The endpoint answers every request with a page. *)
Definition always_resolves (api : endpoint Rq (list Raw)) : Prop :=
  forall n rq, exists data, api n rq = Resolved data.

(** The answer to request number [k] (counting from 0) is empty or
    shorter than [perPage]: the provider has run out of data by then. *)
Definition exhausted_at (api : endpoint Rq (list Raw)) (perPage : Z) (k : nat) : Prop :=
  forall rq, exists data,
    api k rq = Resolved data /\ (Js.len data = 0 \/ Js.len data < perPage).

(** A page that is empty or shorter than the size its request asked for. *)
Definition short_page (rq : Rq) (data : list Raw) : Prop :=
  Js.len data = 0 \/ Js.len data < per_page_of rq.

(** No request follows the answer of a short page. *)
Definition no_request_after_short_page (tr : trace Rq (list Raw)) : Prop :=
  forall pre rq data post,
    tr = pre ++ Call rq (Resolved data) :: post ->
    short_page rq data ->
    requests post = [].

(** Right after a full page all of whose items the filter rejects, the
    next page is requested with the same page size. *)
Definition advances_past_rejected_page (pred : Raw -> bool)
    (tr : trace Rq (list Raw)) : Prop :=
  forall pre rq data post,
    tr = pre ++ Call rq (Resolved data) :: post ->
    0 < Js.len data ->
    per_page_of rq <= Js.len data ->
    (forall x, In x data -> pred x = false) ->
    exists rq' rs rest,
      post = Call rq' rs :: rest /\
      page_of rq' = page_of rq + 1 /\
      per_page_of rq' = per_page_of rq.

(** What the loop has accumulated: the kept items of every page received,
    in request order. *)
Definition accumulated {Item} (keep : list Raw -> list Item)
    (tr : trace Rq (list Raw)) : list Item :=
  List.concat (map keep (resolved tr)).

(** The helper returned the accumulator cut down to [limit] items. *)
Definition returns_truncated {Item} (keep : list Raw -> list Item) (limit : Z)
    (res : outcome (list Item) * trace Rq (list Raw)) : Prop :=
  exists r,
    fst res = Return r /\
    r = firstn (Z.to_nat limit) (accumulated keep (snd res)) /\
    Js.len r <= limit.

End TraceProperties.

(* ================================================================= *)
(** ** Concrete inputs

    Small repositories and endpoints on which the statements below are
    exercised. *)

Module Examples.

Definition test_repo : RepoInfo := {| owner := "test"; repo := "test-repo" |}.

(** A repository without pull requests: every page is empty. *)
Definition no_pulls : endpoint PullsListParams (list PullRequest) :=
  fun _ _ => Resolved [].

(** A deployment for each number. *)
Definition deployment (i : nat) : DeploymentUtils.Deployment :=
  {| DeploymentUtils.id := Z.of_nat i;
     DeploymentUtils.sha := "c0ffee";
     DeploymentUtils.environment := "production" |}.

(** Deployments numbered [from], [from + 1], ... *)
Definition deployments (from count : nat) : list DeploymentUtils.Deployment :=
  map deployment (seq from count).

(** A provider holding 237 deployments, served in pages of the size asked
    for (page numbers start at 1). *)
Definition paged_deployments
    : endpoint DeploymentUtils.ListDeploymentsParams (list DeploymentUtils.Deployment) :=
  fun _ rq =>
    let size := Z.to_nat (DeploymentUtils.per_page rq) in
    let start := (Z.to_nat (DeploymentUtils.page rq - 1) * size)%nat in
    Resolved (firstn size (skipn start (deployments 0 237))).

Definition labelled (n : Z) (names : list string) : PullRequest :=
  {| number := n; user := None;
     labels := map (fun s => LabelObject (Some s)) names |}.

(** First a full page of two pull requests without the wanted label,
    then nothing more. *)
Definition two_features_then_nothing
    : endpoint PullsListParams (list PullRequest) :=
  fun n _ =>
    match n with
    | O => Resolved [labelled 1 ["feature"]; labelled 2 ["feature"]]
    | _ => Resolved []
    end.

(** One page of five pull requests, all labelled [bug]. *)
Definition five_bugs : endpoint PullsListParams (list PullRequest) :=
  fun _ _ =>
    Resolved (map (fun n => labelled n ["bug"]) [1; 2; 3; 4; 5]).

(** The removal of the first label succeeds, the second label is not on
    the pull request. *)
Definition second_label_absent : endpoint PullRequests.RemoveLabelParams unit :=
  fun n _ =>
    match n with
    | 1%nat => Rejected (Rejection {| status := Some 404; message := "Not Found" |})
    | _ => Resolved tt
    end.

(** The removal of the second label fails on the server. *)
Definition second_label_fails : endpoint PullRequests.RemoveLabelParams unit :=
  fun n _ =>
    match n with
    | 1%nat => Rejected (Rejection {| status := Some 500; message := "Server Error" |})
    | _ => Resolved tt
    end.

(** Pull requests labelled {A, B}, {A} and {A, B, C}. *)
Definition pr_ab : PullRequest := labelled 1 ["A"; "B"].
Definition pr_a : PullRequest := labelled 2 ["A"].
Definition pr_abc : PullRequest := labelled 3 ["A"; "B"; "C"].

(** The three of them as the only page there is. *)
Definition one_page_of_three : endpoint PullsListParams (list PullRequest) :=
  fun n _ =>
    match n with
    | O => Resolved [pr_ab; pr_a; pr_abc]
    | _ => Resolved []
    end.

(** Lower-casing of the letters A to Z, enough for ASCII text. *)
Definition lower_char (c : ascii) : ascii :=
  let n := nat_of_ascii c in
  if ((65 <=? n) && (n <=? 90))%nat then ascii_of_nat (n + 32) else c.

Fixpoint lower (s : string) : string :=
  match s with
  | EmptyString => EmptyString
  | String c rest => String (lower_char c) (lower rest)
  end.

(** Timestamps written as a count of milliseconds; anything else is an
    invalid date. *)
Definition millis (s : string) : Comments.Date :=
  option_map Z.of_int (NilZero.int_of_string s).

Definition comment (n : Z) (text who at_ : string) : Comments.IssueComment :=
  {| Comments.id := n;
     Comments.body := Some text;
     Comments.c_user := Some {| login := who |};
     Comments.created_at := at_ |}.

Definition greetings : list Comments.IssueComment :=
  [comment 1 "Hello World" "alice" "1000";
   comment 2 "nothing to see" "alice" "2000";
   comment 3 "HELLO again" "bob" "3000";
   comment 4 "oh, hello" "alice" "4000"].

(** The issue carries these four comments; a page holds as many of them as
    the request asks for. *)
Definition greetings_api
    : endpoint Comments.ListCommentsParams (list Comments.IssueComment) :=
  fun _ rq => Resolved (firstn (Z.to_nat (Comments.per_page rq)) greetings).

(** Up to three comments by alice that say hello. *)
Definition hello_from_alice : Comments.CommentSearchOptions :=
  {| Comments.bodyContains := Some "hello";
     Comments.author := Some "alice";
     Comments.createdAfter := None;
     Comments.createdBefore := None;
     Comments.o_limit := Some 3 |}.

(** Six comments in the order of their writing; the fourth carries a
    timestamp that is no date. *)
Definition history : list Comments.IssueComment :=
  [comment 1 "Hello World" "alice" "1000";
   comment 2 "hello there" "bob" "2000";
   comment 3 "HELLO again" "bob" "3000";
   comment 4 "undated" "alice" "yesterday";
   comment 5 "oh, hello" "alice" "5000";
   comment 6 "hello, late" "alice" "6000"].

(** A client that answers with the whole history whatever page size is
    asked for, as a mocked [listComments] does. *)
Definition whole_history
    : endpoint Comments.ListCommentsParams (list Comments.IssueComment) :=
  fun _ _ => Resolved history.

(** Up to two comments written after 1500 and before 5500. *)
Definition two_between : Comments.CommentSearchOptions :=
  {| Comments.bodyContains := None;
     Comments.author := None;
     Comments.createdAfter := Some (Some 1500);
     Comments.createdBefore := Some (Some 5500);
     Comments.o_limit := Some 2 |}.

(** Pull request #123, labelled [bug]. *)
Definition pr_123 : endpoint PullRequests.PullsGetParams PullRequest :=
  fun _ _ => Resolved (labelled 123 ["bug"]).

(** A repository that has no branch at all. *)
Definition no_branch : endpoint BranchUtils.BranchParams BranchUtils.Branch :=
  fun _ _ => Rejected (Rejection {| status := Some 404; message := "Not Found" |}).

(** A server that fails on every branch lookup. *)
Definition broken_server : endpoint BranchUtils.BranchParams BranchUtils.Branch :=
  fun _ _ => Rejected (Rejection {| status := Some 500; message := "Server Error" |}).

End Examples.

(* ================================================================= *)
(** ** Helpers that talk to more than one endpoint

    A helper bound to several endpoints of the client records its requests
    in one trace: the request and the data of each endpoint are injected
    into a common type of requests and of answers.  The number handed to
    an endpoint is the number of requests the run has issued before,
    whatever the endpoint. *)

Section SeveralEndpoints.
Context {Rq Rs P R : Type}.

(** The answer of one endpoint as an answer of the client. *)
Definition settled_map (inj_rs : R -> Rs) (rs : settled R) : settled Rs :=
  match rs with
  | Resolved d => Resolved (inj_rs d)
  | Rejected e => Rejected e
  end.

(** [await ctx.github.rest.<endpoint>(p)] on one endpoint among several. *)
Definition request_via (inj_rq : P -> Rq) (inj_rs : R -> Rs)
    (api : nat -> P -> settled R) (p : P) : M Rq Rs R :=
  fun tr =>
    let rs := api (calls_made tr) p in
    (match rs with
     | Resolved d => Return d
     | Rejected e => Throw e
     end, tr ++ [Call (inj_rq p) (settled_map inj_rs rs)]).

End SeveralEndpoints.

(** How an awaited request ends: with its data, or throwing what it was
    rejected with. *)
Definition settled_outcome {A} (rs : settled A) : outcome A :=
  match rs with
  | Resolved d => Return d
  | Rejected e => Throw e
  end.

(** The line break of a template literal. *)
Definition newline : string := String (ascii_of_nat 10) EmptyString.

(* ================================================================= *)
(** ** deployment-utils.ts: status and deletion *)

Module DeploymentLifecycle.

Inductive DeploymentState :=
| StateError | StateFailure | StateInactive | StatePending
| StateSuccess | StateQueued | StateInProgress.

Record DeploymentStatus := mkDeploymentStatus {
  ds_id : Z;
  ds_state : DeploymentState
}.

(** Parameters of [repos.createDeploymentStatus]. *)
Record CreateStatusParams := mkCreateStatusParams {
  cs_repo : RepoInfo;
  cs_deployment_id : Z;
  cs_state : DeploymentState;
  cs_description : option string;
  cs_target_url : option string;
  cs_environment : option string
}.

(** Parameters of [repos.deleteDeployment]. *)
Record DeleteParams := mkDeleteParams {
  d_repo : RepoInfo;
  d_deployment_id : Z
}.

Inductive Rq :=
| CreateStatus (p : CreateStatusParams)
| DeleteDeployment (p : DeleteParams).

Inductive Rs :=
| StatusData (s : DeploymentStatus)
| NoData.

Record Client := mkClient {
  createDeploymentStatus : nat -> CreateStatusParams -> settled DeploymentStatus;
  repos_deleteDeployment : nat -> DeleteParams -> settled unit
}.

Section Lifecycle.
Variable client : Client.
Variable repo : RepoInfo.

Definition setDeploymentStatus (deploymentId : Z) (state : DeploymentState)
    (description targetUrl environment : option string)
    : M Rq Rs DeploymentStatus :=
  let* data :=
    request_via CreateStatus StatusData (createDeploymentStatus client)
      {| cs_repo := repo;
         cs_deployment_id := deploymentId;
         cs_state := state;
         cs_description := DeploymentUtils.spread_if description;
         cs_target_url := DeploymentUtils.spread_if targetUrl;
         cs_environment := DeploymentUtils.spread_if environment |} in
  ret data.

Definition deleteDeployment (deploymentId : Z) : M Rq Rs unit :=
  (* First set deployment to inactive *)
  setDeploymentStatus deploymentId StateInactive None None None ;;
  (* Then delete the deployment *)
  let* _ := request_via DeleteDeployment (fun _ : unit => NoData)
              (repos_deleteDeployment client)
              {| d_repo := repo; d_deployment_id := deploymentId |} in
  ret tt.

End Lifecycle.

End DeploymentLifecycle.

(* ================================================================= *)
(** ** advanced-pr-utils.ts: one label on open pull requests *)

Module LabelConflicts.

Record ConflictResult := mkConflictResult {
  hasConflict : bool;
  conflictingPR : option PullRequest
}.

Section OneLabel.
Variable api : endpoint PullsListParams (list PullRequest).
Variable repo : RepoInfo.

(** [excludePRs = [], limit = 100], then handed on as they are. *)
Definition findOpenPRsWithLabel (label : string)
    (excludePRs_arg : option (list Z)) (limit_arg : option Z) (fuel : nat)
    : M PullsListParams (list PullRequest) (list PullRequest) :=
  let excludePRs := Js.default excludePRs_arg [] in
  let limit := Js.default limit_arg 100 in
  AdvancedPrUtils.findPRsWithLabels api repo [label] (Some StOpen)
    (Some limit) (Some excludePRs) fuel.

Definition checkLabelConflicts (prNumber : Z) (label : string) (fuel : nat)
    : M PullsListParams (list PullRequest) ConflictResult :=
  let* conflictingPRs :=
    findOpenPRsWithLabel label (Some [prNumber]) (Some 1) fuel in
  if 0 <? Js.len conflictingPRs then
    match nth_error conflictingPRs 0 with
    | Some conflictingPR =>
        ret {| hasConflict := true; conflictingPR := Some conflictingPR |}
    | None => ret {| hasConflict := false; conflictingPR := None |}
    end
  else ret {| hasConflict := false; conflictingPR := None |}.

End OneLabel.

End LabelConflicts.

(* ================================================================= *)
(** ** pull-requests.ts: adding labels, listing files *)

Module PullRequestLabels.

(** Parameters of [issues.addLabels]. *)
Record AddLabelsParams := mkAddLabelsParams {
  a_repo : RepoInfo;
  a_issue_number : Z;
  a_labels : list string
}.

Section AddLabels.
(** What [issues.addLabels] answers is not looked at. *)
Variable Answer : Type.
Variable api : endpoint AddLabelsParams Answer.
Variable repo : RepoInfo.

Definition addLabelsToPullRequest (pullNumber : Z) (labels : list string)
    : M AddLabelsParams Answer unit :=
  if Js.len labels =? 0
  then info "No labels to add"
  else
    info ("Adding labels to PR #" ++ Js.number_to_string pullNumber
            ++ ": " ++ Js.join ", " labels)%string ;;
    let* _ := request api {| a_repo := repo;
                             a_issue_number := pullNumber;
                             a_labels := labels |} in
    ret tt.
End AddLabels.

(** A file as [pulls.listFiles] reports it; [patch] may be missing. *)
Record FileEntry := mkFileEntry {
  filename : string;
  status : string;
  additions : Z;
  deletions : Z;
  changes : Z;
  patch : option string
}.

(** Parameters of [pulls.listFiles]. *)
Record ListFilesParams := mkListFilesParams {
  f_repo : RepoInfo;
  f_pull_number : Z;
  f_per_page : Z
}.

Section Files.
Variable api : endpoint ListFilesParams (list FileEntry).
Variable repo : RepoInfo.

(** The object built for one file: [...(file.patch && { patch })] keeps
    the key only for a truthy patch. *)
Definition changed_file (file : FileEntry) : FileEntry :=
  {| filename := filename file;
     status := status file;
     additions := additions file;
     deletions := deletions file;
     changes := changes file;
     patch := DeploymentUtils.spread_if (patch file) |}.

Definition getPullRequestFiles (pullNumber : Z)
    : M ListFilesParams (list FileEntry) (list FileEntry) :=
  info ("Getting files for PR #" ++ Js.number_to_string pullNumber)%string ;;
  let* files := request api {| f_repo := repo;
                               f_pull_number := pullNumber;
                               f_per_page := 100 |} in
  ret (map (fun file => changed_file file) files).
End Files.

End PullRequestLabels.

(* ================================================================= *)
(** ** comments.ts: sticky comments *)

Module StickyComments.

Record StickyCommentOptions := mkOptions {
  identifier : string;
  o_body : string;
  updateIfExists : option bool
}.

(** Parameters of [issues.updateComment]. *)
Record UpdateCommentParams := mkUpdateCommentParams {
  u_repo : RepoInfo;
  u_comment_id : Z;
  u_body : string
}.

(** Parameters of [issues.createComment]. *)
Record CreateCommentParams := mkCreateCommentParams {
  c_repo : RepoInfo;
  c_issue_number : Z;
  c_body : string
}.

(** Parameters of [issues.deleteComment]. *)
Record DeleteCommentParams := mkDeleteCommentParams {
  d_repo : RepoInfo;
  d_comment_id : Z
}.

Inductive Rq :=
| ListComments (p : Comments.ListCommentsParams)
| UpdateComment (p : UpdateCommentParams)
| CreateComment (p : CreateCommentParams)
| DeleteComment (p : DeleteCommentParams).

Inductive Rs :=
| CommentList (cs : list Comments.IssueComment)
| OneComment (c : Comments.IssueComment)
| NoData.

Record Client := mkClient {
  listComments : nat -> Comments.ListCommentsParams -> settled (list Comments.IssueComment);
  updateComment : nat -> UpdateCommentParams -> settled Comments.IssueComment;
  createComment : nat -> CreateCommentParams -> settled Comments.IssueComment;
  issues_deleteComment : nat -> DeleteCommentParams -> settled unit
}.

(** [`<!-- sticky-comment-id: ${identifier} -->`] *)
Definition identifierMarker (identifier : string) : string :=
  ("<!-- sticky-comment-id: " ++ identifier ++ " -->")%string.

(** [comment.body?.includes(identifierMarker)] *)
Definition carries_marker (marker : string) (comment : Comments.IssueComment) : bool :=
  match Comments.body comment with
  | Some b => Js.str_includes b marker
  | None => false
  end.

Section Sticky.
Variable client : Client.
Variable repo : RepoInfo.

Definition findCommentByIdentifier (issueNumber : Z) (identifier : string)
    : M Rq Rs (option Comments.IssueComment) :=
  let marker := identifierMarker identifier in
  (* Get all comments for the issue/PR *)
  let* comments :=
    request_via ListComments CommentList (listComments client)
      {| Comments.p_repo := repo;
         Comments.issue_number := issueNumber;
         Comments.per_page := 100 |} in
  (* Find comment containing our identifier *)
  let matchingComment := find (carries_marker marker) comments in
  ret matchingComment.

Definition createStickyComment (issueNumber : Z) (options : StickyCommentOptions)
    : M Rq Rs Comments.IssueComment :=
  let updateIfExists := Js.default (updateIfExists options) true in
  let marker := identifierMarker (identifier options) in
  let fullBody := (marker ++ newline ++ o_body options)%string in
  let create_new : M Rq Rs Comments.IssueComment :=
    info ("Creating new sticky comment with identifier: "
            ++ identifier options)%string ;;
    let* newComment :=
      request_via CreateComment OneComment (createComment client)
        {| c_repo := repo; c_issue_number := issueNumber; c_body := fullBody |} in
    ret newComment in
  (* First, try to find existing sticky comment *)
  if updateIfExists then
    let* existingComment := findCommentByIdentifier issueNumber (identifier options) in
    match existingComment with
    | Some existing =>
        info ("Updating existing sticky comment " ++ identifier options
                ++ " (ID: " ++ Js.number_to_string (Comments.id existing)
                ++ ")")%string ;;
        let* updatedComment :=
          request_via UpdateComment OneComment (updateComment client)
            {| u_repo := repo;
               u_comment_id := Comments.id existing;
               u_body := fullBody |} in
        ret updatedComment
    | None => create_new
    end
  else create_new.

Definition deleteComment (commentId : Z) : M Rq Rs unit :=
  info ("Deleting comment ID: " ++ Js.number_to_string commentId)%string ;;
  let* _ := request_via DeleteComment (fun _ : unit => NoData)
              (issues_deleteComment client)
              {| d_repo := repo; d_comment_id := commentId |} in
  ret tt.

Definition deleteStickyComment (issueNumber : Z) (identifier : string)
    : M Rq Rs bool :=
  let* existingComment := findCommentByIdentifier issueNumber identifier in
  match existingComment with
  | Some existing =>
      deleteComment (Comments.id existing) ;;
      ret true
  | None =>
      info ("Sticky comment with identifier '" ++ identifier
              ++ "' not found")%string ;;
      ret false
  end.

End Sticky.

End StickyComments.

(** The [listComments] request by which a sticky comment is looked up. *)
Definition lookup_request (repo : RepoInfo) (issueNumber : Z)
    : Comments.ListCommentsParams :=
  {| Comments.p_repo := repo;
     Comments.issue_number := issueNumber;
     Comments.per_page := 100 |}.

(** The body [createStickyComment] writes: the marker, a line break, the
    text. *)
Definition sticky_body (identifier text : string) : string :=
  (StickyComments.identifierMarker identifier ++ newline ++ text)%string.

(* ================================================================= *)
(** ** More concrete inputs *)

Module MoreExamples.

Definition server_error : exn :=
  Rejection {| status := Some 500; message := "Server Error" |}.

Definition not_found : exn :=
  Rejection {| status := Some 404; message := "Not Found" |}.

(** A full page of two pull requests without the wanted label, then the
    server fails. *)
Definition second_page_fails : endpoint PullsListParams (list PullRequest) :=
  fun n _ =>
    match n with
    | O => Resolved [Examples.labelled 1 ["feature"]; Examples.labelled 2 ["feature"]]
    | _ => Rejected server_error
    end.

(** Pull requests 1 to 4 labelled [bug], number 3 also [urgent], served in
    pages of the size asked for. *)
Definition bugs : list PullRequest :=
  [Examples.labelled 1 ["bug"]; Examples.labelled 2 ["bug"];
   Examples.labelled 3 ["bug"; "urgent"]; Examples.labelled 4 ["bug"]].

Definition paged_bugs : endpoint PullsListParams (list PullRequest) :=
  fun _ rq =>
    let size := Z.to_nat (pl_per_page rq) in
    let start := (Z.to_nat (pl_page_number rq - 1) * size)%nat in
    Resolved (firstn size (skipn start bugs)).

Definition authored (n : Z) (who : string) (names : list string) : PullRequest :=
  {| number := n; user := Some {| login := who |};
     labels := map (fun s => LabelObject (Some s)) names |}.

(** One short page of pull requests by alice and bob. *)
Definition team_page : endpoint PullsListParams (list PullRequest) :=
  fun _ _ =>
    Resolved [authored 1 "alice" ["bug"]; authored 2 "bob" ["bug"];
              authored 3 "alice" ["feature"]; authored 4 "alice" ["bug"; "urgent"]].

(** Bugs by alice, except number 4. *)
Definition bugs_by_alice : AdvancedPrUtils.AdvancedPRSearchOptions :=
  {| AdvancedPrUtils.o_labels := Some ["bug"];
     AdvancedPrUtils.o_state := None;
     AdvancedPrUtils.o_author := Some "alice";
     AdvancedPrUtils.o_limit := None;
     AdvancedPrUtils.o_sort := None;
     AdvancedPrUtils.o_direction := None;
     AdvancedPrUtils.o_excludePRs := Some [4] |}.

(** The two most recent urgent bugs. *)
Definition two_urgent_bugs : PullRequests.PullRequestSearchOptions :=
  {| PullRequests.o_labels := ["bug"; "urgent"];
     PullRequests.o_state := None;
     PullRequests.o_limit := Some 2;
     PullRequests.o_sort := None;
     PullRequests.o_direction := None |}.

(** [issues.addLabels] answering with nothing of interest. *)
Definition labels_added : endpoint PullRequestLabels.AddLabelsParams unit :=
  fun _ _ => Resolved tt.

(** [issues.addLabels] on an issue that does not exist. *)
Definition no_such_issue : endpoint PullRequestLabels.AddLabelsParams unit :=
  fun _ _ => Rejected not_found.

(** Pull request #7 carries [bug] and, as a bare string, [legacy]. *)
Definition pr_7 : endpoint PullRequests.PullsGetParams PullRequest :=
  fun _ _ =>
    Resolved {| number := 7; user := None;
                labels := [LabelObject (Some "bug"); LabelString "legacy"] |}.

(** Three changed files: with a patch, with an empty patch, without one. *)
Definition three_files : list PullRequestLabels.FileEntry :=
  [{| PullRequestLabels.filename := "src/index.ts";
      PullRequestLabels.status := "modified";
      PullRequestLabels.additions := 10;
      PullRequestLabels.deletions := 5;
      PullRequestLabels.changes := 15;
      PullRequestLabels.patch := Some "@@ -1,3 +1,4 @@" |};
   {| PullRequestLabels.filename := "empty.txt";
      PullRequestLabels.status := "added";
      PullRequestLabels.additions := 0;
      PullRequestLabels.deletions := 0;
      PullRequestLabels.changes := 0;
      PullRequestLabels.patch := Some "" |};
   {| PullRequestLabels.filename := "logo.png";
      PullRequestLabels.status := "added";
      PullRequestLabels.additions := 0;
      PullRequestLabels.deletions := 0;
      PullRequestLabels.changes := 0;
      PullRequestLabels.patch := None |}].

Definition files_api
    : endpoint PullRequestLabels.ListFilesParams (list PullRequestLabels.FileEntry) :=
  fun _ _ => Resolved three_files.

(** A comment thread: a plain comment, then the sticky comment [build]
    written earlier, then another plain one. *)
Definition thread : list Comments.IssueComment :=
  [Examples.comment 11 "first!" "alice" "1000";
   {| Comments.id := 12;
      Comments.body := Some (StickyComments.identifierMarker "build"
                               ++ newline ++ "Build 41 passed")%string;
      Comments.c_user := Some {| login := "bot" |};
      Comments.created_at := "2000" |};
   Examples.comment 13 "thanks" "bob" "3000"].

(** A client over that thread; updating, creating and deleting succeed. *)
Definition thread_client : StickyComments.Client :=
  {| StickyComments.listComments := fun _ _ => Resolved thread;
     StickyComments.updateComment :=
       fun _ p => Resolved {| Comments.id := StickyComments.u_comment_id p;
                              Comments.body := Some (StickyComments.u_body p);
                              Comments.c_user := Some {| login := "bot" |};
                              Comments.created_at := "4000" |};
     StickyComments.createComment :=
       fun _ p => Resolved {| Comments.id := 14;
                              Comments.body := Some (StickyComments.c_body p);
                              Comments.c_user := Some {| login := "bot" |};
                              Comments.created_at := "4000" |};
     StickyComments.issues_deleteComment := fun _ _ => Resolved tt |}.

Definition build_report (text : string) : StickyComments.StickyCommentOptions :=
  {| StickyComments.identifier := "build";
     StickyComments.o_body := text;
     StickyComments.updateIfExists := None |}.

(** Deployments whose status cannot be changed. *)
Definition status_locked : DeploymentLifecycle.Client :=
  {| DeploymentLifecycle.createDeploymentStatus := fun _ _ => Rejected server_error;
     DeploymentLifecycle.repos_deleteDeployment := fun _ _ => Resolved tt |}.

(** Deployments that can be retired and deleted. *)
Definition deletable : DeploymentLifecycle.Client :=
  {| DeploymentLifecycle.createDeploymentStatus :=
       fun _ p => Resolved {| DeploymentLifecycle.ds_id := 1;
                              DeploymentLifecycle.ds_state :=
                                DeploymentLifecycle.cs_state p |};
     DeploymentLifecycle.repos_deleteDeployment := fun _ _ => Resolved tt |}.

End MoreExamples.

(* ================================================================= *)
(** ** Text helpers (utils, input-utils, string-utils)

    Pure functions from strings to strings.  A string is the sequence of
    its code units, and the strings modelled are those whose code units fit
    one byte.  The regular expressions of these helpers name ASCII
    characters only, and they apply [toUpperCase] and [toLowerCase] only to
    a single character matched by [\w] or by [[A-Z]]. *)

Module Text.

(** [String.prototype.length] *)
Definition len (s : string) : Z := Z.of_nat (String.length s).

(** [String.prototype.slice(start, end)] for integral arguments: the same
    clamping as the slice of an array. *)
Definition slice (start end_ : Z) (s : string) : string :=
  string_of_list_ascii (Js.slice start end_ (list_ascii_of_string s)).

Definition code (c : ascii) : N := N_of_ascii c.

(** The character classes [[A-Z]], [[a-z]], [[0-9]] and [\w]. *)
Definition is_upper (c : ascii) : bool := ((65 <=? code c) && (code c <=? 90))%N.

Definition is_lower (c : ascii) : bool := ((97 <=? code c) && (code c <=? 122))%N.

Definition is_digit (c : ascii) : bool := ((48 <=? code c) && (code c <=? 57))%N.

Definition is_word (c : ascii) : bool :=
  is_upper c || is_lower c || is_digit c || (c =? "_")%char.

(** [toUpperCase] and [toLowerCase] of a one-character ASCII string. *)
Definition toUpperCase (c : ascii) : ascii :=
  if is_lower c then ascii_of_N (code c - 32) else c.

Definition toLowerCase (c : ascii) : ascii :=
  if is_upper c then ascii_of_N (code c + 32) else c.

(** The double quote and the backslash. *)
Definition double_quote : ascii := ascii_of_nat 34.

Definition backslash : ascii := ascii_of_nat 92.

End Text.

Module Utils.

(** [truncateText(text, maxLength)] for an integral [maxLength]. *)
Definition truncateText (text : string) (maxLength : Z) : string :=
  if Text.len text <=? maxLength then text
  else (Text.slice 0 (maxLength - 3) text ++ "...")%string.

(** The characters of the class in [escapeMarkdown]'s regular expression:
    backslash, backtick, star, underscore, braces, brackets, parentheses,
    hash, plus, minus, dot and exclamation mark. *)
Definition special_characters : list ascii :=
  Text.backslash :: list_ascii_of_string "`*_{}[]()#+-.!".

Definition is_special (c : ascii) : bool :=
  existsb (Ascii.eqb c) special_characters.

(** [text.replace(/[...]/g, '\\$&')]: every character of the class is
    replaced by a backslash followed by itself. *)
Fixpoint escapeMarkdown (text : string) : string :=
  match text with
  | EmptyString => EmptyString
  | String c rest =>
      if is_special c
      then String Text.backslash (String c (escapeMarkdown rest))
      else String c (escapeMarkdown rest)
  end.

End Utils.

Module InputUtils.

(** The second alternative of the pattern, a double quote followed by
    [$]: a double quote that ends the input. *)
Fixpoint drop_closing_quote (s : string) : string :=
  match s with
  | EmptyString => EmptyString
  | String c rest =>
      match rest with
      | EmptyString => if (c =? Text.double_quote)%char then EmptyString else s
      | String _ _ => String c (drop_closing_quote rest)
      end
  end.

(** [input.replace(re, '')] where the global pattern [re] is a double
    quote at [^] or a double quote at [$]: the scan removes a double quote
    at the very start, then a double quote at the very end of what follows;
    one character is never matched twice. *)
Definition strip_quotes (s : string) : string :=
  match s with
  | EmptyString => EmptyString
  | String c rest =>
      if (c =? Text.double_quote)%char
      then drop_closing_quote rest
      else drop_closing_quote s
  end.

(** An input of type [unknown]: a string, or anything else. *)
Inductive Input (Other : Type) :=
| IsString (s : string)
| NotString (v : Other).
Arguments IsString {Other} s.
Arguments NotString {Other} v.

Definition sanitizeInput {Other} (input : Input Other) : Input Other :=
  match input with
  | IsString s => IsString (strip_quotes s)
  | NotString v => NotString v
  end.

End InputUtils.

Module StringUtils.

(** [str.replace(/(SEP\w)/g, (match) => match[1]?.toUpperCase() || '')].
    Scanning from the left, a separator followed by a word character is
    replaced by that character in upper case (a one-character string, so
    never the empty fallback) and the scan resumes behind the two; any
    other character is kept. *)
Fixpoint upper_after (sep : ascii) (str : string) : string :=
  match str with
  | EmptyString => EmptyString
  | String c rest =>
      match rest with
      | EmptyString => String c EmptyString
      | String w rest' =>
          if (c =? sep)%char && Text.is_word w
          then String (Text.toUpperCase w) (upper_after sep rest')
          else String c (upper_after sep rest)
      end
  end.

(** [str.replace(/[A-Z]/g, (letter) => `SEP${letter.toLowerCase()}`)] *)
Fixpoint lower_behind (sep : ascii) (str : string) : string :=
  match str with
  | EmptyString => EmptyString
  | String c rest =>
      if Text.is_upper c
      then String sep (String (Text.toLowerCase c) (lower_behind sep rest))
      else String c (lower_behind sep rest)
  end.

Definition snakeToCamel (str : string) : string := upper_after "_" str.

Definition camelToSnake (str : string) : string := lower_behind "_" str.

Definition kebabToCamel (str : string) : string := upper_after "-" str.

Definition camelToKebab (str : string) : string := lower_behind "-" str.

End StringUtils.

(* ================================================================= *)
(** * Proofs *)

(** ** Arrays *)

Lemma len_nonneg {A} (l : list A) : 0 <= Js.len l.
Proof. unfold Js.len. lia. Qed.

Lemma len_app {A} (l1 l2 : list A) : Js.len (l1 ++ l2) = Js.len l1 + Js.len l2.
Proof. unfold Js.len. rewrite length_app. lia. Qed.

Lemma len_zero_nil {A} (l : list A) : Js.len l = 0 -> l = [].
Proof. destruct l; [reflexivity | unfold Js.len; simpl; lia]. Qed.

Lemma slice_firstn {A} (limit : Z) (l : list A) :
  0 <= limit -> Js.slice 0 limit l = firstn (Z.to_nat limit) l.
Proof.
  intros Hl. unfold Js.slice.
  pose proof (len_nonneg l) as Hn.
  replace (0 <? 0) with false by reflexivity.
  destruct (limit <? 0) eqn:E; [apply Z.ltb_lt in E; lia |].
  rewrite (Z.min_l 0 (Js.len l)) by lia.
  simpl skipn. rewrite Z.sub_0_r.
  destruct (Z.le_gt_cases limit (Js.len l)) as [Hle | Hgt].
  - rewrite Z.min_l by lia. reflexivity.
  - rewrite Z.min_r by lia.
    unfold Js.len in *. rewrite Nat2Z.id.
    rewrite firstn_all. symmetry. apply firstn_all2. lia.
Qed.

Lemma in_slice {A} (start end_ : Z) (l : list A) (x : A) :
  In x (Js.slice start end_ l) -> In x l.
Proof.
  unfold Js.slice.
  set (k := Z.to_nat _). set (m := Z.to_nat _). intros H.
  assert (H' : In x (skipn m l)).
  { rewrite <- (firstn_skipn k (skipn m l)). apply in_or_app. now left. }
  rewrite <- (firstn_skipn m l). apply in_or_app. now right.
Qed.

Lemma len_firstn_le {A} (limit : Z) (l : list A) :
  0 <= limit -> Js.len (firstn (Z.to_nat limit) l) <= limit.
Proof.
  intros Hl. unfold Js.len. rewrite length_firstn. lia.
Qed.

(** ** Traces *)

Section TraceLemmas.
Context {Rq Rs : Type}.
Implicit Types tr : trace Rq Rs.

Lemma calls_made_app tr1 tr2 :
  calls_made (tr1 ++ tr2) = (calls_made tr1 + calls_made tr2)%nat.
Proof. unfold calls_made. rewrite filter_app, length_app. reflexivity. Qed.

Lemma requests_app tr1 tr2 :
  requests (tr1 ++ tr2) = requests tr1 ++ requests tr2.
Proof.
  induction tr1 as [| [rq rs | m] tr1 IH]; simpl; [reflexivity | | assumption].
  now rewrite IH.
Qed.

Lemma infos_app tr1 tr2 : infos (tr1 ++ tr2) = infos tr1 ++ infos tr2.
Proof.
  induction tr1 as [| [rq rs | m] tr1 IH]; simpl; [reflexivity | assumption |].
  now rewrite IH.
Qed.

Lemma resolved_app tr1 tr2 :
  resolved (tr1 ++ tr2) = resolved tr1 ++ resolved tr2.
Proof.
  induction tr1 as [| [rq [d | e] | m] tr1 IH]; simpl;
    [reflexivity | | assumption | assumption].
  now rewrite IH.
Qed.

Lemma calls_made_requests tr : calls_made tr = List.length (requests tr).
Proof.
  induction tr as [| [rq rs | m] tr IH]; unfold calls_made in *; simpl;
    [reflexivity | now rewrite IH | assumption].
Qed.
End TraceLemmas.

(** ** The collector *)

Section CollectorLemmas.
Context {Rq Raw Item : Type}.
Variable api : endpoint Rq (list Raw).
Variable mkreq : Z -> Rq.
Variable keep : list Raw -> list Item.
Variables perPage limit : Z.

Local Abbreviation collect := (collect api mkreq keep perPage limit).
Local Abbreviation collect_events := (collect_events api mkreq keep perPage limit).

(** [collect] adds to the trace exactly the events of [collect_events]. *)
Lemma collect_unfold fuel : forall acc page tr,
  collect fuel acc page tr =
  (fst (collect_events fuel (calls_made tr) acc page),
   tr ++ snd (collect_events fuel (calls_made tr) acc page)).
Proof.
  induction fuel as [| fuel IH]; intros acc page tr; simpl.
  - destruct (Js.len acc <? limit); simpl; now rewrite app_nil_r.
  - destruct (Js.len acc <? limit); simpl; [| now rewrite app_nil_r].
    unfold bind, request.
    destruct (api (calls_made tr) (mkreq page)) as [data | e]; simpl;
      [| reflexivity].
    destruct (Js.len data =? 0); simpl; [reflexivity |].
    destruct (Js.len data <? perPage); simpl; [reflexivity |].
    rewrite IH, calls_made_app.
    change (calls_made [Call (mkreq page) (Resolved data)]) with 1%nat.
    replace (calls_made tr + 1)%nat with (S (calls_made tr)) by lia.
    now rewrite <- app_assoc.
Qed.

(** Once the accumulator has reached the limit the loop is over. *)
Lemma collect_done fuel acc page tr :
  (Js.len acc <? limit) = false -> collect fuel acc page tr = (Return acc, tr).
Proof. intros H. destruct fuel; simpl; now rewrite H. Qed.

(** *** One round of the loop *)

Lemma collect_events_full fuel n acc page data :
  Js.len acc < limit ->
  api n (mkreq page) = Resolved data ->
  0 < Js.len data -> perPage <= Js.len data ->
  collect_events (S fuel) n acc page =
  (fst (collect_events fuel (S n) (acc ++ keep data) (page + 1)),
   Call (mkreq page) (Resolved data)
     :: snd (collect_events fuel (S n) (acc ++ keep data) (page + 1))).
Proof.
  intros Hacc Hapi Hpos Hfull. simpl.
  apply Z.ltb_lt in Hacc. rewrite Hacc, Hapi.
  destruct (Js.len data =? 0) eqn:E0; [apply Z.eqb_eq in E0; lia |].
  destruct (Js.len data <? perPage) eqn:E1; [apply Z.ltb_lt in E1; lia |].
  reflexivity.
Qed.

Lemma collect_events_short fuel n acc page data :
  Js.len acc < limit ->
  api n (mkreq page) = Resolved data ->
  0 < Js.len data -> Js.len data < perPage ->
  collect_events (S fuel) n acc page =
  (Return (acc ++ keep data), [Call (mkreq page) (Resolved data)]).
Proof.
  intros Hacc Hapi Hpos Hshort. simpl.
  apply Z.ltb_lt in Hacc. rewrite Hacc, Hapi.
  destruct (Js.len data =? 0) eqn:E0; [apply Z.eqb_eq in E0; lia |].
  apply Z.ltb_lt in Hshort. now rewrite Hshort.
Qed.

(** *** Every event is a request built by [mkreq] *)

Lemma collect_events_calls fuel : forall n acc page,
  Forall (fun ev => exists p rs, ev = Call (mkreq p) rs)
         (snd (collect_events fuel n acc page)).
Proof.
  induction fuel as [| fuel IH]; intros n acc page; simpl.
  - destruct (Js.len acc <? limit); simpl; constructor.
  - destruct (Js.len acc <? limit); simpl; [| constructor].
    destruct (api n (mkreq page)) as [data | e]; simpl;
      [| repeat constructor; eauto].
    destruct (Js.len data =? 0); simpl; [repeat constructor; eauto |].
    destruct (Js.len data <? perPage); simpl; [repeat constructor; eauto |].
    constructor; eauto.
Qed.

(** *** The loop stops at a short page *)

Lemma singleton_split {A} (x y : A) pre post :
  [x] = pre ++ y :: post -> pre = [] /\ x = y /\ post = [].
Proof.
  destruct pre as [| z pre]; simpl; intros H.
  - now inversion H.
  - inversion H as [[Hx Hnil]]. now destruct pre.
Qed.

Lemma collect_events_short_stop fuel : forall n acc page pre rq data post,
  snd (collect_events fuel n acc page) = pre ++ Call rq (Resolved data) :: post ->
  Js.len data = 0 \/ Js.len data < perPage ->
  post = [].
Proof.
  induction fuel as [| fuel IH]; intros n acc page pre rq data post; simpl.
  - destruct (Js.len acc <? limit); simpl; intros H; now destruct pre.
  - destruct (Js.len acc <? limit); simpl; [| intros H; now destruct pre].
    destruct (api n (mkreq page)) as [d | e]; simpl.
    + destruct (Js.len d =? 0) eqn:E0; simpl;
        [intros H _; now apply singleton_split in H |].
      destruct (Js.len d <? perPage) eqn:E1; simpl;
        [intros H _; now apply singleton_split in H |].
      destruct pre as [| ev pre]; simpl; intros H Hshort.
      * inversion H; subst.
        apply Z.eqb_neq in E0. apply Z.ltb_ge in E1. lia.
      * inversion H as [[Hev Hrest]]. eapply IH; eauto.
    + intros H _. now apply singleton_split in H.
Qed.

(** *** The loop goes on after a full page that adds nothing *)

Lemma collect_events_head fuel n acc page :
  Js.len acc < limit ->
  exists rs rest,
    snd (collect_events (S fuel) n acc page) = Call (mkreq page) rs :: rest.
Proof.
  intros Hacc. apply Z.ltb_lt in Hacc. simpl. rewrite Hacc.
  destruct (api n (mkreq page)) as [d | e]; simpl; [| eauto].
  destruct (Js.len d =? 0); simpl; [eauto |].
  destruct (Js.len d <? perPage); simpl; eauto.
Qed.

Lemma collect_events_advance fuel : forall n acc page pre rq data post,
  snd (collect_events fuel n acc page) = pre ++ Call rq (Resolved data) :: post ->
  0 < Js.len data -> perPage <= Js.len data ->
  keep data = [] ->
  fst (collect_events fuel n acc page) <> OutOfFuel ->
  exists p rs rest, rq = mkreq p /\ post = Call (mkreq (p + 1)) rs :: rest.
Proof.
  induction fuel as [| fuel IH]; intros n acc page pre rq data post; simpl.
  - destruct (Js.len acc <? limit); simpl; intros H; now destruct pre.
  - destruct (Js.len acc <? limit) eqn:Eacc; simpl; [| intros H; now destruct pre].
    destruct (api n (mkreq page)) as [d | e]; simpl.
    + destruct (Js.len d =? 0) eqn:E0; simpl.
      { intros H Hpos. apply singleton_split in H as (_ & H & _).
        inversion H; subst. apply Z.eqb_eq in E0. lia. }
      destruct (Js.len d <? perPage) eqn:E1; simpl.
      { intros H _ Hfull. apply singleton_split in H as (_ & H & _).
        inversion H; subst. apply Z.ltb_lt in E1. lia. }
      destruct pre as [| ev pre]; simpl; intros H Hpos Hfull Hkeep Hout.
      * inversion H; subst. rewrite Hkeep, app_nil_r in *.
        exists page. apply Z.ltb_lt in Eacc.
        destruct fuel as [| fuel].
        { simpl in Hout. apply Z.ltb_lt in Eacc. rewrite Eacc in Hout.
          now contradiction Hout. }
        destruct (collect_events_head fuel (S n) acc (page + 1) Eacc)
          as (rs & rest & Hhead).
        rewrite Hhead. eauto.
      * inversion H as [[Hev Hrest]]. eapply IH; eauto.
    + intros H. apply singleton_split in H as (_ & H & _). discriminate.
Qed.

(** *** What is returned is the accumulator *)

Hypothesis keep_nil : keep [] = [].

Lemma collect_events_result fuel : forall n acc page r,
  fst (collect_events fuel n acc page) = Return r ->
  r = acc ++ accumulated keep (snd (collect_events fuel n acc page)).
Proof.
  unfold accumulated.
  induction fuel as [| fuel IH]; intros n acc page r; simpl.
  - destruct (Js.len acc <? limit); simpl; intros H; inversion H.
    now rewrite app_nil_r.
  - destruct (Js.len acc <? limit); simpl;
      [| intros H; inversion H; now rewrite app_nil_r].
    destruct (api n (mkreq page)) as [d | e]; simpl; [| discriminate].
    destruct (Js.len d =? 0) eqn:E0; simpl.
    { intros H; inversion H. apply Z.eqb_eq, len_zero_nil in E0. subst d.
      now rewrite keep_nil, !app_nil_r. }
    destruct (Js.len d <? perPage); simpl.
    { intros H; inversion H. now rewrite app_nil_r. }
    intros H. apply IH in H. now rewrite H, <- app_assoc.
Qed.

(** *** Termination *)

(** A loop that pushes every item of a page needs at most as many rounds
    as there are items missing. *)
Lemma collect_events_total fuel : forall n acc page,
  (forall d, Js.len (keep d) = Js.len d) ->
  (Z.to_nat (limit - Js.len acc) <= fuel)%nat ->
  fst (collect_events fuel n acc page) <> OutOfFuel.
Proof.
  induction fuel as [| fuel IH]; intros n acc page Hkeep Hfuel; simpl.
  - destruct (Js.len acc <? limit) eqn:E; simpl; [| discriminate].
    apply Z.ltb_lt in E. lia.
  - destruct (Js.len acc <? limit) eqn:E; simpl; [| discriminate].
    destruct (api n (mkreq page)) as [d | e]; simpl; [| discriminate].
    destruct (Js.len d =? 0) eqn:E0; simpl; [discriminate |].
    destruct (Js.len d <? perPage); simpl; [discriminate |].
    apply IH; [assumption |].
    rewrite len_app, Hkeep.
    apply Z.eqb_neq in E0. pose proof (len_nonneg d). apply Z.ltb_lt in E. lia.
Qed.

(** A loop that filters is over at the latest when the provider runs out
    of data. *)
Lemma collect_events_exhausted k : forall fuel n acc page,
  exhausted_at api perPage (n + k) ->
  (k < fuel)%nat ->
  fst (collect_events fuel n acc page) <> OutOfFuel.
Proof.
  induction k as [| k IH]; intros fuel n acc page Hex Hfuel;
    (destruct fuel as [| fuel]; [lia |]); simpl.
  - destruct (Js.len acc <? limit); simpl; [| discriminate].
    destruct (Hex (mkreq page)) as (d & Hd & Hshort).
    rewrite Nat.add_0_r in Hd. rewrite Hd.
    destruct (Js.len d =? 0) eqn:E0; simpl; [discriminate |].
    destruct (Js.len d <? perPage) eqn:E1; simpl; [discriminate |].
    apply Z.eqb_neq in E0. apply Z.ltb_ge in E1. lia.
  - destruct (Js.len acc <? limit); simpl; [| discriminate].
    destruct (api n (mkreq page)) as [d | e]; simpl; [| discriminate].
    destruct (Js.len d =? 0); simpl; [discriminate |].
    destruct (Js.len d <? perPage); simpl; [discriminate |].
    apply IH; [| lia].
    now replace (S n + k)%nat with (n + S k)%nat by lia.
Qed.

Lemma collect_events_no_throw fuel : forall n acc page e,
  always_resolves api ->
  fst (collect_events fuel n acc page) <> Throw e.
Proof.
  induction fuel as [| fuel IH]; intros n acc page e Hres; simpl.
  - destruct (Js.len acc <? limit); discriminate.
  - destruct (Js.len acc <? limit); simpl; [| discriminate].
    destruct (Hres n (mkreq page)) as (d & Hd). rewrite Hd.
    destruct (Js.len d =? 0); simpl; [discriminate |].
    destruct (Js.len d <? perPage); simpl; [discriminate |].
    now apply IH.
Qed.
End CollectorLemmas.

(** ** Each source loop is the collector *)

Section LoopsAreCollectors.

Lemma listDeployments_loop_collect api repo ref environment limit_arg fuel :
  forall perPage acc page tr,
    DeploymentUtils.listDeployments_loop api repo ref environment limit_arg
      fuel perPage acc page tr =
    collect api (DeploymentUtils.listDeployments_request repo ref environment perPage)
      (fun data => data) perPage (DeploymentUtils.limit limit_arg)
      fuel acc page tr.
Proof.
  induction fuel as [| fuel IH]; intros perPage acc page tr; simpl;
    [reflexivity |].
  destruct (Js.len acc <? DeploymentUtils.limit limit_arg); [| reflexivity].
  unfold bind, request.
  destruct (api (calls_made tr) _) as [data | e]; [| reflexivity].
  destruct (Js.len data =? 0); [reflexivity |].
  destruct (Js.len data <? perPage); [reflexivity | apply IH].
Qed.

Lemma listAllBranches_loop_collect api repo limit_arg fuel :
  forall perPage acc page tr,
    BranchUtils.listAllBranches_loop api repo limit_arg fuel perPage acc page tr =
    collect api (branches_request repo perPage)
      (map BranchUtils.name) perPage (BranchUtils.limit limit_arg)
      fuel acc page tr.
Proof.
  induction fuel as [| fuel IH]; intros perPage acc page tr; simpl;
    [reflexivity |].
  destruct (Js.len acc <? BranchUtils.limit limit_arg); [| reflexivity].
  unfold bind, request. fold (branches_request repo perPage page).
  destruct (api (calls_made tr) _) as [data | e]; [| reflexivity].
  destruct (Js.len data =? 0); [reflexivity |].
  destruct (Js.len data <? perPage); [reflexivity | apply IH].
Qed.

(** The extra [|| pullRequests.length >= limit] of the two filtering loops
    only anticipates the test at the head of the next round. *)
Lemma findPRsWithLabels_loop_collect api repo labels state_arg limit_arg excl fuel :
  forall perPage acc page tr,
    AdvancedPrUtils.findPRsWithLabels_loop api repo labels state_arg limit_arg excl
      fuel perPage acc page tr =
    collect api (findPRs_request repo state_arg perPage)
      (filter (AdvancedPrUtils.matching labels excl)) perPage
      (AdvancedPrUtils.limit limit_arg) fuel acc page tr.
Proof.
  induction fuel as [| fuel IH]; intros perPage acc page tr; simpl;
    [reflexivity |].
  destruct (Js.len acc <? AdvancedPrUtils.limit limit_arg); [| reflexivity].
  unfold bind, request. fold (findPRs_request repo state_arg perPage page).
  destruct (api (calls_made tr) _) as [data | e]; [| reflexivity].
  destruct (Js.len data =? 0); [reflexivity |].
  destruct (Js.len data <? perPage); simpl; [reflexivity |].
  destruct (AdvancedPrUtils.limit limit_arg <=? _) eqn:E; [| apply IH].
  rewrite collect_done; [reflexivity |].
  apply Z.leb_le in E. apply Z.ltb_ge. exact E.
Qed.

Lemma searchPullRequests_loop_collect api repo options fuel :
  forall perPage acc page tr,
    AdvancedPrUtils.searchPullRequests_loop api repo options fuel perPage acc page tr =
    collect api (search_request repo options perPage)
      (filter (AdvancedPrUtils.passes_filters options)) perPage
      (AdvancedPrUtils.s_limit options) fuel acc page tr.
Proof.
  induction fuel as [| fuel IH]; intros perPage acc page tr; simpl;
    [reflexivity |].
  destruct (Js.len acc <? AdvancedPrUtils.s_limit options); [| reflexivity].
  unfold bind, request. fold (search_request repo options perPage page).
  destruct (api (calls_made tr) _) as [data | e]; [| reflexivity].
  destruct (Js.len data =? 0); [reflexivity |].
  destruct (Js.len data <? perPage); simpl; [reflexivity |].
  destruct (AdvancedPrUtils.s_limit options <=? _) eqn:E; [| apply IH].
  rewrite collect_done; [reflexivity |].
  apply Z.leb_le in E. apply Z.ltb_ge. exact E.
Qed.

End LoopsAreCollectors.

(** ** What a run of each collector looks like *)

Section Runs.

Lemma listDeployments_run api repo ref environment limit_arg fuel :
  let limit := DeploymentUtils.limit limit_arg in
  let perPage := Z.min limit 100 in
  let ce := collect_events api
              (DeploymentUtils.listDeployments_request repo ref environment perPage)
              (fun data => data) perPage limit fuel 0 [] 1 in
  run (DeploymentUtils.listDeployments api repo ref environment limit_arg fuel) =
  (sliced limit (fst ce), snd ce).
Proof.
  intros limit perPage ce.
  unfold run, DeploymentUtils.listDeployments, bind.
  rewrite listDeployments_loop_collect, collect_unfold.
  change (calls_made []) with 0%nat. fold limit perPage ce.
  now destruct (fst ce).
Qed.

Lemma listAllBranches_run api repo limit_arg fuel :
  let limit := BranchUtils.limit limit_arg in
  let perPage := Z.min limit 100 in
  let ce := collect_events api (branches_request repo perPage)
              (map BranchUtils.name) perPage limit fuel 0 [] 1 in
  run (BranchUtils.listAllBranches api repo limit_arg fuel) =
  (sliced limit (fst ce), snd ce).
Proof.
  intros limit perPage ce.
  unfold run, BranchUtils.listAllBranches, bind.
  rewrite listAllBranches_loop_collect, collect_unfold.
  change (calls_made []) with 0%nat. fold limit perPage ce.
  now destruct (fst ce).
Qed.

Lemma findPRsWithLabels_run api repo labels state_arg limit_arg excl fuel :
  labels <> [] ->
  let limit := AdvancedPrUtils.limit limit_arg in
  let perPage := Z.min (limit * 2) 100 in
  let ce := collect_events api (findPRs_request repo state_arg perPage)
              (filter (AdvancedPrUtils.matching labels excl)) perPage limit
              fuel 0 [] 1 in
  run (AdvancedPrUtils.findPRsWithLabels api repo labels state_arg limit_arg excl fuel) =
  (sliced limit (fst ce),
   Info ("Searching for PRs with labels: " ++ Js.join ", " labels)%string
     :: snd ce ++ found_info (fst ce)).
Proof.
  intros Hne limit perPage ce.
  unfold run, AdvancedPrUtils.findPRsWithLabels.
  destruct (Js.len labels =? 0) eqn:E0.
  { apply Z.eqb_eq, len_zero_nil in E0. contradiction. }
  unfold bind at 1, info at 1. unfold bind at 1. cbv beta iota.
  rewrite findPRsWithLabels_loop_collect, collect_unfold.
  change (calls_made ([] ++ [Info _])) with 0%nat. fold limit perPage ce.
  cbv beta iota.
  destruct (fst ce) as [r | e |]; unfold found_info, sliced.
  - unfold bind, info, ret. cbv beta iota. now rewrite <- app_assoc.
  - now rewrite app_nil_r.
  - now rewrite app_nil_r.
Qed.

Lemma searchPullRequests_run api repo options fuel :
  let limit := AdvancedPrUtils.s_limit options in
  let perPage := Z.min (limit * 2) 100 in
  let ce := collect_events api (search_request repo options perPage)
              (filter (AdvancedPrUtils.passes_filters options)) perPage limit
              fuel 0 [] 1 in
  run (AdvancedPrUtils.searchPullRequests api repo options fuel) =
  (sliced limit (fst ce), snd ce).
Proof.
  intros limit perPage ce.
  unfold run, AdvancedPrUtils.searchPullRequests, bind.
  rewrite searchPullRequests_loop_collect, collect_unfold.
  change (calls_made []) with 0%nat. fold limit perPage ce.
  now destruct (fst ce).
Qed.

End Runs.

(** ** Requests of a run *)

Lemma requests_found_info {Rq Rs A} (out : outcome (list A)) :
  requests (@found_info Rq Rs A out) = [].
Proof. now destruct out. Qed.

Lemma requests_built_by {Rq Rs} (mkreq : Z -> Rq) (evs : trace Rq Rs) :
  Forall (fun ev => exists p rs, ev = Call (mkreq p) rs) evs ->
  forall rq, In rq (requests evs) -> exists p, rq = mkreq p.
Proof.
  induction 1 as [| ev evs (p & rs & ->) _ IH]; simpl; intros rq Hin;
    [contradiction |].
  destruct Hin as [<- | Hin]; eauto.
Qed.

(** Every request of the collector is built by [mkreq]. *)
Lemma collect_events_requests {Rq Raw Item} api (mkreq : Z -> Rq)
    (keep : list Raw -> list Item) perPage limit fuel n acc page rq :
  In rq (requests (snd (collect_events api mkreq keep perPage limit fuel n acc page))) ->
  exists p, rq = mkreq p.
Proof. apply requests_built_by, collect_events_calls. Qed.

(** ** C1: the page size of a run *)

(** C1, counterexample: asked for 10 pull requests, [findPRsWithLabels]
    requests pages of 20, not of [min(10, 100) = 10]. *)
Lemma C1_counterexample :
  0 < 10 /\
  ~ Forall (fun rq => pl_per_page rq = Z.min 10 100)
      (requests (snd (run (AdvancedPrUtils.findPRsWithLabels
                             Examples.no_pulls Examples.test_repo ["bug"%string]
                             None (Some 10) None 1)))).
Proof.
  split; [lia |]. intros H. inversion H as [| rq rqs Hrq _]. discriminate Hrq.
Qed.

(** C1, as amended: with a positive limit, every request of one invocation
    asks for the same page size, fixed before the loop: [min(limit, 100)]
    in [listDeployments] and [listAllBranches], [min(limit * 2, 100)] in
    [findPRsWithLabels] and [searchPullRequests] (which fetch more than
    needed because they filter).  It never depends on what is still
    missing. *)
Theorem C1_page_size_fixed (limit_arg : option Z) :
  let limit := Js.default limit_arg 100 in
  0 < limit ->
  (forall api repo ref environment fuel rq,
      In rq (requests (snd (run (DeploymentUtils.listDeployments
                                   api repo ref environment limit_arg fuel)))) ->
      DeploymentUtils.per_page rq = Z.min limit 100) /\
  (forall api repo fuel rq,
      In rq (requests (snd (run (BranchUtils.listAllBranches
                                   api repo limit_arg fuel)))) ->
      BranchUtils.per_page rq = Z.min limit 100) /\
  (forall api repo labels state_arg excludePRs fuel rq,
      In rq (requests (snd (run (AdvancedPrUtils.findPRsWithLabels
                                   api repo labels state_arg limit_arg
                                   excludePRs fuel)))) ->
      pl_per_page rq = Z.min (limit * 2) 100) /\
  (forall api repo options fuel rq,
      AdvancedPrUtils.o_limit options = limit_arg ->
      In rq (requests (snd (run (AdvancedPrUtils.searchPullRequests
                                   api repo options fuel)))) ->
      pl_per_page rq = Z.min (limit * 2) 100).
Proof.
  intros limit _. repeat split.
  - intros api repo ref environment fuel rq.
    rewrite listDeployments_run. cbv zeta. simpl snd. intros Hin.
    apply collect_events_requests in Hin as (p & ->). reflexivity.
  - intros api repo fuel rq.
    rewrite listAllBranches_run. cbv zeta. simpl snd. intros Hin.
    apply collect_events_requests in Hin as (p & ->). reflexivity.
  - intros api repo labels state_arg excludePRs fuel rq.
    destruct labels as [| l ls]; [simpl; contradiction |].
    rewrite findPRsWithLabels_run by discriminate. cbv zeta. simpl snd.
    simpl requests. rewrite requests_app, requests_found_info, app_nil_r.
    intros Hin. apply collect_events_requests in Hin as (p & ->). reflexivity.
  - intros api repo options fuel rq Hopt.
    rewrite searchPullRequests_run. cbv zeta. simpl snd. intros Hin.
    apply collect_events_requests in Hin as (p & ->).
    unfold search_request, AdvancedPrUtils.s_limit. simpl. now rewrite Hopt.
Qed.

Lemma C1_page_size_fixed_witness :
  0 < Js.default (Some 10) 100 /\
  Forall (fun rq => DeploymentUtils.per_page rq = 10)
         (requests (snd (run (DeploymentUtils.listDeployments
                                Examples.paged_deployments Examples.test_repo
                                None None (Some 10) 5)))).
Proof.
  assert (H : 0 < Js.default (Some 10) 100) by (simpl; lia).
  split; [exact H |].
  apply Forall_forall. intros rq Hin.
  exact (proj1 (C1_page_size_fixed (Some 10) H) _ _ _ _ _ rq Hin).
Defined.

(** ** C2: when the loop stops and when it goes on *)

Lemma filter_all_rejected {A} (pred : A -> bool) (l : list A) :
  (forall x, In x l -> pred x = false) -> filter pred l = [].
Proof.
  induction l as [| a l IH]; simpl; intros H; [reflexivity |].
  rewrite (H a) by now left. apply IH. intros x Hx. apply H. now right.
Qed.

(** A request of a trace framed by log lines sits in the framed part. *)
Lemma frame_split {Rq Rs} (before evs after : trace Rq Rs) pre rq rs post :
  requests before = [] -> requests after = [] ->
  before ++ evs ++ after = pre ++ Call rq rs :: post ->
  exists pre' post', evs = pre' ++ Call rq rs :: post' /\ post = post' ++ after.
Proof.
  intros Hb Ha. revert pre.
  induction before as [| [rq0 rs0 | m] before IH]; intros pre; simpl.
  - clear Hb. revert pre.
    induction evs as [| ev evs IH]; intros pre; simpl; intros H.
    + assert (Hr : requests after = requests (pre ++ Call rq rs :: post))
        by now rewrite H.
      rewrite Ha, requests_app in Hr. simpl in Hr.
      now destruct (requests pre).
    + destruct pre as [| ev' pre]; simpl in H; inversion H; subst.
      * exists [], evs. now split.
      * destruct (IH pre) as (pre' & post' & -> & ->); [assumption |].
        exists (ev' :: pre'), post'. now split.
  - discriminate Hb.
  - destruct pre as [| ev' pre]; simpl; intros H; inversion H; subst.
    eapply IH; eauto.
Qed.

Section FramedCollector.
Context {Rq Raw Item : Type}.
Variable api : endpoint Rq (list Raw).
Variable mkreq : Z -> Rq.
Variable pred : Raw -> bool.
Variable keep : list Raw -> list Item.
Variables perPage limit : Z.
Variables per_page_of page_of : Rq -> Z.
Hypothesis per_page_mkreq : forall p, per_page_of (mkreq p) = perPage.
Hypothesis page_mkreq : forall p, page_of (mkreq p) = p.
Variables before after : trace Rq (list Raw).
Hypothesis before_logs : requests before = [].
Hypothesis after_logs : requests after = [].

Lemma in_split_call (evs : trace Rq (list Raw)) pre rq rs post :
  Forall (fun ev => exists p rs, ev = Call (mkreq p) rs) evs ->
  evs = pre ++ Call rq rs :: post ->
  exists p, rq = mkreq p.
Proof.
  intros Hall ->. apply Forall_app in Hall as [_ Hall].
  inversion Hall as [| ev evs' (p & rs' & Heq) _]; subst.
  inversion Heq; eauto.
Qed.

Lemma framed_no_request_after_short_page fuel n acc page :
  no_request_after_short_page per_page_of
    (before ++ snd (collect_events api mkreq keep perPage limit fuel n acc page)
       ++ after).
Proof.
  intros pre rq data post Htr Hshort.
  apply frame_split in Htr as (pre' & post' & Hevs & ->); try assumption.
  destruct (in_split_call _ _ _ _ _ (collect_events_calls _ _ _ _ _ _ _ _ _) Hevs)
    as (p & ->).
  unfold short_page in Hshort. rewrite per_page_mkreq in Hshort.
  apply collect_events_short_stop in Hevs; [| assumption].
  now subst post'.
Qed.

Hypothesis keep_filters : forall data, (forall x, In x data -> pred x = false) -> keep data = [].

Lemma framed_advances_past_rejected_page fuel n acc page :
  fst (collect_events api mkreq keep perPage limit fuel n acc page) <> OutOfFuel ->
  advances_past_rejected_page per_page_of page_of pred
    (before ++ snd (collect_events api mkreq keep perPage limit fuel n acc page)
       ++ after).
Proof.
  intros Hout pre rq data post Htr Hpos Hfull Hrej.
  apply frame_split in Htr as (pre' & post' & Hevs & ->); try assumption.
  destruct (in_split_call _ _ _ _ _ (collect_events_calls _ _ _ _ _ _ _ _ _) Hevs)
    as (p0 & Hp0).
  rewrite Hp0, per_page_mkreq in Hfull.
  apply collect_events_advance in Hevs as (p & rs & rest & -> & ->);
    try assumption; [| now apply keep_filters].
  exists (mkreq (p + 1)), rs, (rest ++ after).
  rewrite !per_page_mkreq, !page_mkreq. now split.
Qed.
End FramedCollector.

Section BareCollector.
Context {Rq Raw Item : Type}.
Variable api : endpoint Rq (list Raw).
Variable mkreq : Z -> Rq.
Variable pred : Raw -> bool.
Variable keep : list Raw -> list Item.
Variables perPage limit : Z.
Variables per_page_of page_of : Rq -> Z.
Hypothesis per_page_mkreq : forall p, per_page_of (mkreq p) = perPage.
Hypothesis page_mkreq : forall p, page_of (mkreq p) = p.

Lemma bare_no_request_after_short_page fuel n acc page :
  no_request_after_short_page per_page_of
    (snd (collect_events api mkreq keep perPage limit fuel n acc page)).
Proof.
  pose proof (framed_no_request_after_short_page api mkreq keep perPage limit
                per_page_of per_page_mkreq [] [] eq_refl eq_refl
                fuel n acc page) as H.
  simpl in H. now rewrite app_nil_r in H.
Qed.

Hypothesis keep_filters : forall data, (forall x, In x data -> pred x = false) -> keep data = [].

Lemma bare_advances_past_rejected_page fuel n acc page :
  fst (collect_events api mkreq keep perPage limit fuel n acc page) <> OutOfFuel ->
  advances_past_rejected_page per_page_of page_of pred
    (snd (collect_events api mkreq keep perPage limit fuel n acc page)).
Proof.
  intros Hout.
  pose proof (framed_advances_past_rejected_page api mkreq pred keep perPage limit
                per_page_of page_of per_page_mkreq page_mkreq [] [] eq_refl eq_refl
                keep_filters fuel n acc page Hout) as H.
  simpl in H. now rewrite app_nil_r in H.
Qed.
End BareCollector.

Lemma sliced_out_of_fuel {A} limit (out : outcome (list A)) :
  sliced limit out <> OutOfFuel -> out <> OutOfFuel.
Proof. now destruct out. Qed.

(** C2: in a run of any of the four collectors no request follows a page
    that came back empty or shorter than the page size asked for.  The test
    reads the raw page: in the two filtering collectors a full page whose
    items the filter all rejects is followed by the request for the next
    page (the accumulator, unchanged, is still below the limit). *)
Theorem C2_short_page_stops_full_page_continues :
  (forall api repo labels state_arg limit_arg excludePRs fuel,
      let res := run (AdvancedPrUtils.findPRsWithLabels
                        api repo labels state_arg limit_arg excludePRs fuel) in
      no_request_after_short_page pl_per_page (snd res) /\
      (fst res <> OutOfFuel ->
       advances_past_rejected_page pl_per_page pl_page_number
         (AdvancedPrUtils.matching labels excludePRs) (snd res))) /\
  (forall api repo options fuel,
      let res := run (AdvancedPrUtils.searchPullRequests api repo options fuel) in
      no_request_after_short_page pl_per_page (snd res) /\
      (fst res <> OutOfFuel ->
       advances_past_rejected_page pl_per_page pl_page_number
         (AdvancedPrUtils.passes_filters options) (snd res))) /\
  (forall api repo ref environment limit_arg fuel,
      no_request_after_short_page DeploymentUtils.per_page
        (snd (run (DeploymentUtils.listDeployments
                     api repo ref environment limit_arg fuel)))) /\
  (forall api repo limit_arg fuel,
      no_request_after_short_page BranchUtils.per_page
        (snd (run (BranchUtils.listAllBranches api repo limit_arg fuel)))).
Proof.
  split; [| split; [| split]].
  - intros api repo labels state_arg limit_arg excludePRs fuel res.
    destruct labels as [| l ls].
    { split; [| intros _]; intros pre rq data post H; now destruct pre. }
    subst res. rewrite findPRsWithLabels_run by discriminate. cbv zeta.
    cbn [fst snd].
    match goal with
    | |- context [Info ?s :: ?evs ++ ?logs] =>
        change (Info s :: evs ++ logs) with ([Info s] ++ evs ++ logs)
    end.
    split.
    + apply framed_no_request_after_short_page;
        solve [intros; reflexivity | apply requests_found_info].
    + intros Hout. apply sliced_out_of_fuel in Hout.
      apply framed_advances_past_rejected_page;
        solve [intros; reflexivity | apply requests_found_info
               | apply filter_all_rejected | exact Hout].
  - intros api repo options fuel res.
    subst res. rewrite searchPullRequests_run. cbv zeta. cbn [fst snd]. split.
    + apply bare_no_request_after_short_page; intros; reflexivity.
    + intros Hout. apply sliced_out_of_fuel in Hout.
      apply bare_advances_past_rejected_page;
        solve [intros; reflexivity | apply filter_all_rejected | exact Hout].
  - intros api repo ref environment limit_arg fuel.
    rewrite listDeployments_run. cbv zeta. cbn [fst snd].
    apply bare_no_request_after_short_page; intros; reflexivity.
  - intros api repo limit_arg fuel.
    rewrite listAllBranches_run. cbv zeta. cbn [fst snd].
    apply bare_no_request_after_short_page; intros; reflexivity.
Qed.

Lemma C2_short_page_stops_full_page_continues_witness :
  let res := run (AdvancedPrUtils.findPRsWithLabels
                    Examples.two_features_then_nothing Examples.test_repo
                    ["bug"%string] None (Some 1) None 5) in
  fst res <> OutOfFuel /\
  map pl_page (requests (snd res)) = [Some 1; Some 2] /\
  no_request_after_short_page pl_per_page (snd res) /\
  advances_past_rejected_page pl_per_page pl_page_number
    (AdvancedPrUtils.matching ["bug"%string] None) (snd res).
Proof.
  intros res.
  assert (Hout : fst res <> OutOfFuel) by (vm_compute; discriminate).
  destruct (proj1 C2_short_page_stops_full_page_continues
              Examples.two_features_then_nothing Examples.test_repo
              ["bug"%string] None (Some 1) None 5%nat) as [Hstop Hnext].
  split; [exact Hout |].
  split; [reflexivity |].
  split; [exact Hstop | exact (Hnext Hout)].
Defined.

(** ** C3: the result is the accumulator cut down to the limit *)

Lemma resolved_found_info {Rq Rs A} (out : outcome (list A)) :
  resolved (@found_info Rq Rs A out) = [].
Proof. now destruct out. Qed.

Section CollectorReturns.
Context {Rq Raw Item : Type}.
Variable api : endpoint Rq (list Raw).
Variable mkreq : Z -> Rq.
Variable keep : list Raw -> list Item.
Variables perPage limit : Z.
Hypothesis keep_nil : keep [] = [].
Hypothesis limit_nonneg : 0 <= limit.
Hypothesis resolves : always_resolves api.

Lemma collector_returns_truncated fuel before after :
  resolved before = [] -> resolved after = [] ->
  fst (collect_events api mkreq keep perPage limit fuel 0 [] 1) <> OutOfFuel ->
  returns_truncated keep limit
    (sliced limit (fst (collect_events api mkreq keep perPage limit fuel 0 [] 1)),
     before ++ snd (collect_events api mkreq keep perPage limit fuel 0 [] 1)
       ++ after).
Proof.
  intros Hb Ha Hfuel.
  pose proof (collect_events_result api mkreq keep perPage limit keep_nil
                fuel 0 [] 1) as Hres.
  pose proof (collect_events_no_throw api mkreq keep perPage limit
                fuel 0 [] 1) as Hthrow.
  destruct (fst (collect_events api mkreq keep perPage limit fuel 0 [] 1))
    as [r | e |]; [| now contradiction (Hthrow e) | now contradiction Hfuel].
  specialize (Hres r eq_refl). simpl in Hres.
  exists (Js.slice 0 limit r). cbn [fst snd sliced].
  rewrite slice_firstn by assumption.
  unfold accumulated in *.
  rewrite !resolved_app, Hb, Ha, app_nil_r. simpl app. rewrite <- Hres.
  repeat split. now apply len_firstn_le.
Qed.

Lemma bare_collector_returns_truncated fuel :
  fst (collect_events api mkreq keep perPage limit fuel 0 [] 1) <> OutOfFuel ->
  returns_truncated keep limit
    (sliced limit (fst (collect_events api mkreq keep perPage limit fuel 0 [] 1)),
     snd (collect_events api mkreq keep perPage limit fuel 0 [] 1)).
Proof.
  intros Hfuel.
  pose proof (collector_returns_truncated fuel [] [] eq_refl eq_refl Hfuel) as H.
  simpl in H. now rewrite app_nil_r in H.
Qed.
End CollectorReturns.

Lemma sliced_in_fuel {A} limit (out : outcome (list A)) :
  out <> OutOfFuel -> sliced limit out <> OutOfFuel.
Proof. now destruct out. Qed.

(** C3: for a limit that is not negative and a provider that answers every
    request with a page, each collector returns the items accumulated from
    the pages it received, cut down to the first [limit] of them, so at
    most [limit] items.  [listDeployments] and [listAllBranches] push whole
    pages and return within [limit] rounds.  The two filtering collectors
    return that too whenever their loop ends, and it ends at the latest
    when the provider has sent a short or empty page. *)
Theorem C3_result_truncated_to_limit (limit_arg : option Z) :
  let limit := Js.default limit_arg 100 in
  0 <= limit ->
  (forall api repo ref environment fuel,
      always_resolves api -> (Z.to_nat limit <= fuel)%nat ->
      returns_truncated (fun data => data) limit
        (run (DeploymentUtils.listDeployments
                api repo ref environment limit_arg fuel))) /\
  (forall api repo fuel,
      always_resolves api -> (Z.to_nat limit <= fuel)%nat ->
      returns_truncated (map BranchUtils.name) limit
        (run (BranchUtils.listAllBranches api repo limit_arg fuel))) /\
  (forall api repo labels state_arg excludePRs fuel,
      let res := run (AdvancedPrUtils.findPRsWithLabels
                        api repo labels state_arg limit_arg excludePRs fuel) in
      labels <> [] ->
      always_resolves api ->
      (fst res <> OutOfFuel ->
       returns_truncated (filter (AdvancedPrUtils.matching labels excludePRs))
         limit res) /\
      (forall k, exhausted_at api (Z.min (limit * 2) 100) k -> (k < fuel)%nat ->
                 fst res <> OutOfFuel)) /\
  (forall api repo options fuel,
      let res := run (AdvancedPrUtils.searchPullRequests api repo options fuel) in
      AdvancedPrUtils.o_limit options = limit_arg ->
      always_resolves api ->
      (fst res <> OutOfFuel ->
       returns_truncated (filter (AdvancedPrUtils.passes_filters options))
         limit res) /\
      (forall k, exhausted_at api (Z.min (limit * 2) 100) k -> (k < fuel)%nat ->
                 fst res <> OutOfFuel)).
Proof.
  intros limit Hlimit. split; [| split; [| split]].
  - intros api repo ref environment fuel Hres Hfuel.
    rewrite listDeployments_run. cbv zeta.
    apply bare_collector_returns_truncated;
      try solve [reflexivity | assumption].
    apply collect_events_total; [reflexivity |]. simpl.
    now rewrite Z.sub_0_r.
  - intros api repo fuel Hres Hfuel.
    rewrite listAllBranches_run. cbv zeta.
    apply bare_collector_returns_truncated;
      try solve [reflexivity | assumption].
    apply collect_events_total.
    + intros d. unfold Js.len. now rewrite length_map.
    + simpl. now rewrite Z.sub_0_r.
  - intros api repo labels state_arg excludePRs fuel res Hne Hres.
    subst res. rewrite findPRsWithLabels_run by assumption. cbv zeta.
    cbn [fst]. split.
    + intros Hout. apply sliced_out_of_fuel in Hout.
      match goal with
      | |- context [Info ?s :: ?evs ++ ?logs] =>
          change (Info s :: evs ++ logs) with ([Info s] ++ evs ++ logs)
      end.
      apply collector_returns_truncated;
        solve [reflexivity | assumption | apply resolved_found_info].
    + intros k Hex Hfuel. apply sliced_in_fuel.
      now apply collect_events_exhausted with (k := k).
  - intros api repo options fuel res Hopt Hres.
    subst res. rewrite searchPullRequests_run. cbv zeta.
    unfold AdvancedPrUtils.s_limit. rewrite Hopt. fold limit.
    cbn [fst]. split.
    + intros Hout. apply sliced_out_of_fuel in Hout.
      apply bare_collector_returns_truncated;
        solve [reflexivity | assumption].
    + intros k Hex Hfuel. apply sliced_in_fuel.
      now apply collect_events_exhausted with (k := k).
Qed.

Lemma C3_result_truncated_to_limit_witness :
  0 <= Js.default (Some 3) 100 /\
  returns_truncated (fun data => data) 3
    (run (DeploymentUtils.listDeployments
            Examples.paged_deployments Examples.test_repo None None (Some 3) 3)) /\
  returns_truncated (filter (AdvancedPrUtils.matching ["bug"%string] None)) 3
    (run (AdvancedPrUtils.findPRsWithLabels
            Examples.five_bugs Examples.test_repo ["bug"%string] None (Some 3) None 1)).
Proof.
  assert (H : 0 <= Js.default (Some 3) 100) by (simpl; lia).
  destruct (C3_result_truncated_to_limit (Some 3) H) as (Hdep & _ & Hfind & _).
  split; [exact H |]. split.
  - apply Hdep; [| simpl; lia].
    intros n rq. eexists. reflexivity.
  - destruct (Hfind Examples.five_bugs Examples.test_repo ["bug"%string]
                None None 1%nat) as [Hret Hends].
    + discriminate.
    + intros n rq. eexists. reflexivity.
    + apply Hret, (Hends 0%nat); [| lia].
      intros rq. eexists. split; [reflexivity |]. right. vm_compute. reflexivity.
Defined.

(** ** C4: no labels, no request *)

(** C4: with an empty [labels] array both [findPRsWithLabels] and
    [findPullRequestsByLabels] throw the error "At least one label must be
    specified" and leave the trace empty: [pulls.list] is never called
    (and nothing is logged). *)
Theorem C4_empty_labels_fail_fast :
  (forall api repo state_arg limit_arg excludePRs fuel,
      run (AdvancedPrUtils.findPRsWithLabels
             api repo [] state_arg limit_arg excludePRs fuel) =
      (Throw (JsError "At least one label must be specified"), [])) /\
  (forall api repo state_arg limit_arg sort_arg direction_arg,
      run (PullRequests.findPullRequestsByLabels api repo
             {| PullRequests.o_labels := [];
                PullRequests.o_state := state_arg;
                PullRequests.o_limit := limit_arg;
                PullRequests.o_sort := sort_arg;
                PullRequests.o_direction := direction_arg |}) =
      (Throw (JsError "At least one label must be specified"), [])).
Proof. split; reflexivity. Qed.

(** ** C5: removing a label that is not there *)

Lemma is_404_spec (e : exn) : is_404 e = true <-> exn_status e = Some 404.
Proof.
  unfold is_404. destruct (exn_status e) as [s |]; [| now split].
  rewrite Z.eqb_eq. split; [now intros -> | now intros [= ->]].
Qed.

Lemma is_404_false (e : exn) : exn_status e <> Some 404 -> is_404 e = false.
Proof.
  intros H. destruct (is_404 e) eqn:E; [| reflexivity].
  now apply is_404_spec in E.
Qed.

Section RemoveEach.
Variable api : endpoint PullRequests.RemoveLabelParams unit.
Variable repo : RepoInfo.
Variable pullNumber : Z.

Local Abbreviation rq := (remove_request repo pullNumber).
Local Abbreviation remove_each := (PullRequests.remove_each api repo pullNumber).

(** One label whose removal resolves. *)
Lemma remove_each_resolved label rest tr u :
  api (calls_made tr) (rq label) = Resolved u ->
  remove_each (label :: rest) tr =
  remove_each rest (tr ++ [Call (rq label) (Resolved u)]).
Proof.
  intros Hapi. simpl. unfold bind at 1, try_catch, bind at 1, request.
  fold (rq label). now rewrite Hapi.
Qed.

(** One label whose removal is rejected with status 404. *)
Lemma remove_each_absent label rest tr e :
  api (calls_made tr) (rq label) = Rejected e ->
  is_404 e = true ->
  remove_each (label :: rest) tr =
  remove_each rest (tr ++ [Call (rq label) (Rejected e);
                           Info (not_present_message pullNumber label)]).
Proof.
  intros Hapi H404. simpl. unfold bind at 1, try_catch, bind at 1, request.
  fold (rq label). rewrite Hapi, H404. unfold info.
  now rewrite <- app_assoc.
Qed.

(** One label whose removal is rejected otherwise. *)
Lemma remove_each_rejected label rest tr e :
  api (calls_made tr) (rq label) = Rejected e ->
  is_404 e = false ->
  remove_each (label :: rest) tr =
  (Throw e, tr ++ [Call (rq label) (Rejected e)]).
Proof.
  intros Hapi H404. simpl. unfold bind at 1, try_catch, bind at 1, request.
  fold (rq label). now rewrite Hapi, H404.
Qed.

Lemma calls_made_snoc_call {Rq Rs} (tr : trace Rq Rs) c r logs :
  requests logs = [] ->
  calls_made (tr ++ Call c r :: logs) = S (calls_made tr).
Proof.
  intros Hlogs. rewrite calls_made_app, (calls_made_requests (_ :: _)). simpl.
  rewrite Hlogs. simpl. lia.
Qed.

Lemma remove_each_tolerated labels : forall n tr,
  calls_made tr = n ->
  (forall i label e,
      nth_error labels i = Some label ->
      api (n + i)%nat (rq label) = Rejected e ->
      is_404 e = true) ->
  exists evs,
    remove_each labels tr = (Return tt, tr ++ evs) /\
    requests evs = map rq labels /\
    infos evs = map (not_present_message pullNumber)
                    (rejected_labels api repo pullNumber n labels).
Proof.
  induction labels as [| label rest IH]; intros n tr Hn Hok.
  - exists []. simpl. unfold ret. now rewrite app_nil_r.
  - assert (Hrest : forall i l e,
               nth_error rest i = Some l ->
               api (S n + i)%nat (rq l) = Rejected e -> is_404 e = true).
    { intros i l e Hnth. replace (S n + i)%nat with (n + S i)%nat by lia.
      now apply Hok. }
    simpl rejected_labels.
    destruct (api n (rq label)) as [u | e] eqn:Hapi.
    + destruct (IH (S n) (tr ++ [Call (rq label) (Resolved u)]))
        as (evs & Hrun & Hrq & Hinfo);
        [rewrite calls_made_snoc_call; [now rewrite Hn | reflexivity]
        | exact Hrest |].
      exists (Call (rq label) (Resolved u) :: evs).
      rewrite <- Hn in Hapi.
      rewrite (remove_each_resolved _ _ _ _ Hapi), Hrun, <- app_assoc.
      repeat split; simpl; [now rewrite Hrq | exact Hinfo].
    + assert (H404 : is_404 e = true).
      { apply (Hok 0%nat label e); [reflexivity | now rewrite Nat.add_0_r]. }
      destruct (IH (S n) (tr ++ [Call (rq label) (Rejected e);
                                 Info (not_present_message pullNumber label)]))
        as (evs & Hrun & Hrq & Hinfo);
        [rewrite calls_made_snoc_call; [now rewrite Hn | reflexivity]
        | exact Hrest |].
      exists (Call (rq label) (Rejected e)
                :: Info (not_present_message pullNumber label) :: evs).
      rewrite <- Hn in Hapi.
      rewrite (remove_each_absent _ _ _ _ Hapi H404), Hrun, <- app_assoc.
      repeat split; simpl; [now rewrite Hrq | now rewrite Hinfo].
Qed.

Lemma remove_each_aborted labels : forall n tr k label e,
  calls_made tr = n ->
  nth_error labels k = Some label ->
  api (n + k)%nat (rq label) = Rejected e ->
  is_404 e = false ->
  (forall i l e',
      (i < k)%nat ->
      nth_error labels i = Some l ->
      api (n + i)%nat (rq l) = Rejected e' ->
      is_404 e' = true) ->
  exists evs,
    remove_each labels tr = (Throw e, tr ++ evs) /\
    requests evs = map rq (firstn (S k) labels).
Proof.
  induction labels as [| l0 rest IH]; intros n tr k label e Hn Hnth Hapi Hbad Hok.
  - now destruct k.
  - destruct k as [| k]; simpl in Hnth.
    + injection Hnth as ->. rewrite Nat.add_0_r, <- Hn in Hapi.
      exists [Call (rq label) (Rejected e)].
      rewrite (remove_each_rejected _ _ _ _ Hapi Hbad). now split.
    + assert (Hrest : forall i l e',
                 (i < k)%nat -> nth_error rest i = Some l ->
                 api (S n + i)%nat (rq l) = Rejected e' -> is_404 e' = true).
      { intros i l e' Hi Hl. replace (S n + i)%nat with (n + S i)%nat by lia.
        apply Hok; [lia | exact Hl]. }
      replace (n + S k)%nat with (S n + k)%nat in Hapi by lia.
      destruct (api n (rq l0)) as [u | e0] eqn:Hapi0.
      * destruct (IH (S n) (tr ++ [Call (rq l0) (Resolved u)]) k label e)
          as (evs & Hrun & Hrq); try assumption;
          [rewrite calls_made_snoc_call; [now rewrite Hn | reflexivity] |].
        exists (Call (rq l0) (Resolved u) :: evs).
        rewrite <- Hn in Hapi0.
        rewrite (remove_each_resolved _ _ _ _ Hapi0), Hrun, <- app_assoc.
        split; [reflexivity |]. simpl. now rewrite Hrq.
      * assert (H404 : is_404 e0 = true).
        { apply (Hok 0%nat l0 e0);
            [lia | reflexivity | now rewrite Nat.add_0_r]. }
        destruct (IH (S n) (tr ++ [Call (rq l0) (Rejected e0);
                                   Info (not_present_message pullNumber l0)])
                    k label e)
          as (evs & Hrun & Hrq); try assumption;
          [rewrite calls_made_snoc_call; [now rewrite Hn | reflexivity] |].
        exists (Call (rq l0) (Rejected e0)
                  :: Info (not_present_message pullNumber l0) :: evs).
        rewrite <- Hn in Hapi0.
        rewrite (remove_each_absent _ _ _ _ Hapi0 H404), Hrun, <- app_assoc.
        split; [reflexivity |]. simpl. now rewrite Hrq.
Qed.
End RemoveEach.

Lemma removeLabels_run api repo pullNumber labels :
  labels <> [] ->
  run (PullRequests.removeLabelsFromPullRequest api repo pullNumber labels) =
  PullRequests.remove_each api repo pullNumber labels
    [Info ("Removing labels from PR #" ++ Js.number_to_string pullNumber
             ++ ": " ++ Js.join ", " labels)%string].
Proof.
  intros Hne. destruct labels as [| l ls]; [contradiction | reflexivity].
Qed.

(** C5: in a batch handed to [removeLabelsFromPullRequest] one removal is
    requested per label, in order.  When every rejection met has status
    404, each of them is caught and logged through [core.info] as "Label
    ... was not present on PR #...", the labels after it are still sent,
    and the call returns normally.  The first rejection with any other
    status is thrown on as it is, and no later label is sent. *)
Theorem C5_absent_label_tolerated api repo pullNumber labels :
  let res := run (PullRequests.removeLabelsFromPullRequest
                    api repo pullNumber labels) in
  ((forall i label e,
       nth_error labels i = Some label ->
       api i (remove_request repo pullNumber label) = Rejected e ->
       exn_status e = Some 404) ->
   fst res = Return tt /\
   requests (snd res) = map (remove_request repo pullNumber) labels /\
   exists opening,
     infos (snd res) =
     opening :: map (not_present_message pullNumber)
                    (rejected_labels api repo pullNumber 0 labels)) /\
  (forall k label e,
      nth_error labels k = Some label ->
      api k (remove_request repo pullNumber label) = Rejected e ->
      exn_status e <> Some 404 ->
      (forall i l e',
          (i < k)%nat ->
          nth_error labels i = Some l ->
          api i (remove_request repo pullNumber l) = Rejected e' ->
          exn_status e' = Some 404) ->
      fst res = Throw e /\
      requests (snd res) =
      map (remove_request repo pullNumber) (firstn (S k) labels)).
Proof.
  intros res. subst res.
  destruct labels as [| l ls].
  - split.
    + intros _. simpl. repeat split. now eexists.
    + intros k label e Hnth. now destruct k.
  - rewrite removeLabels_run by discriminate.
    set (tr0 := [Info _]).
    assert (Hn : calls_made tr0 = 0%nat) by reflexivity.
    split.
    + intros Hok.
      destruct (remove_each_tolerated api repo pullNumber (l :: ls) 0 tr0 Hn)
        as (evs & Hrun & Hrq & Hinfo).
      { intros i label e Hnth Hapi. apply is_404_spec. eapply Hok; eauto. }
      rewrite Hrun. cbn [fst snd]. subst tr0.
      rewrite requests_app, infos_app, Hrq, Hinfo.
      repeat split. now eexists.
    + intros k label e Hnth Hapi Hbad Hok.
      destruct (remove_each_aborted api repo pullNumber (l :: ls) 0 tr0 k label e Hn)
        as (evs & Hrun & Hrq); try assumption.
      { now apply is_404_false. }
      { intros i l' e' Hi Hl Hrej. apply is_404_spec. eapply Hok; eauto. }
      rewrite Hrun. cbn [fst snd]. subst tr0.
      rewrite requests_app, Hrq. now split.
Qed.

Lemma C5_absent_label_tolerated_witness :
  let batch := ["existing"; "nonexistent"]%string in
  let res := run (PullRequests.removeLabelsFromPullRequest
                    Examples.second_label_absent Examples.test_repo 123 batch) in
  let failed := run (PullRequests.removeLabelsFromPullRequest
                       Examples.second_label_fails Examples.test_repo 123
                       (batch ++ ["never sent"%string])) in
  (fst res = Return tt /\
   requests (snd res) = map (remove_request Examples.test_repo 123) batch /\
   infos (snd res) =
     ["Removing labels from PR #123: existing, nonexistent";
      "Label 'nonexistent' was not present on PR #123"]%string) /\
  (fst failed =
     Throw (Rejection {| status := Some 500; message := "Server Error" |}) /\
   requests (snd failed) = map (remove_request Examples.test_repo 123) batch).
Proof.
  intros batch res failed. split.
  - destruct (proj1 (C5_absent_label_tolerated
                       Examples.second_label_absent Examples.test_repo 123 batch))
      as (Hret & Hrq & _).
    { intros i label e Hnth Hapi.
      destruct i as [| [| i]]; simpl in Hapi; try discriminate Hapi.
      now injection Hapi as <-. }
    split; [exact Hret |]. split; [exact Hrq | reflexivity].
  - apply (proj2 (C5_absent_label_tolerated
                    Examples.second_label_fails Examples.test_repo 123
                    (batch ++ ["never sent"%string]))
             1%nat "nonexistent"%string).
    + reflexivity.
    + reflexivity.
    + simpl. discriminate.
    + intros i l e' Hi Hl Hrej.
      destruct i as [| i]; [discriminate Hrej | lia].
Defined.

(** ** C6: three pages of 100, 100 and 37 items, limit 250 *)

Section ThreePages.
Context {Rq Raw Item : Type}.
Variable api : endpoint Rq (list Raw).
Variable mkreq : Z -> Rq.
Variable keep : list Raw -> list Item.
Variables p1 p2 p3 : list Raw.
Hypothesis len1 : List.length p1 = 100%nat.
Hypothesis len2 : List.length p2 = 100%nat.
Hypothesis len3 : List.length p3 = 37%nat.
Hypothesis kept1 : List.length (keep p1) = 100%nat.
Hypothesis kept2 : List.length (keep p2) = 100%nat.
Hypothesis kept3 : List.length (keep p3) = 37%nat.
Hypothesis page1 : api 0%nat (mkreq 1) = Resolved p1.
Hypothesis page2 : api 1%nat (mkreq 2) = Resolved p2.
Hypothesis page3 : api 2%nat (mkreq 3) = Resolved p3.

Lemma collect_events_three_pages fuel :
  (3 <= fuel)%nat ->
  collect_events api mkreq keep 100 250 fuel 0 [] 1 =
  (Return (keep p1 ++ keep p2 ++ keep p3),
   [Call (mkreq 1) (Resolved p1);
    Call (mkreq 2) (Resolved p2);
    Call (mkreq 3) (Resolved p3)]).
Proof.
  intros Hfuel.
  destruct fuel as [| [| [| fuel]]]; try lia.
  assert (L1 : Js.len p1 = 100) by (unfold Js.len; now rewrite len1).
  assert (L2 : Js.len p2 = 100) by (unfold Js.len; now rewrite len2).
  assert (L3 : Js.len p3 = 37) by (unfold Js.len; now rewrite len3).
  assert (K1 : Js.len (keep p1) = 100) by (unfold Js.len; now rewrite kept1).
  assert (K2 : Js.len (keep p2) = 100) by (unfold Js.len; now rewrite kept2).
  rewrite (collect_events_full _ _ _ _ _ _ _ _ _ p1)
    by first [exact page1 | rewrite ?L1; unfold Js.len; simpl; lia].
  rewrite (collect_events_full _ _ _ _ _ _ _ _ _ p2)
    by first [exact page2 | rewrite ?len_app, ?K1, ?L2; unfold Js.len; simpl; lia].
  rewrite (collect_events_short _ _ _ _ _ _ _ _ _ p3)
    by first [exact page3
             | rewrite ?len_app, ?K1, ?K2, ?L3; unfold Js.len; simpl; lia].
  cbn [fst snd]. now rewrite <- app_assoc.
Qed.

Lemma three_pages_not_truncated :
  sliced 250 (Return (keep p1 ++ keep p2 ++ keep p3)) =
  Return (keep p1 ++ keep p2 ++ keep p3).
Proof.
  clear len1 len2 len3 page1 page2 page3.
  unfold sliced. rewrite slice_firstn by lia. f_equal.
  apply firstn_all2. rewrite !length_app, kept1, kept2, kept3. lia.
Qed.
End ThreePages.

Lemma filter_all_accepted {A} (pred : A -> bool) (l : list A) :
  (forall x, In x l -> pred x = true) -> filter pred l = l.
Proof. intros H. now apply forallb_filter_id, forallb_forall. Qed.

(** C6: when the first three requests are answered with pages of 100, 100
    and 37 items and the limit is 250, [listDeployments] and
    [listAllBranches] issue exactly three requests (pages 1, 2 and 3, each
    asking for 100 items) and return all 237 items in the order received,
    nothing cut off; so does [findPRsWithLabels] when its filter accepts
    every item of the three pages. *)
Theorem C6_three_pages_of_100_100_37 :
  (forall api repo ref environment p1 p2 p3 fuel,
      let rq := DeploymentUtils.listDeployments_request repo ref environment 100 in
      List.length p1 = 100%nat ->
      List.length p2 = 100%nat ->
      List.length p3 = 37%nat ->
      api 0%nat (rq 1) = Resolved p1 ->
      api 1%nat (rq 2) = Resolved p2 ->
      api 2%nat (rq 3) = Resolved p3 ->
      (3 <= fuel)%nat ->
      run (DeploymentUtils.listDeployments
             api repo ref environment (Some 250) fuel) =
      (Return (p1 ++ p2 ++ p3),
       [Call (rq 1) (Resolved p1);
        Call (rq 2) (Resolved p2);
        Call (rq 3) (Resolved p3)]) /\
      List.length (p1 ++ p2 ++ p3) = 237%nat) /\
  (forall api repo p1 p2 p3 fuel,
      let rq := branches_request repo 100 in
      List.length p1 = 100%nat ->
      List.length p2 = 100%nat ->
      List.length p3 = 37%nat ->
      api 0%nat (rq 1) = Resolved p1 ->
      api 1%nat (rq 2) = Resolved p2 ->
      api 2%nat (rq 3) = Resolved p3 ->
      (3 <= fuel)%nat ->
      run (BranchUtils.listAllBranches api repo (Some 250) fuel) =
      (Return (map BranchUtils.name (p1 ++ p2 ++ p3)),
       [Call (rq 1) (Resolved p1);
        Call (rq 2) (Resolved p2);
        Call (rq 3) (Resolved p3)]) /\
      List.length (map BranchUtils.name (p1 ++ p2 ++ p3)) = 237%nat) /\
  (forall api repo labels state_arg excludePRs p1 p2 p3 fuel,
      let rq := findPRs_request repo state_arg 100 in
      let res := run (AdvancedPrUtils.findPRsWithLabels
                        api repo labels state_arg (Some 250) excludePRs fuel) in
      labels <> [] ->
      List.length p1 = 100%nat ->
      List.length p2 = 100%nat ->
      List.length p3 = 37%nat ->
      (forall pr, In pr (p1 ++ p2 ++ p3) ->
                  AdvancedPrUtils.matching labels excludePRs pr = true) ->
      api 0%nat (rq 1) = Resolved p1 ->
      api 1%nat (rq 2) = Resolved p2 ->
      api 2%nat (rq 3) = Resolved p3 ->
      (3 <= fuel)%nat ->
      fst res = Return (p1 ++ p2 ++ p3) /\
      requests (snd res) = [rq 1; rq 2; rq 3] /\
      resolved (snd res) = [p1; p2; p3]).
Proof.
  split; [| split].
  - intros api repo ref environment p1 p2 p3 fuel rq H1 H2 H3 Hp1 Hp2 Hp3 Hfuel.
    split; [| rewrite !length_app, H1, H2, H3; reflexivity].
    rewrite listDeployments_run. cbv zeta.
    change (Z.min (DeploymentUtils.limit (Some 250)) 100) with 100.
    change (DeploymentUtils.limit (Some 250)) with 250. fold rq.
    rewrite (collect_events_three_pages api rq (fun d => d) p1 p2 p3);
      try assumption.
    cbn [fst snd].
    rewrite (three_pages_not_truncated (fun d => d) p1 p2 p3) by assumption.
    reflexivity.
  - intros api repo p1 p2 p3 fuel rq H1 H2 H3 Hp1 Hp2 Hp3 Hfuel.
    split; [| rewrite length_map, !length_app, H1, H2, H3; reflexivity].
    assert (K1 : List.length (map BranchUtils.name p1) = 100%nat)
      by now rewrite length_map.
    assert (K2 : List.length (map BranchUtils.name p2) = 100%nat)
      by now rewrite length_map.
    assert (K3 : List.length (map BranchUtils.name p3) = 37%nat)
      by now rewrite length_map.
    rewrite listAllBranches_run. cbv zeta.
    change (Z.min (BranchUtils.limit (Some 250)) 100) with 100.
    change (BranchUtils.limit (Some 250)) with 250. fold rq.
    rewrite (collect_events_three_pages api rq (map BranchUtils.name) p1 p2 p3)
      by assumption.
    cbn [fst snd].
    rewrite (three_pages_not_truncated (map BranchUtils.name) p1 p2 p3)
      by assumption.
    now rewrite !map_app.
  - intros api repo labels state_arg excludePRs p1 p2 p3 fuel rq res
           Hne H1 H2 H3 Hall Hp1 Hp2 Hp3 Hfuel.
    assert (F1 : filter (AdvancedPrUtils.matching labels excludePRs) p1 = p1).
    { apply filter_all_accepted. intros pr Hin. apply Hall, in_or_app. now left. }
    assert (F2 : filter (AdvancedPrUtils.matching labels excludePRs) p2 = p2).
    { apply filter_all_accepted. intros pr Hin.
      apply Hall, in_or_app. right. apply in_or_app. now left. }
    assert (F3 : filter (AdvancedPrUtils.matching labels excludePRs) p3 = p3).
    { apply filter_all_accepted. intros pr Hin.
      apply Hall, in_or_app. right. apply in_or_app. now right. }
    assert (K1 : List.length
                   (filter (AdvancedPrUtils.matching labels excludePRs) p1) = 100%nat)
      by now rewrite F1.
    assert (K2 : List.length
                   (filter (AdvancedPrUtils.matching labels excludePRs) p2) = 100%nat)
      by now rewrite F2.
    assert (K3 : List.length
                   (filter (AdvancedPrUtils.matching labels excludePRs) p3) = 37%nat)
      by now rewrite F3.
    subst res. rewrite findPRsWithLabels_run by assumption. cbv zeta.
    change (Z.min (AdvancedPrUtils.limit (Some 250) * 2) 100) with 100.
    change (AdvancedPrUtils.limit (Some 250)) with 250. fold rq.
    rewrite (collect_events_three_pages api rq
               (filter (AdvancedPrUtils.matching labels excludePRs)) p1 p2 p3)
      by assumption.
    cbn [fst snd].
    rewrite (three_pages_not_truncated
               (filter (AdvancedPrUtils.matching labels excludePRs)) p1 p2 p3)
      by assumption.
    rewrite F1, F2, F3. cbn [found_info].
    simpl requests. simpl resolved. repeat split.
Qed.

Lemma C6_three_pages_of_100_100_37_witness :
  let rq := DeploymentUtils.listDeployments_request Examples.test_repo None None 100 in
  let p1 := Examples.deployments 0 100 in
  let p2 := Examples.deployments 100 100 in
  let p3 := Examples.deployments 200 37 in
  run (DeploymentUtils.listDeployments
         Examples.paged_deployments Examples.test_repo None None (Some 250) 5) =
  (Return (p1 ++ p2 ++ p3),
   [Call (rq 1) (Resolved p1);
    Call (rq 2) (Resolved p2);
    Call (rq 3) (Resolved p3)]) /\
  List.length (p1 ++ p2 ++ p3) = 237%nat.
Proof.
  intros rq p1 p2 p3.
  apply (proj1 C6_three_pages_of_100_100_37
           Examples.paged_deployments Examples.test_repo None None p1 p2 p3 5%nat);
    try (vm_compute; reflexivity).
  lia.
Defined.

(** ** C7: the label predicate *)

Lemma includes_num_spec (l : list Z) (x : Z) :
  Js.includes_num l x = true <-> In x l.
Proof.
  unfold Js.includes_num. rewrite existsb_exists. split.
  - intros (y & Hy & Heq). apply Z.eqb_eq in Heq. now subst.
  - intros H. exists x. split; [assumption | apply Z.eqb_refl].
Qed.

Lemma includes_str_spec (l : list (option string)) (x : string) :
  Js.includes_str l x = true <-> In (Some x) l.
Proof.
  unfold Js.includes_str. rewrite existsb_exists. split.
  - intros ([s |] & Hy & Heq); [| discriminate].
    apply String.eqb_eq in Heq. now subst.
  - intros H. exists (Some x). split; [assumption | apply String.eqb_refl].
Qed.

Lemma has_every_label_spec (required : list string) (prLabels : list (option string)) :
  has_every_label required prLabels = true <->
  forall l, In l required -> In (Some l) prLabels.
Proof.
  unfold has_every_label. rewrite forallb_forall.
  split; intros H l Hl; apply includes_str_spec, H, Hl.
Qed.

Lemma matching_spec labels excludePRs pr :
  AdvancedPrUtils.matching labels excludePRs pr = true <->
  ~ In (number pr) (Js.default excludePRs []) /\
  forall l, In l labels -> In (Some l) (label_names pr).
Proof.
  unfold AdvancedPrUtils.matching, AdvancedPrUtils.excludePRs.
  destruct (Js.includes_num _ _) eqn:E.
  - apply includes_num_spec in E. split; [discriminate | now intros [H _]].
  - rewrite has_every_label_spec. split.
    + intros H. split; [| assumption].
      intros Hin. apply includes_num_spec in Hin. congruence.
    + now intros [_ H].
Qed.

(** A provider whose first page is already short is asked once. *)
Lemma collect_events_single_page {Rq Raw Item} api (mkreq : Z -> Rq)
    (keep : list Raw -> list Item) perPage limit fuel page :
  keep [] = [] ->
  0 < limit ->
  api 0%nat (mkreq 1) = Resolved page ->
  Js.len page < perPage ->
  collect_events api mkreq keep perPage limit (S fuel) 0 [] 1 =
  (Return (keep page), [Call (mkreq 1) (Resolved page)]).
Proof.
  intros Hnil Hlimit Hapi Hshort. simpl.
  replace (Js.len [] <? limit) with true
    by (symmetry; apply Z.ltb_lt; unfold Js.len; simpl; lia).
  rewrite Hapi.
  destruct (Js.len page =? 0) eqn:E0.
  - apply Z.eqb_eq, len_zero_nil in E0. subst page. now rewrite Hnil.
  - apply Z.ltb_lt in Hshort. now rewrite Hshort.
Qed.

(** C7: the filter of [findPRsWithLabels] accepts a pull request exactly
    when its number is not excluded and every required label is among its
    labels.  When the provider has a single short page, the result is the
    accepted pull requests of that page in page order (cut to the limit);
    for a page of pull requests labelled {A, B}, {A} and {A, B, C} and
    required labels A and B these are the first and the third. *)
Theorem C7_label_predicate :
  (forall labels excludePRs pr,
      AdvancedPrUtils.matching labels excludePRs pr = true <->
      ~ In (number pr) (Js.default excludePRs []) /\
      forall l, In l labels -> In (Some l) (label_names pr)) /\
  (forall api repo labels state_arg limit_arg excludePRs fuel page,
      let limit := Js.default limit_arg 100 in
      let perPage := Z.min (limit * 2) 100 in
      labels <> [] ->
      0 < limit ->
      api 0%nat (findPRs_request repo state_arg perPage 1) = Resolved page ->
      Js.len page < perPage ->
      (1 <= fuel)%nat ->
      let res := run (AdvancedPrUtils.findPRsWithLabels
                        api repo labels state_arg limit_arg excludePRs fuel) in
      fst res = Return (firstn (Z.to_nat limit)
                          (filter (AdvancedPrUtils.matching labels excludePRs) page)) /\
      requests (snd res) = [findPRs_request repo state_arg perPage 1]) /\
  (forall api repo fuel,
      api 0%nat (findPRs_request repo None 100 1) =
        Resolved [Examples.pr_ab; Examples.pr_a; Examples.pr_abc] ->
      (1 <= fuel)%nat ->
      fst (run (AdvancedPrUtils.findPRsWithLabels
                  api repo ["A"; "B"]%string None None None fuel)) =
      Return [Examples.pr_ab; Examples.pr_abc]).
Proof.
  assert (Hsingle :
    forall api repo labels state_arg limit_arg excludePRs fuel page,
      let limit := Js.default limit_arg 100 in
      let perPage := Z.min (limit * 2) 100 in
      labels <> [] ->
      0 < limit ->
      api 0%nat (findPRs_request repo state_arg perPage 1) = Resolved page ->
      Js.len page < perPage ->
      (1 <= fuel)%nat ->
      let res := run (AdvancedPrUtils.findPRsWithLabels
                        api repo labels state_arg limit_arg excludePRs fuel) in
      fst res = Return (firstn (Z.to_nat limit)
                          (filter (AdvancedPrUtils.matching labels excludePRs) page)) /\
      requests (snd res) = [findPRs_request repo state_arg perPage 1]).
  { intros api repo labels state_arg limit_arg excludePRs fuel page limit perPage
           Hne Hlimit Hapi Hshort Hfuel res.
    subst res. rewrite findPRsWithLabels_run by assumption. cbv zeta.
    destruct fuel as [| fuel]; [lia |].
    change (AdvancedPrUtils.limit limit_arg) with limit. fold perPage.
    rewrite collect_events_single_page with (page := page);
      try assumption; [| reflexivity].
    cbn [fst snd sliced found_info]. split.
    - now rewrite slice_firstn by lia.
    - reflexivity. }
  split; [exact matching_spec |]. split; [exact Hsingle |].
  intros api repo fuel Hapi Hfuel.
  destruct (Hsingle api repo ["A"; "B"]%string None None None fuel
              [Examples.pr_ab; Examples.pr_a; Examples.pr_abc]) as [Hres _];
    [discriminate | reflexivity | exact Hapi | reflexivity | exact Hfuel
    | exact Hres].
Qed.

Lemma C7_label_predicate_witness :
  let res := run (AdvancedPrUtils.findPRsWithLabels
                    Examples.one_page_of_three Examples.test_repo
                    ["A"; "B"]%string None None None 1) in
  fst res = Return [Examples.pr_ab; Examples.pr_abc] /\
  map number [Examples.pr_ab; Examples.pr_abc] = [1; 3].
Proof.
  intros res. split; [| reflexivity].
  apply (proj2 (proj2 C7_label_predicate)
           Examples.one_page_of_three Examples.test_repo 1%nat);
    [reflexivity | lia].
Defined.

(** ** C8: searchComments reads one page *)

Lemma filter_twice {A} (p q : A -> bool) (l : list A) :
  filter q (filter p l) = filter (fun x => p x && q x) l.
Proof.
  induction l as [| a l IH]; simpl; [reflexivity |].
  destruct (p a); simpl; [destruct (q a) |]; now rewrite IH.
Qed.

Lemma filter_true {A} (l : list A) : filter (fun _ => true) l = l.
Proof. induction l as [| a l IH]; simpl; [reflexivity | now rewrite IH]. Qed.

Section SearchCommentsFilters.
Variable toLowerCase : string -> string.
Variable new_Date : string -> Comments.Date.
Variable options : Comments.CommentSearchOptions.

(** Each of the four steps is a filter, possibly the trivial one. *)
Lemma filter_by_body_filter cs :
  Comments.filter_by_body toLowerCase options cs =
  filter (fun c => match Comments.bodyContains options with
                   | Some needle =>
                       negb (Js.truthy needle)
                       || Comments.body_matches toLowerCase needle c
                   | None => true
                   end) cs.
Proof.
  unfold Comments.filter_by_body.
  destruct (Comments.bodyContains options) as [needle |];
    [| now rewrite filter_true].
  destruct (Js.truthy needle); simpl; [reflexivity | now rewrite filter_true].
Qed.

Lemma filter_by_author_filter cs :
  Comments.filter_by_author options cs =
  filter (fun c => match Comments.author options with
                   | Some who => negb (Js.truthy who) || Comments.by_author who c
                   | None => true
                   end) cs.
Proof.
  unfold Comments.filter_by_author.
  destruct (Comments.author options) as [who |]; [| now rewrite filter_true].
  destruct (Js.truthy who); simpl; [reflexivity | now rewrite filter_true].
Qed.

Lemma filter_created_after_filter cs :
  Comments.filter_created_after new_Date options cs =
  filter (fun c => match Comments.createdAfter options with
                   | Some d => Comments.date_gt (new_Date (Comments.created_at c)) d
                   | None => true
                   end) cs.
Proof.
  unfold Comments.filter_created_after.
  destruct (Comments.createdAfter options); [reflexivity | now rewrite filter_true].
Qed.

Lemma filter_created_before_filter cs :
  Comments.filter_created_before new_Date options cs =
  filter (fun c => match Comments.createdBefore options with
                   | Some d => Comments.date_lt (new_Date (Comments.created_at c)) d
                   | None => true
                   end) cs.
Proof.
  unfold Comments.filter_created_before.
  destruct (Comments.createdBefore options); [reflexivity | now rewrite filter_true].
Qed.

(** The four steps in their order keep what meets all criteria. *)
Lemma filters_in_order cs :
  Comments.filter_created_before new_Date options
    (Comments.filter_created_after new_Date options
       (Comments.filter_by_author options
          (Comments.filter_by_body toLowerCase options cs))) =
  filter (meets_criteria toLowerCase new_Date options) cs.
Proof.
  rewrite filter_created_before_filter, filter_created_after_filter,
    filter_by_author_filter, filter_by_body_filter, !filter_twice.
  apply filter_ext. intros c. unfold meets_criteria.
  now rewrite !andb_assoc.
Qed.
End SearchCommentsFilters.

(** [String.prototype.startsWith] and [includes], read as equations between
    strings. *)
Lemma prefix_spec (m s : string) :
  String.prefix m s = true <-> exists post, s = (m ++ post)%string.
Proof.
  revert s. induction m as [| a m IH]; intros s.
  - split; [intros _; now exists s | intros _; now destruct s].
  - destruct s as [| b s]; simpl.
    + split; [discriminate | intros [post H]; discriminate H].
    + destruct (ascii_dec a b) as [<- | Hne].
      * rewrite IH. split; intros [post H]; exists post; [now rewrite H |].
        now injection H.
      * split; [discriminate | intros [post H]]. injection H as H _.
        now contradiction Hne.
Qed.

Lemma str_includes_spec (s m : string) :
  Js.str_includes s m = true <->
  exists pre post, s = (pre ++ m ++ post)%string.
Proof.
  induction s as [| a s IH].
  - cbn [Js.str_includes]. rewrite orb_false_r, prefix_spec. split.
    + intros [post H]. now exists EmptyString, post.
    + intros ([| b pre] & post & H); [now exists post | discriminate H].
  - cbn [Js.str_includes]. rewrite orb_true_iff, prefix_spec, IH. split.
    + intros [[post H] | (pre & post & H)].
      * now exists EmptyString, post.
      * exists (String a pre), post. simpl. now rewrite H.
    + intros ([| b pre] & post & H).
      * left. now exists post.
      * right. simpl in H. injection H as _ H. now exists pre, post.
Qed.

(** [a > b] and [a < b] between dates hold only between two valid dates. *)
Lemma date_gt_spec (a b : Comments.Date) :
  Comments.date_gt a b = true <-> exists t t0, a = Some t /\ b = Some t0 /\ t0 < t.
Proof.
  destruct a as [x |], b as [y |]; simpl.
  - rewrite Z.ltb_lt. split.
    + intros H. now exists x, y.
    + intros (t & t0 & [= <-] & [= <-] & H). exact H.
  - split; [discriminate | intros (t & t0 & _ & H & _); discriminate H].
  - split; [discriminate | intros (t & t0 & H & _); discriminate H].
  - split; [discriminate | intros (t & t0 & H & _); discriminate H].
Qed.

Lemma date_lt_spec (a b : Comments.Date) :
  Comments.date_lt a b = true <-> exists t t0, a = Some t /\ b = Some t0 /\ t < t0.
Proof.
  destruct a as [x |], b as [y |]; simpl.
  - rewrite Z.ltb_lt. split.
    + intros H. now exists x, y.
    + intros (t & t0 & [= <-] & [= <-] & H). exact H.
  - split; [discriminate | intros (t & t0 & _ & H & _); discriminate H].
  - split; [discriminate | intros (t & t0 & H & _); discriminate H].
  - split; [discriminate | intros (t & t0 & H & _); discriminate H].
Qed.

Lemma truthy_spec (s : string) : Js.truthy s = true <-> s <> EmptyString.
Proof. destruct s; simpl; split; congruence. Qed.

(** What each criterion of [searchComments] asks of a comment. *)
Lemma meets_criteria_spec toLowerCase new_Date options c :
  meets_criteria toLowerCase new_Date options c = true <->
  (forall needle,
      Comments.bodyContains options = Some needle -> needle <> EmptyString ->
      exists b pre post,
        Comments.body c = Some b /\
        toLowerCase b = (pre ++ toLowerCase needle ++ post)%string) /\
  (forall who,
      Comments.author options = Some who -> who <> EmptyString ->
      exists u, Comments.c_user c = Some u /\ login u = who) /\
  (forall d,
      Comments.createdAfter options = Some d ->
      exists t t0,
        new_Date (Comments.created_at c) = Some t /\ d = Some t0 /\ t0 < t) /\
  (forall d,
      Comments.createdBefore options = Some d ->
      exists t t0,
        new_Date (Comments.created_at c) = Some t /\ d = Some t0 /\ t < t0).
Proof.
  unfold meets_criteria. rewrite !andb_true_iff.
  assert (Hbody :
    (match Comments.bodyContains options with
     | Some needle =>
         negb (Js.truthy needle) || Comments.body_matches toLowerCase needle c
     | None => true
     end) = true <->
    (forall needle,
        Comments.bodyContains options = Some needle -> needle <> EmptyString ->
        exists b pre post,
          Comments.body c = Some b /\
          toLowerCase b = (pre ++ toLowerCase needle ++ post)%string)).
  { destruct (Comments.bodyContains options) as [needle |];
      [| split; [intros _ ? [=] | reflexivity]].
    unfold Comments.body_matches. split.
    - intros H needle' [= <-] Hne. apply truthy_spec in Hne.
      rewrite Hne in H. cbn [negb orb] in H.
      destruct (Comments.body c) as [b |]; [| discriminate H].
      apply str_includes_spec in H as (pre & post & H). now exists b, pre, post.
    - intros H. destruct (Js.truthy needle) eqn:Ht; [| reflexivity].
      cbn [negb orb]. apply truthy_spec in Ht.
      destruct (H needle eq_refl Ht) as (b & pre & post & -> & Hb).
      apply str_includes_spec. now exists pre, post. }
  assert (Hauthor :
    (match Comments.author options with
     | Some who => negb (Js.truthy who) || Comments.by_author who c
     | None => true
     end) = true <->
    (forall who,
        Comments.author options = Some who -> who <> EmptyString ->
        exists u, Comments.c_user c = Some u /\ login u = who)).
  { destruct (Comments.author options) as [who |];
      [| split; [intros _ ? [=] | reflexivity]].
    unfold Comments.by_author. split.
    - intros H who' [= <-] Hne. apply truthy_spec in Hne.
      rewrite Hne in H. cbn [negb orb] in H.
      destruct (Comments.c_user c) as [u |]; [| discriminate H].
      apply String.eqb_eq in H. now exists u.
    - intros H. destruct (Js.truthy who) eqn:Ht; [| reflexivity].
      cbn [negb orb]. apply truthy_spec in Ht.
      destruct (H who eq_refl Ht) as (u & -> & Hu).
      now apply String.eqb_eq. }
  assert (Hafter :
    (match Comments.createdAfter options with
     | Some d => Comments.date_gt (new_Date (Comments.created_at c)) d
     | None => true
     end) = true <->
    (forall d,
        Comments.createdAfter options = Some d ->
        exists t t0,
          new_Date (Comments.created_at c) = Some t /\ d = Some t0 /\ t0 < t)).
  { destruct (Comments.createdAfter options) as [d |];
      [| split; [intros _ ? [=] | reflexivity]].
    rewrite date_gt_spec. split.
    - now intros H d' [= <-].
    - intros H. now apply H. }
  assert (Hbefore :
    (match Comments.createdBefore options with
     | Some d => Comments.date_lt (new_Date (Comments.created_at c)) d
     | None => true
     end) = true <->
    (forall d,
        Comments.createdBefore options = Some d ->
        exists t t0,
          new_Date (Comments.created_at c) = Some t /\ d = Some t0 /\ t < t0)).
  { destruct (Comments.createdBefore options) as [d |];
      [| split; [intros _ ? [=] | reflexivity]].
    rewrite date_lt_spec. split.
    - now intros H d' [= <-].
    - intros H. now apply H. }
  rewrite Hbody, Hauthor, Hafter, Hbefore. tauto.
Qed.

(** C8: [searchComments] issues exactly one [listComments] request, with
    [per_page = min(limit, 100)], and no request for a further page.  When
    the request fails the failure is thrown on.  Otherwise it applies the
    [bodyContains], [author], [createdAfter] and [createdBefore] filters,
    in that order, to the page received and returns [slice(0, limit)] of
    what is left: for a limit that is not negative, the first [limit] of
    the comments of the page that meet every criterion.  A comment meets
    the criteria exactly when: its body, lower-cased, contains the
    lower-cased [bodyContains]; the login of its user is [author] (an empty
    string for either asks for nothing); its creation date is a valid date
    strictly later than [createdAfter]; and strictly earlier than
    [createdBefore].  So every comment returned is a comment of the page
    that meets the criteria, and when the limit is no smaller than the
    page, every such comment is returned. *)
Theorem C8_searchComments_single_page
    toLowerCase new_Date api repo issueNumber options :
  let limit := Js.default (Comments.o_limit options) 100 in
  let rq := {| Comments.p_repo := repo;
               Comments.issue_number := issueNumber;
               Comments.per_page := Z.min limit 100 |} in
  let res := run (Comments.searchComments
                    toLowerCase new_Date api repo issueNumber options) in
  let wanted (c : Comments.IssueComment) : Prop :=
    (forall needle,
        Comments.bodyContains options = Some needle -> needle <> EmptyString ->
        exists b pre post,
          Comments.body c = Some b /\
          toLowerCase b = (pre ++ toLowerCase needle ++ post)%string) /\
    (forall who,
        Comments.author options = Some who -> who <> EmptyString ->
        exists u, Comments.c_user c = Some u /\ login u = who) /\
    (forall d,
        Comments.createdAfter options = Some d ->
        exists t t0,
          new_Date (Comments.created_at c) = Some t /\ d = Some t0 /\ t0 < t) /\
    (forall d,
        Comments.createdBefore options = Some d ->
        exists t t0,
          new_Date (Comments.created_at c) = Some t /\ d = Some t0 /\ t < t0) in
  snd res = [Call rq (api 0%nat rq)] /\
  (forall e, api 0%nat rq = Rejected e -> fst res = Throw e) /\
  (forall page,
      api 0%nat rq = Resolved page ->
      fst res =
        Return (Js.slice 0 limit
                  (Comments.filter_created_before new_Date options
                     (Comments.filter_created_after new_Date options
                        (Comments.filter_by_author options
                           (Comments.filter_by_body toLowerCase options page))))) /\
      (0 <= limit ->
       fst res =
         Return (firstn (Z.to_nat limit)
                   (filter (meets_criteria toLowerCase new_Date options) page))) /\
      exists r,
        fst res = Return r /\
        (forall c, In c r -> In c page /\ wanted c) /\
        (Js.len page <= limit ->
         forall c, In c page -> wanted c -> In c r)) /\
  (forall c, meets_criteria toLowerCase new_Date options c = true <-> wanted c).
Proof.
  intros limit rq res wanted.
  assert (Hrun : res =
    (match api 0%nat rq with
     | Resolved page =>
         Return (Js.slice 0 limit
                   (Comments.filter_created_before new_Date options
                      (Comments.filter_created_after new_Date options
                         (Comments.filter_by_author options
                            (Comments.filter_by_body toLowerCase options page)))))
     | Rejected e => Throw e
     end, [Call rq (api 0%nat rq)])).
  { subst res. unfold run, Comments.searchComments, bind, request.
    unfold Comments.limit. cbv zeta.
    change (calls_made []) with 0%nat. fold limit. fold rq.
    now destruct (api 0%nat rq). }
  assert (Hwanted : forall c,
             meets_criteria toLowerCase new_Date options c = true <-> wanted c).
  { intros c. apply meets_criteria_spec. }
  rewrite Hrun. cbn [fst snd]. split; [reflexivity |]. split; [| split].
  - now intros e ->.
  - intros page ->. split; [reflexivity |]. split.
    + intros Hlimit. now rewrite slice_firstn, filters_in_order.
    + eexists. split; [reflexivity |]. rewrite filters_in_order. split.
      * intros c Hc. apply in_slice, filter_In in Hc as [Hpage Hc].
        split; [exact Hpage | now apply Hwanted].
      * intros Hfits c Hpage Hc.
        pose proof (len_nonneg page) as H0.
        rewrite slice_firstn by lia.
        rewrite firstn_all2.
        -- apply filter_In. split; [exact Hpage | now apply Hwanted].
        -- pose proof (filter_length_le
                         (meets_criteria toLowerCase new_Date options) page).
           unfold Js.len in Hfits. lia.
  - exact Hwanted.
Qed.

Lemma C8_searchComments_single_page_witness :
  let res := run (Comments.searchComments Examples.lower Examples.millis
                    Examples.greetings_api Examples.test_repo 7
                    Examples.hello_from_alice) in
  let dated := run (Comments.searchComments Examples.lower Examples.millis
                      Examples.whole_history Examples.test_repo 7
                      Examples.two_between) in
  (map Comments.per_page (requests (snd res)) = [3] /\
   fst res = Return [Examples.comment 1 "Hello World" "alice" "1000"]) /\
  (map Comments.per_page (requests (snd dated)) = [2] /\
   fst dated = Return [Examples.comment 2 "hello there" "bob" "2000";
                       Examples.comment 3 "HELLO again" "bob" "3000"]) /\
  (exists t t0,
      Examples.millis "5000" = Some t /\ Some 1500 = Some t0 /\ t0 < t).
Proof.
  intros res dated.
  destruct (C8_searchComments_single_page Examples.lower Examples.millis
              Examples.greetings_api Examples.test_repo 7 Examples.hello_from_alice)
    as (Htrace & _ & Hpage & _).
  destruct (C8_searchComments_single_page Examples.lower Examples.millis
              Examples.whole_history Examples.test_repo 7 Examples.two_between)
    as (Htrace' & _ & Hpage' & Hwanted).
  split; [| split].
  - split.
    + fold res in Htrace. rewrite Htrace. reflexivity.
    + destruct (Hpage (firstn 3 Examples.greetings) eq_refl) as (_ & Hfirst & _).
      fold res in Hfirst. rewrite Hfirst; [reflexivity | simpl; lia].
  - split.
    + fold dated in Htrace'. rewrite Htrace'. reflexivity.
    + destruct (Hpage' Examples.history eq_refl) as (_ & Hfirst & _).
      fold dated in Hfirst. rewrite Hfirst; [reflexivity | simpl; lia].
  - assert (Hfifth : meets_criteria Examples.lower Examples.millis
                       Examples.two_between
                       (Examples.comment 5 "oh, hello" "alice" "5000") = true)
      by reflexivity.
    apply Hwanted in Hfifth.
    exact (proj1 (proj2 (proj2 Hfifth)) (Some 1500) eq_refl).
Defined.

(** ** C9: no labels asked for *)

(** C9: when [pulls.get] answers with a pull request, whatever its labels,
    [pullRequestHasLabels] with an empty [labels] array returns [true] if
    [requireAll] is true or left to its default, and [false] if
    [requireAll] is false; in each case it has issued exactly one
    [pulls.get] request. *)
Theorem C9_empty_labels_vacuous api repo pullNumber pr :
  let rq := {| PullRequests.g_repo := repo;
               PullRequests.pull_number := pullNumber |} in
  let has requireAll_arg :=
    run (PullRequests.pullRequestHasLabels api repo pullNumber [] requireAll_arg) in
  api 0%nat rq = Resolved pr ->
  fst (has None) = Return true /\
  fst (has (Some true)) = Return true /\
  fst (has (Some false)) = Return false /\
  forall requireAll_arg,
    requests (snd (has requireAll_arg)) = [rq] /\
    resolved (snd (has requireAll_arg)) = [pr].
Proof.
  intros rq has Hapi.
  assert (Hrun : forall requireAll_arg,
    has requireAll_arg =
    (Return (Js.default requireAll_arg true),
     [Info ("Getting pull request #" ++ Js.number_to_string pullNumber)%string;
      Call rq (Resolved pr)])).
  { intros requireAll_arg. subst has.
    unfold run, PullRequests.pullRequestHasLabels, PullRequests.getPullRequest,
      bind, info, request.
    cbv zeta beta iota.
    change (calls_made ([] ++ [Info _])) with 0%nat. fold rq. rewrite Hapi.
    now destruct requireAll_arg as [[|] |]. }
  rewrite !Hrun. repeat split; rewrite Hrun; reflexivity.
Qed.

Lemma C9_empty_labels_vacuous_witness :
  let has requireAll_arg :=
    run (PullRequests.pullRequestHasLabels
           Examples.pr_123 Examples.test_repo 123 [] requireAll_arg) in
  fst (has None) = Return true /\ fst (has (Some false)) = Return false.
Proof.
  intros has.
  destruct (C9_empty_labels_vacuous Examples.pr_123 Examples.test_repo 123
              (Examples.labelled 123 ["bug"%string]) eq_refl)
    as (Hdefault & _ & Hany & _).
  split; [exact Hdefault | exact Hany].
Defined.

(** ** C10: a branch that is not there *)

Section NotFound.
Context {Rq Rs A : Type}.
Variable api : endpoint Rq Rs.
Variable rq : Rq.
Variable found : Rs -> A.
Variable missing : A.

(** The [try]/[catch] shape shared by [checkBranchExists] and
    [getBranchProtection]. *)
Lemma try_request_run :
  run (try_catch
         (let* data := request api rq in ret (found data))
         (fun error => if is_404 error then ret missing else throw error)) =
  (match api 0%nat rq with
   | Resolved data => Return (found data)
   | Rejected e => if is_404 e then Return missing else Throw e
   end, [Call rq (api 0%nat rq)]).
Proof.
  unfold run, try_catch, bind, request. change (calls_made []) with 0%nat.
  simpl app. destruct (api 0%nat rq) as [data | e]; [reflexivity |].
  now destruct (is_404 e).
Qed.
End NotFound.

(** C10: [checkBranchExists] issues one [getBranch] request; it returns
    [true] when the request resolves, returns [false] exactly when the
    request is rejected with status 404, and throws any other rejection on
    as it is.  [getBranchProtection] likewise issues one request, returns
    the data when it resolves, returns [null] exactly when it is rejected
    with status 404, and throws any other rejection on as it is. *)
Theorem C10_not_found_is_an_answer :
  (forall api repo branch,
      let rq := {| BranchUtils.b_repo := repo; BranchUtils.b_branch := branch |} in
      let res := run (BranchUtils.checkBranchExists api repo branch) in
      snd res = [Call rq (api 0%nat rq)] /\
      (forall data, api 0%nat rq = Resolved data -> fst res = Return true) /\
      (fst res = Return false <->
       exists e, api 0%nat rq = Rejected e /\ exn_status e = Some 404) /\
      (forall e, api 0%nat rq = Rejected e -> exn_status e <> Some 404 ->
                 fst res = Throw e)) /\
  (forall (Protection : Type) (api : endpoint BranchUtils.BranchParams Protection)
          repo branch,
      let rq := {| BranchUtils.b_repo := repo; BranchUtils.b_branch := branch |} in
      let res := run (BranchUtils.getBranchProtection Protection api repo branch) in
      snd res = [Call rq (api 0%nat rq)] /\
      (forall data, api 0%nat rq = Resolved data -> fst res = Return (Some data)) /\
      (fst res = Return None <->
       exists e, api 0%nat rq = Rejected e /\ exn_status e = Some 404) /\
      (forall e, api 0%nat rq = Rejected e -> exn_status e <> Some 404 ->
                 fst res = Throw e)).
Proof.
  split.
  - intros api repo branch rq res. subst res.
    unfold BranchUtils.checkBranchExists. fold rq.
    rewrite (try_request_run api rq (fun _ => true) false). cbn [fst snd].
    split; [reflexivity |]. split; [now intros data -> |]. split.
    + split.
      * destruct (api 0%nat rq) as [data | e]; [discriminate |].
        destruct (is_404 e) eqn:E; [| discriminate].
        intros _. exists e. split; [reflexivity | now apply is_404_spec].
      * intros (e & -> & He). apply is_404_spec in He. now rewrite He.
    + intros e -> He. now rewrite (is_404_false e He).
  - intros Protection api repo branch rq res. subst res.
    unfold BranchUtils.getBranchProtection. fold rq.
    rewrite (try_request_run api rq (fun data => Some data) None). cbn [fst snd].
    split; [reflexivity |]. split; [now intros data -> |]. split.
    + split.
      * destruct (api 0%nat rq) as [data | e]; [discriminate |].
        destruct (is_404 e) eqn:E; [| discriminate].
        intros _. exists e. split; [reflexivity | now apply is_404_spec].
      * intros (e & -> & He). apply is_404_spec in He. now rewrite He.
    + intros e -> He. now rewrite (is_404_false e He).
Qed.

Lemma C10_not_found_is_an_answer_witness :
  fst (run (BranchUtils.checkBranchExists
              Examples.no_branch Examples.test_repo "nonexistent")) = Return false /\
  fst (run (BranchUtils.checkBranchExists
              Examples.broken_server Examples.test_repo "main")) =
  Throw (Rejection {| status := Some 500; message := "Server Error" |}).
Proof.
  split.
  - apply (proj1 C10_not_found_is_an_answer
             Examples.no_branch Examples.test_repo "nonexistent"%string).
    eexists. split; reflexivity.
  - apply (proj1 C10_not_found_is_an_answer
             Examples.broken_server Examples.test_repo "main"%string);
      [reflexivity | simpl; discriminate].
Defined.

(* ================================================================= *)
(** * Further properties of the collectors *)

Section CollectorRuns.
Context {Rq Raw Item : Type}.
Variable api : endpoint Rq (list Raw).
Variable mkreq : Z -> Rq.
Variable keep : list Raw -> list Item.
Variables perPage limit : Z.

Local Abbreviation collect_events := (collect_events api mkreq keep perPage limit).

(** The request number [k] of the loop asks for page [page + k]. *)
Lemma collect_events_page_numbers fuel : forall n acc page k rq,
  nth_error (requests (snd (collect_events fuel n acc page))) k = Some rq ->
  rq = mkreq (page + Z.of_nat k).
Proof.
  induction fuel as [| fuel IH]; intros n acc page k rq; simpl.
  - destruct (Js.len acc <? limit); simpl; now destruct k.
  - destruct (Js.len acc <? limit); simpl; [| now destruct k].
    assert (Hone : nth_error [mkreq page] k = Some rq ->
                   rq = mkreq (page + Z.of_nat k)).
    { destruct k as [| k]; simpl.
      - intros [= <-]. f_equal. lia.
      - now destruct k. }
    destruct (api n (mkreq page)) as [d | e]; simpl; [| apply Hone].
    destruct (Js.len d =? 0); simpl; [apply Hone |].
    destruct (Js.len d <? perPage); simpl; [apply Hone |].
    destruct k as [| k]; simpl.
    + intros [= <-]. f_equal. lia.
    + intros H. apply IH in H. subst rq. f_equal. lia.
Qed.

(** The request number [k] of the loop is the request number [n + k] of
    the run, and what the trace records is what the endpoint answered. *)
Lemma collect_events_answers fuel : forall n acc page k rq rs,
  nth_error (snd (collect_events fuel n acc page)) k = Some (Call rq rs) ->
  rs = api (n + k)%nat rq.
Proof.
  induction fuel as [| fuel IH]; intros n acc page k rq rs; simpl.
  - destruct (Js.len acc <? limit); simpl; now destruct k.
  - destruct (Js.len acc <? limit); simpl; [| now destruct k].
    destruct (api n (mkreq page)) as [d | e] eqn:Hapi; simpl.
    + assert (Hone : nth_error [Call (mkreq page) (Resolved d)] k
                     = Some (Call rq rs) -> rs = api (n + k)%nat rq).
      { destruct k as [| k]; simpl; [| now destruct k].
        intros [= <- <-]. now rewrite Nat.add_0_r. }
      destruct (Js.len d =? 0); simpl; [exact Hone |].
      destruct (Js.len d <? perPage); simpl; [exact Hone |].
      destruct k as [| k]; simpl.
      * intros [= <- <-]. now rewrite Nat.add_0_r.
      * intros H. apply IH in H.
        now replace (n + S k)%nat with (S n + k)%nat by lia.
    + destruct k as [| k]; simpl; [| now destruct k].
      intros [= <- <-]. now rewrite Nat.add_0_r.
Qed.

(** A rejected request is the last event of the loop, and the loop throws
    what the request was rejected with. *)
Lemma collect_events_rejected fuel : forall n acc page pre rq e post,
  snd (collect_events fuel n acc page) = pre ++ Call rq (Rejected e) :: post ->
  post = [] /\ fst (collect_events fuel n acc page) = Throw e.
Proof.
  induction fuel as [| fuel IH]; intros n acc page pre rq e post; simpl.
  - destruct (Js.len acc <? limit); simpl; intros H; now destruct pre.
  - destruct (Js.len acc <? limit); simpl; [| intros H; now destruct pre].
    destruct (api n (mkreq page)) as [d | e0]; simpl.
    + assert (Hone : forall out : outcome (list Item),
                 [Call (mkreq page) (Resolved d)] = pre ++ Call rq (Rejected e) :: post ->
                 post = [] /\ out = Throw e).
      { intros out H. apply singleton_split in H as (_ & H & _). discriminate H. }
      destruct (Js.len d =? 0); simpl; [apply Hone |].
      destruct (Js.len d <? perPage); simpl; [apply Hone |].
      destruct pre as [| ev pre]; simpl; intros H; inversion H.
      eapply IH; eauto.
    + intros H. apply singleton_split in H as (_ & H & ->).
      inversion H. now split.
Qed.

(** Whatever the loop returns is the accumulator it started from followed
    by the kept items of the pages it received. *)
Lemma collect_events_returned fuel : forall n acc page r,
  fst (collect_events fuel n acc page) = Return r ->
  exists kept,
    r = acc ++ kept /\
    forall x, In x kept ->
      exists data, In data (resolved (snd (collect_events fuel n acc page)))
                   /\ In x (keep data).
Proof.
  induction fuel as [| fuel IH]; intros n acc page r; simpl.
  - destruct (Js.len acc <? limit); simpl; intros [= <-].
    exists []. now rewrite app_nil_r.
  - destruct (Js.len acc <? limit); simpl;
      [| intros [= <-]; exists []; now rewrite app_nil_r].
    destruct (api n (mkreq page)) as [d | e]; simpl; [| discriminate].
    destruct (Js.len d =? 0); simpl.
    { intros [= <-]. exists []. now rewrite app_nil_r. }
    destruct (Js.len d <? perPage); simpl.
    { intros [= <-]. exists (keep d). split; [reflexivity |].
      intros x Hx. exists d. split; [now left | exact Hx]. }
    intros H. apply IH in H as (kept & -> & Hkept).
    exists (keep d ++ kept). split; [now rewrite app_assoc |].
    intros x Hx. apply in_app_or in Hx as [Hx | Hx].
    + exists d. split; [now left | exact Hx].
    + destruct (Hkept x Hx) as (data & Hdata & Hin).
      exists data. split; [now right | exact Hin].
Qed.

(** A loop that pushes whole pages asks for a further page only while the
    full pages it has received leave the accumulator below the limit. *)
Lemma collect_events_request_bound fuel : forall n acc page,
  (forall d, Js.len (keep d) = Js.len d) ->
  0 < perPage ->
  snd (collect_events fuel n acc page) = [] \/
  (Js.len (snd (collect_events fuel n acc page)) - 1) * perPage + Js.len acc < limit.
Proof.
  induction fuel as [| fuel IH]; intros n acc page Hkeep Hpos; simpl.
  - destruct (Js.len acc <? limit); now left.
  - destruct (Js.len acc <? limit) eqn:Eacc; simpl; [| now left].
    apply Z.ltb_lt in Eacc. right.
    assert (Hone : forall ev : event Rq (list Raw), Js.len [ev] = 1)
      by reflexivity.
    destruct (api n (mkreq page)) as [d | e]; simpl;
      [| rewrite ?Hone; lia].
    destruct (Js.len d =? 0) eqn:E0; simpl; [rewrite ?Hone; lia |].
    destruct (Js.len d <? perPage) eqn:E1; simpl; [rewrite ?Hone; lia |].
    apply Z.ltb_ge in E1.
    destruct (IH (S n) (acc ++ keep d) (page + 1) Hkeep Hpos) as [Hnil | Hlt].
    + rewrite Hnil.
      change ((Js.len [Call (mkreq page) (Resolved d)] - 1) * perPage
              + Js.len acc < limit).
      rewrite Hone. lia.
    + rewrite len_app, Hkeep in Hlt.
      set (rest := snd (collect_events fuel (S n) (acc ++ keep d) (page + 1))) in *.
      assert (Hcons : Js.len (Call (mkreq page) (Resolved d) :: rest)
                      = Js.len rest + 1)
        by (unfold Js.len; simpl List.length; lia).
      change ((Js.len (Call (mkreq page) (Resolved d) :: rest) - 1) * perPage
              + Js.len acc < limit).
      rewrite Hcons.
      replace ((Js.len rest + 1 - 1) * perPage)
        with ((Js.len rest - 1) * perPage + perPage) by ring.
      lia.
Qed.

(** With nothing to collect the loop issues no request. *)
Lemma collect_events_nothing_asked fuel n page :
  limit <= 0 ->
  collect_events fuel n [] page = (Return [], []).
Proof.
  intros Hlimit.
  assert (E : (Js.len (@nil Item) <? limit) = false)
    by (apply Z.ltb_ge; unfold Js.len; simpl; lia).
  destruct fuel; simpl; now rewrite E.
Qed.
End CollectorRuns.

Lemma all_calls_requests {Rq Rs} (mkreq : Z -> Rq) (evs : trace Rq Rs) :
  Forall (fun ev => exists p rs, ev = Call (mkreq p) rs) evs ->
  List.length (requests evs) = List.length evs.
Proof.
  induction 1 as [| ev evs (p & rs & ->) _ IH]; simpl; [reflexivity | now rewrite IH].
Qed.

Lemma sliced_returned {Rq Raw Item} api (mkreq : Z -> Rq)
    (keep : list Raw -> list Item) perPage limit fuel n page r :
  sliced limit (fst (collect_events api mkreq keep perPage limit fuel n [] page))
    = Return r ->
  forall x, In x r ->
    exists data,
      In data (resolved (snd (collect_events api mkreq keep perPage limit fuel n [] page)))
      /\ In x (keep data).
Proof.
  destruct (fst (collect_events api mkreq keep perPage limit fuel n [] page))
    as [acc | e |] eqn:Hout; simpl; try discriminate.
  intros [= <-] x Hx. apply in_slice in Hx.
  apply collect_events_returned in Hout as (kept & -> & Hkept).
  now apply Hkept.
Qed.

(** X1: the requests of a collector ask for the pages 1, 2, 3, ... in that
    order: request number [k], counting from 0, asks for page [k + 1]. *)
Theorem X1_pages_requested_in_order :
  (forall api repo ref environment limit_arg fuel k rq,
      nth_error (requests (snd (run (DeploymentUtils.listDeployments
                                       api repo ref environment limit_arg fuel)))) k
        = Some rq ->
      DeploymentUtils.page rq = Z.of_nat k + 1) /\
  (forall api repo limit_arg fuel k rq,
      nth_error (requests (snd (run (BranchUtils.listAllBranches
                                       api repo limit_arg fuel)))) k = Some rq ->
      BranchUtils.page rq = Z.of_nat k + 1) /\
  (forall api repo labels state_arg limit_arg excludePRs fuel k rq,
      nth_error (requests (snd (run (AdvancedPrUtils.findPRsWithLabels
                                       api repo labels state_arg limit_arg
                                       excludePRs fuel)))) k = Some rq ->
      pl_page rq = Some (Z.of_nat k + 1)) /\
  (forall api repo options fuel k rq,
      nth_error (requests (snd (run (AdvancedPrUtils.searchPullRequests
                                       api repo options fuel)))) k = Some rq ->
      pl_page rq = Some (Z.of_nat k + 1)).
Proof.
  split; [| split; [| split]].
  - intros api repo ref environment limit_arg fuel k rq.
    rewrite listDeployments_run. cbv zeta. cbn [snd]. intros H.
    apply collect_events_page_numbers in H. subst rq.
    unfold DeploymentUtils.listDeployments_request.
    cbn [DeploymentUtils.page]. lia.
  - intros api repo limit_arg fuel k rq.
    rewrite listAllBranches_run. cbv zeta. cbn [snd]. intros H.
    apply collect_events_page_numbers in H. subst rq.
    unfold branches_request. cbn [BranchUtils.page]. lia.
  - intros api repo labels state_arg limit_arg excludePRs fuel k rq.
    destruct labels as [| l ls]; [now destruct k |].
    rewrite findPRsWithLabels_run by discriminate. cbv zeta. cbn [snd].
    simpl requests. rewrite requests_app, requests_found_info, app_nil_r.
    intros H. apply collect_events_page_numbers in H. subst rq.
    unfold findPRs_request. cbn [pl_page]. f_equal. lia.
  - intros api repo options fuel k rq.
    rewrite searchPullRequests_run. cbv zeta. cbn [snd]. intros H.
    apply collect_events_page_numbers in H. subst rq.
    unfold search_request. cbn [pl_page]. f_equal. lia.
Qed.

Lemma X1_pages_requested_in_order_witness :
  let tr := snd (run (AdvancedPrUtils.findPRsWithLabels
                        MoreExamples.paged_bugs Examples.test_repo
                        ["urgent"%string] None (Some 1) None 5)) in
  nth_error (requests tr) 1 <> None /\
  forall rq, nth_error (requests tr) 1 = Some rq -> pl_page rq = Some 2.
Proof.
  intros tr. split; [vm_compute; discriminate |].
  intros rq H.
  exact (proj1 (proj2 (proj2 X1_pages_requested_in_order))
           MoreExamples.paged_bugs Examples.test_repo ["urgent"%string]
           None (Some 1) None 5%nat 1%nat rq H).
Defined.

(** X2: when the provider rejects a page request, a collector throws the
    value the request was rejected with and does nothing after it: no
    further request, no log line, no partial list. *)
Theorem X2_rejected_page_aborts :
  (forall api repo ref environment limit_arg fuel pre rq e post,
      let res := run (DeploymentUtils.listDeployments
                        api repo ref environment limit_arg fuel) in
      snd res = pre ++ Call rq (Rejected e) :: post ->
      fst res = Throw e /\ post = []) /\
  (forall api repo limit_arg fuel pre rq e post,
      let res := run (BranchUtils.listAllBranches api repo limit_arg fuel) in
      snd res = pre ++ Call rq (Rejected e) :: post ->
      fst res = Throw e /\ post = []) /\
  (forall api repo labels state_arg limit_arg excludePRs fuel pre rq e post,
      let res := run (AdvancedPrUtils.findPRsWithLabels
                        api repo labels state_arg limit_arg excludePRs fuel) in
      snd res = pre ++ Call rq (Rejected e) :: post ->
      fst res = Throw e /\ post = []) /\
  (forall api repo options fuel pre rq e post,
      let res := run (AdvancedPrUtils.searchPullRequests api repo options fuel) in
      snd res = pre ++ Call rq (Rejected e) :: post ->
      fst res = Throw e /\ post = []).
Proof.
  split; [| split; [| split]].
  - intros api repo ref environment limit_arg fuel pre rq e post res. subst res.
    rewrite listDeployments_run. cbv zeta. cbn [fst snd]. intros H.
    apply collect_events_rejected in H as [-> ->]. now split.
  - intros api repo limit_arg fuel pre rq e post res. subst res.
    rewrite listAllBranches_run. cbv zeta. cbn [fst snd]. intros H.
    apply collect_events_rejected in H as [-> ->]. now split.
  - intros api repo labels state_arg limit_arg excludePRs fuel pre rq e post res.
    subst res. destruct labels as [| l ls]; [intros H; now destruct pre |].
    rewrite findPRsWithLabels_run by discriminate. cbv zeta. cbn [fst snd].
    match goal with
    | |- context [Info ?s :: ?evs ++ ?logs] =>
        change (Info s :: evs ++ logs) with ([Info s] ++ evs ++ logs)
    end.
    intros H.
    apply frame_split in H as (pre' & post' & Hevs & ->);
      [| reflexivity | apply requests_found_info].
    apply collect_events_rejected in Hevs as [-> ->]. now split.
  - intros api repo options fuel pre rq e post res. subst res.
    rewrite searchPullRequests_run. cbv zeta. cbn [fst snd]. intros H.
    apply collect_events_rejected in H as [-> ->]. now split.
Qed.

Lemma X2_rejected_page_aborts_witness :
  let res := run (AdvancedPrUtils.findPRsWithLabels
                    MoreExamples.second_page_fails Examples.test_repo
                    ["bug"%string] None (Some 1) None 5) in
  fst res = Throw MoreExamples.server_error /\
  List.length (requests (snd res)) = 2%nat.
Proof.
  intros res. split; [| reflexivity].
  refine (proj1 (proj1 (proj2 (proj2 X2_rejected_page_aborts))
                   MoreExamples.second_page_fails Examples.test_repo
                   ["bug"%string] None (Some 1) None 5%nat
                   (firstn 2 (snd res))
                   (findPRs_request Examples.test_repo None 2 2)
                   MoreExamples.server_error [] _)).
  vm_compute. reflexivity.
Defined.

(** X3: [listDeployments] and [listAllBranches] never ask for more pages
    than the limit needs.  With [n] requests issued, [n - 1] full pages of
    [min(limit, 100)] items were still short of the limit; and with a
    limit of zero or less no request is issued at all. *)
Theorem X3_unfiltered_request_bound :
  (forall api repo ref environment limit_arg fuel,
      let limit := Js.default limit_arg 100 in
      let n := Js.len (requests (snd (run (DeploymentUtils.listDeployments
                                             api repo ref environment limit_arg fuel)))) in
      (limit <= 0 -> n = 0) /\
      (0 < limit -> (n - 1) * Z.min limit 100 < limit)) /\
  (forall api repo limit_arg fuel,
      let limit := Js.default limit_arg 100 in
      let n := Js.len (requests (snd (run (BranchUtils.listAllBranches
                                             api repo limit_arg fuel)))) in
      (limit <= 0 -> n = 0) /\
      (0 < limit -> (n - 1) * Z.min limit 100 < limit)).
Proof.
  split.
  - intros api repo ref environment limit_arg fuel limit n. subst n.
    rewrite listDeployments_run. cbv zeta. cbn [snd].
    change (DeploymentUtils.limit limit_arg) with limit.
    unfold Js.len. rewrite (all_calls_requests _ _ (collect_events_calls _ _ _ _ _ _ _ _ _)).
    split.
    + intros Hle. now rewrite collect_events_nothing_asked.
    + intros Hpos.
      destruct (collect_events_request_bound api
                  (DeploymentUtils.listDeployments_request repo ref environment
                     (Z.min limit 100))
                  (fun d => d) (Z.min limit 100) limit fuel 0 [] 1)
        as [Hnil | Hlt]; [reflexivity | lia | |].
      * rewrite Hnil. cbn [List.length Z.of_nat]. lia.
      * unfold Js.len in Hlt. cbn [List.length Z.of_nat] in Hlt. lia.
  - intros api repo limit_arg fuel limit n. subst n.
    rewrite listAllBranches_run. cbv zeta. cbn [snd].
    change (BranchUtils.limit limit_arg) with limit.
    unfold Js.len. rewrite (all_calls_requests _ _ (collect_events_calls _ _ _ _ _ _ _ _ _)).
    split.
    + intros Hle. now rewrite collect_events_nothing_asked.
    + intros Hpos.
      destruct (collect_events_request_bound api (branches_request repo (Z.min limit 100))
                  (map BranchUtils.name) (Z.min limit 100) limit fuel 0 [] 1)
        as [Hnil | Hlt];
        [intros d; unfold Js.len; now rewrite length_map | lia | |].
      * rewrite Hnil. cbn [List.length Z.of_nat]. lia.
      * unfold Js.len in Hlt. cbn [List.length Z.of_nat] in Hlt. lia.
Qed.

Lemma X3_unfiltered_request_bound_witness :
  let n := Js.len (requests (snd (run (DeploymentUtils.listDeployments
                                         Examples.paged_deployments Examples.test_repo
                                         None None (Some 150) 9)))) in
  n = 2 /\ (n - 1) * Z.min 150 100 < 150.
Proof.
  intros n. split; [reflexivity |].
  apply (proj1 X3_unfiltered_request_bound
           Examples.paged_deployments Examples.test_repo None None (Some 150) 9%nat).
  simpl. lia.
Defined.

(** What [findPRsWithLabels] returns passed its filter on a page received. *)
Lemma findPRsWithLabels_kept api repo labels state_arg limit_arg excludePRs fuel r :
  let res := run (AdvancedPrUtils.findPRsWithLabels
                    api repo labels state_arg limit_arg excludePRs fuel) in
  fst res = Return r ->
  forall pr, In pr r ->
    exists page,
      In page (resolved (snd res)) /\
      In pr (filter (AdvancedPrUtils.matching labels excludePRs) page).
Proof.
  intros res. subst res. destruct labels as [| l ls]; [discriminate |].
  rewrite findPRsWithLabels_run by discriminate. cbv zeta. cbn [fst snd].
  intros Hret pr Hin.
  destruct (sliced_returned _ _ _ _ _ _ _ _ _ Hret pr Hin) as (page & Hpage & Hkeep).
  exists page. split; [| exact Hkeep].
  simpl resolved. rewrite resolved_app. apply in_or_app. now left.
Qed.

(** X4: whatever [findPRsWithLabels] returns was sent by the provider on
    one of the pages received, is not among the excluded numbers and
    carries every required label. *)
Theorem X4_findPRsWithLabels_returns_matches
    api repo labels state_arg limit_arg excludePRs fuel r :
  let res := run (AdvancedPrUtils.findPRsWithLabels
                    api repo labels state_arg limit_arg excludePRs fuel) in
  fst res = Return r ->
  forall pr, In pr r ->
    (exists page, In page (resolved (snd res)) /\ In pr page) /\
    ~ In (number pr) (Js.default excludePRs []) /\
    (forall l, In l labels -> In (Some l) (label_names pr)).
Proof.
  intros res Hret pr Hin.
  destruct (findPRsWithLabels_kept _ _ _ _ _ _ _ _ Hret pr Hin)
    as (page & Hpage & Hkeep).
  apply filter_In in Hkeep as [Hpr Hmatch].
  apply matching_spec in Hmatch as [Hexcl Hall].
  split; [| now split].
  exists page. now split.
Qed.

Lemma X4_findPRsWithLabels_returns_matches_witness :
  let res := run (AdvancedPrUtils.findPRsWithLabels
                    MoreExamples.paged_bugs Examples.test_repo
                    ["urgent"%string] None (Some 1) None 5) in
  fst res = Return [Examples.labelled 3 ["bug"; "urgent"]%string] /\
  In (Some "urgent"%string) (label_names (Examples.labelled 3 ["bug"; "urgent"]%string)).
Proof.
  intros res.
  assert (Hret : fst res = Return [Examples.labelled 3 ["bug"; "urgent"]%string])
    by reflexivity.
  split; [exact Hret |].
  destruct (X4_findPRsWithLabels_returns_matches
              MoreExamples.paged_bugs Examples.test_repo ["urgent"%string]
              None (Some 1) None 5%nat _ Hret
              (Examples.labelled 3 ["bug"; "urgent"]%string))
    as (_ & _ & Hall); [now left |].
  apply Hall. now left.
Defined.

Lemma passes_filters_spec options pr :
  AdvancedPrUtils.passes_filters options pr = true <->
  ~ In (number pr) (Js.default (AdvancedPrUtils.o_excludePRs options) []) /\
  (forall who, AdvancedPrUtils.o_author options = Some who -> who <> ""%string ->
               exists u, user pr = Some u /\ login u = who) /\
  (forall l, In l (Js.default (AdvancedPrUtils.o_labels options) []) ->
             In (Some l) (label_names pr)).
Proof.
  unfold AdvancedPrUtils.passes_filters, AdvancedPrUtils.s_excludePRs,
    AdvancedPrUtils.s_author, AdvancedPrUtils.s_labels,
    AdvancedPrUtils.login_differs.
  destruct (Js.includes_num _ _) eqn:Eex.
  { apply includes_num_spec in Eex. split; [discriminate | now intros [H _]]. }
  assert (Hex : ~ In (number pr) (Js.default (AdvancedPrUtils.o_excludePRs options) [])).
  { intros Hin. apply includes_num_spec in Hin. congruence. }
  assert (Hauthor :
    (Js.truthy_opt (AdvancedPrUtils.o_author options)
     && match user pr with
        | Some u => negb (login u =? Js.default (AdvancedPrUtils.o_author options) "")%string
        | None => true
        end) = false <->
    (forall who, AdvancedPrUtils.o_author options = Some who -> who <> ""%string ->
                 exists u, user pr = Some u /\ login u = who)).
  { destruct (AdvancedPrUtils.o_author options) as [[| c who] |]; simpl.
    - split; [intros _ who [= <-] Hne; now contradiction Hne | reflexivity].
    - destruct (user pr) as [u |]; simpl.
      + destruct (String.eqb_spec (login u) (String c who)) as [Heq | Hne]; simpl.
        * split; [| reflexivity]. intros _ who' [= <-] _. now exists u.
        * split; [discriminate |]. intros H.
          destruct (H (String c who) eq_refl ltac:(discriminate)) as (u' & [= <-] & Hl).
          now contradiction Hne.
      + split; [discriminate |]. intros H.
        destruct (H (String c who) eq_refl ltac:(discriminate)) as (u' & Hu & _).
        discriminate Hu.
    - split; [intros _ who Hwho; discriminate Hwho | reflexivity]. }
  destruct (Js.truthy_opt _ && _) eqn:Eauth.
  { split; [discriminate |]. intros (_ & Ha & _).
    apply Hauthor in Ha. discriminate Ha. }
  assert (Ha := proj1 Hauthor eq_refl).
  destruct (has_every_label (Js.default (AdvancedPrUtils.o_labels options) [])
              (label_names pr)) eqn:Elab.
  - rewrite andb_false_r.
    pose proof (proj1 (has_every_label_spec _ _) Elab) as Hall. now split.
  - destruct (Js.default (AdvancedPrUtils.o_labels options) []) as [| l ls] eqn:El.
    + discriminate Elab.
    + change (0 <? Js.len (l :: ls)) with true. simpl.
      split; [discriminate |]. intros (_ & _ & Hall).
      pose proof (proj2 (has_every_label_spec (l :: ls) (label_names pr)) Hall)
        as Hyes.
      congruence.
Qed.

(** X5: [searchPullRequests] returns only pull requests that the provider
    sent on a page received and that meet every criterion given: the number
    is not excluded, the author's login is the one asked for (an empty
    [author] asks for nothing), and every label asked for is present. *)
Theorem X5_searchPullRequests_returns_matches api repo options fuel r :
  let res := run (AdvancedPrUtils.searchPullRequests api repo options fuel) in
  fst res = Return r ->
  forall pr, In pr r ->
    (exists page, In page (resolved (snd res)) /\ In pr page) /\
    ~ In (number pr) (Js.default (AdvancedPrUtils.o_excludePRs options) []) /\
    (forall who, AdvancedPrUtils.o_author options = Some who -> who <> ""%string ->
                 exists u, user pr = Some u /\ login u = who) /\
    (forall l, In l (Js.default (AdvancedPrUtils.o_labels options) []) ->
               In (Some l) (label_names pr)).
Proof.
  intros res. subst res.
  rewrite searchPullRequests_run. cbv zeta. cbn [fst snd].
  intros Hret pr Hin.
  destruct (sliced_returned _ _ _ _ _ _ _ _ _ Hret pr Hin) as (page & Hpage & Hkeep).
  apply filter_In in Hkeep as [Hpr Hpass].
  apply passes_filters_spec in Hpass.
  split; [| exact Hpass].
  exists page. now split.
Qed.

Lemma X5_searchPullRequests_returns_matches_witness :
  let res := run (AdvancedPrUtils.searchPullRequests
                    MoreExamples.team_page Examples.test_repo
                    MoreExamples.bugs_by_alice 3) in
  fst res = Return [MoreExamples.authored 1 "alice" ["bug"%string]] /\
  ~ In 1 [4].
Proof.
  intros res.
  assert (Hret : fst res = Return [MoreExamples.authored 1 "alice" ["bug"%string]])
    by reflexivity.
  split; [exact Hret |].
  destruct (X5_searchPullRequests_returns_matches
              MoreExamples.team_page Examples.test_repo MoreExamples.bugs_by_alice
              3%nat _ Hret (MoreExamples.authored 1 "alice" ["bug"%string]))
    as (_ & Hex & _); [now left |].
  exact Hex.
Defined.

(* ================================================================= *)
(** * One label on open pull requests *)

Section CollectorThrows.
Context {Rq Raw Item : Type}.
Variable api : endpoint Rq (list Raw).
Variable mkreq : Z -> Rq.
Variable keep : list Raw -> list Item.
Variables perPage limit : Z.

(** The loop throws only what a request was rejected with. *)
Lemma collect_events_thrown fuel : forall n acc page e,
  fst (collect_events api mkreq keep perPage limit fuel n acc page) = Throw e ->
  exists pre rq,
    snd (collect_events api mkreq keep perPage limit fuel n acc page)
    = pre ++ [Call rq (Rejected e)].
Proof.
  induction fuel as [| fuel IH]; intros n acc page e; simpl.
  - destruct (Js.len acc <? limit); discriminate.
  - destruct (Js.len acc <? limit); simpl; [| discriminate].
    destruct (api n (mkreq page)) as [d | e0]; simpl.
    + destruct (Js.len d =? 0); simpl; [discriminate |].
      destruct (Js.len d <? perPage); simpl; [discriminate |].
      intros H. apply IH in H as (pre & rq & ->).
      now exists (Call (mkreq page) (Resolved d) :: pre), rq.
    + intros [= ->]. now exists [], (mkreq page).
Qed.
End CollectorThrows.

Lemma sliced_throw {A} limit (out : outcome (list A)) e :
  sliced limit out = Throw e -> out = Throw e.
Proof. destruct out; simpl; congruence. Qed.

(** X6: [findOpenPRsWithLabel] only asks for open pull requests, and never
    fails for lack of labels: what it throws is what a request was rejected
    with.  What it returns carries the label and is not excluded. *)
Theorem X6_findOpenPRsWithLabel api repo label excludePRs_arg limit_arg fuel :
  let res := run (LabelConflicts.findOpenPRsWithLabel
                    api repo label excludePRs_arg limit_arg fuel) in
  (forall rq, In rq (requests (snd res)) -> pl_state rq = StOpen) /\
  (forall e, fst res = Throw e ->
             exists pre rq, snd res = pre ++ [Call rq (Rejected e)]) /\
  (forall r, fst res = Return r ->
             forall pr, In pr r ->
               In (Some label) (label_names pr) /\
               ~ In (number pr) (Js.default excludePRs_arg [])).
Proof.
  intros res. subst res. unfold LabelConflicts.findOpenPRsWithLabel.
  split; [| split].
  - rewrite findPRsWithLabels_run by discriminate. cbv zeta. cbn [snd].
    simpl requests. rewrite requests_app, requests_found_info, app_nil_r.
    intros rq Hin. apply collect_events_requests in Hin as (p & ->). reflexivity.
  - rewrite findPRsWithLabels_run by discriminate. cbv zeta. cbn [fst snd].
    intros e He. apply sliced_throw in He.
    destruct (collect_events_thrown _ _ _ _ _ _ _ _ _ _ He) as (pre & rq & Hevs).
    rewrite Hevs, He. cbn [found_info]. rewrite app_nil_r.
    now exists (Info ("Searching for PRs with labels: " ++ Js.join ", " [label])%string
                  :: pre), rq.
  - intros r Hret pr Hin.
    destruct (findPRsWithLabels_kept _ _ _ _ _ _ _ _ Hret pr Hin)
      as (page & _ & Hkeep).
    apply filter_In in Hkeep as [_ Hmatch].
    apply matching_spec in Hmatch as [Hex Hall].
    split; [apply Hall; now left | exact Hex].
Qed.

Lemma X6_findOpenPRsWithLabel_witness :
  let res := run (LabelConflicts.findOpenPRsWithLabel
                    MoreExamples.paged_bugs Examples.test_repo "urgent"
                    None (Some 1) 5) in
  fst res = Return [Examples.labelled 3 ["bug"; "urgent"]%string] /\
  In (Some "urgent"%string)
     (label_names (Examples.labelled 3 ["bug"; "urgent"]%string)).
Proof.
  intros res.
  assert (Hret : fst res = Return [Examples.labelled 3 ["bug"; "urgent"]%string])
    by reflexivity.
  split; [exact Hret |].
  destruct (X6_findOpenPRsWithLabel MoreExamples.paged_bugs Examples.test_repo
              "urgent"%string None (Some 1) 5%nat) as (_ & _ & Hall).
  now apply (Hall _ Hret (Examples.labelled 3 ["bug"; "urgent"]%string)); left.
Defined.

Lemma concat_nil_all {A} (ls : list (list A)) :
  List.concat ls = [] -> forall l, In l ls -> l = [].
Proof.
  induction ls as [| l0 ls IH]; simpl; intros H l Hin; [contradiction |].
  apply app_eq_nil in H as [H0 Hrest].
  destruct Hin as [<- | Hin]; [exact H0 | now apply IH].
Qed.

Lemma checkLabelConflicts_run api repo prNumber label fuel :
  let found := run (AdvancedPrUtils.findPRsWithLabels api repo [label]
                      (Some StOpen) (Some 1) (Some [prNumber]) fuel) in
  run (LabelConflicts.checkLabelConflicts api repo prNumber label fuel) =
  (match fst found with
   | Return (pr :: _) =>
       Return {| LabelConflicts.hasConflict := true;
                 LabelConflicts.conflictingPR := Some pr |}
   | Return [] =>
       Return {| LabelConflicts.hasConflict := false;
                 LabelConflicts.conflictingPR := None |}
   | Throw e => Throw e
   | OutOfFuel => OutOfFuel
   end, snd found).
Proof.
  intros found. subst found.
  unfold run, LabelConflicts.checkLabelConflicts,
    LabelConflicts.findOpenPRsWithLabel, bind.
  cbn [Js.default].
  destruct (AdvancedPrUtils.findPRsWithLabels api repo [label] (Some StOpen)
              (Some 1) (Some [prNumber]) fuel []) as [[prs | e |] tr];
    cbn [fst snd]; try reflexivity.
  destruct prs as [| pr prs]; reflexivity.
Qed.

(** The list [findPRsWithLabels] returns is [slice(0, limit)] of everything
    its filter kept from the pages received. *)
Lemma findPRsWithLabels_returned_slice
    api repo labels state_arg limit_arg excludePRs fuel r :
  let res := run (AdvancedPrUtils.findPRsWithLabels
                    api repo labels state_arg limit_arg excludePRs fuel) in
  fst res = Return r ->
  r = Js.slice 0 (Js.default limit_arg 100)
        (accumulated (filter (AdvancedPrUtils.matching labels excludePRs)) (snd res)).
Proof.
  intros res. subst res. destruct labels as [| l ls]; [discriminate |].
  rewrite findPRsWithLabels_run by discriminate. cbv zeta. cbn [fst snd].
  set (ce := collect_events _ _ _ _ _ _ _ _ _).
  pose proof (collect_events_result api
                (findPRs_request repo state_arg
                   (Z.min (AdvancedPrUtils.limit limit_arg * 2) 100))
                (filter (AdvancedPrUtils.matching (l :: ls) excludePRs))
                (Z.min (AdvancedPrUtils.limit limit_arg * 2) 100)
                (AdvancedPrUtils.limit limit_arg) eq_refl fuel 0 [] 1) as Hres.
  fold ce in Hres.
  destruct (fst ce) as [acc | e |]; simpl; try discriminate.
  intros [= <-]. rewrite (Hres acc eq_refl). simpl app.
  unfold accumulated. simpl resolved.
  rewrite resolved_app. cbn [found_info resolved]. now rewrite app_nil_r.
Qed.

(** X7: [checkLabelConflicts] asks for open pull requests two at a time.
    A conflict it reports names a pull request received from the provider
    that carries the label and is not the pull request asked about.  When
    it reports none, no other pull request on the pages received carries
    the label. *)
Theorem X7_checkLabelConflicts api repo prNumber label fuel c :
  let res := run (LabelConflicts.checkLabelConflicts api repo prNumber label fuel) in
  fst res = Return c ->
  (forall rq, In rq (requests (snd res)) ->
              pl_per_page rq = 2 /\ pl_state rq = StOpen) /\
  (LabelConflicts.hasConflict c = true ->
   exists pr,
     LabelConflicts.conflictingPR c = Some pr /\
     number pr <> prNumber /\
     In (Some label) (label_names pr) /\
     exists page, In page (resolved (snd res)) /\ In pr page) /\
  (LabelConflicts.hasConflict c = false ->
   LabelConflicts.conflictingPR c = None /\
   forall page pr,
     In page (resolved (snd res)) -> In pr page ->
     In (Some label) (label_names pr) -> number pr = prNumber).
Proof.
  intros res. subst res. rewrite checkLabelConflicts_run. cbv zeta. cbn [fst snd].
  set (found := run _).
  destruct (fst found) as [prs | e |] eqn:Hfound; [| discriminate | discriminate].
  intros Hc. split; [| split].
  - subst found. rewrite findPRsWithLabels_run by discriminate. cbv zeta. cbn [snd].
    simpl requests. rewrite requests_app, requests_found_info, app_nil_r.
    intros rq Hin. apply collect_events_requests in Hin as (p & ->). now split.
  - destruct prs as [| pr prs]; injection Hc as <-; [discriminate |].
    intros _. exists pr. split; [reflexivity |].
    destruct (findPRsWithLabels_kept _ _ _ _ _ _ _ _ Hfound pr ltac:(now left))
      as (page & Hpage & Hkeep).
    apply filter_In in Hkeep as [Hpr Hmatch].
    apply matching_spec in Hmatch as [Hex Hall]. simpl in Hex.
    split; [intros Heq; apply Hex; now left |].
    split; [apply Hall; now left |].
    exists page. now split.
  - destruct prs as [| pr prs]; injection Hc as <-; [| discriminate].
    intros _. split; [reflexivity |].
    intros page pr Hpage Hpr Hlabel.
    pose proof (findPRsWithLabels_returned_slice _ _ _ _ _ _ _ _ Hfound) as Hslice.
    cbn [Js.default] in Hslice. rewrite slice_firstn in Hslice by lia.
    fold found in Hslice.
    destruct (accumulated (filter (AdvancedPrUtils.matching [label] (Some [prNumber])))
                (snd found)) as [| x xs] eqn:Hacc; [| discriminate Hslice].
    unfold accumulated in Hacc.
    assert (Hnone : filter (AdvancedPrUtils.matching [label] (Some [prNumber])) page = []).
    { apply (concat_nil_all _ Hacc). apply in_map. exact Hpage. }
    destruct (Z.eq_dec (number pr) prNumber) as [Heq | Hne]; [exact Heq |].
    assert (Hmatch : AdvancedPrUtils.matching [label] (Some [prNumber]) pr = true).
    { apply matching_spec. split.
      - simpl. intros [Heq | []]. now apply Hne.
      - intros l [<- | []]. exact Hlabel. }
    assert (Hin : In pr (filter (AdvancedPrUtils.matching [label] (Some [prNumber])) page))
      by (apply filter_In; now split).
    rewrite Hnone in Hin. contradiction.
Qed.

Lemma X7_checkLabelConflicts_witness :
  let res := run (LabelConflicts.checkLabelConflicts
                    MoreExamples.paged_bugs Examples.test_repo 3 "urgent" 5) in
  fst res = Return {| LabelConflicts.hasConflict := false;
                      LabelConflicts.conflictingPR := None |} /\
  forall page pr,
    In page (resolved (snd res)) -> In pr page ->
    In (Some "urgent"%string) (label_names pr) -> number pr = 3.
Proof.
  intros res.
  assert (Hret : fst res = Return {| LabelConflicts.hasConflict := false;
                                     LabelConflicts.conflictingPR := None |})
    by reflexivity.
  split; [exact Hret |].
  destruct (X7_checkLabelConflicts MoreExamples.paged_bugs Examples.test_repo
              3 "urgent"%string 5%nat _ Hret) as (_ & _ & Hnone).
  exact (proj2 (Hnone eq_refl)).
Defined.

(* ================================================================= *)
(** * pull-requests.ts *)

(** X8: given at least one label, [findPullRequestsByLabels] issues a
    single [pulls.list] request, without a page number and for
    [min(limit * 2, 100)] pull requests, and throws on what that request is
    rejected with.  It returns the pull requests of that one page that
    carry every label, in page order, cut by [slice(0, limit)]; it never
    looks at a second page. *)
Theorem X8_findPullRequestsByLabels_single_page api repo options :
  let limit := Js.default (PullRequests.o_limit options) 30 in
  let rq := {| pl_repo := repo;
               pl_state := Js.default (PullRequests.o_state options) StOpen;
               pl_sort := Some (Js.default (PullRequests.o_sort options) SortCreated);
               pl_direction := Some (Js.default (PullRequests.o_direction options) Desc);
               pl_per_page := Z.min (limit * 2) 100;
               pl_page := None |} in
  let carries_all pr := has_every_label (PullRequests.o_labels options) (label_names pr) in
  let res := run (PullRequests.findPullRequestsByLabels api repo options) in
  PullRequests.o_labels options <> [] ->
  requests (snd res) = [rq] /\
  (forall e, api 0%nat rq = Rejected e -> fst res = Throw e) /\
  (forall page, api 0%nat rq = Resolved page ->
     fst res = Return (Js.slice 0 limit (filter carries_all page)) /\
     (0 <= limit ->
      fst res = Return (firstn (Z.to_nat limit) (filter carries_all page)))) /\
  (forall r pr, fst res = Return r -> In pr r ->
     forall l, In l (PullRequests.o_labels options) -> In (Some l) (label_names pr)).
Proof.
  intros limit rq carries_all res Hne.
  assert (Hrun : res =
    (match api 0%nat rq with
     | Resolved page => Return (Js.slice 0 limit (filter carries_all page))
     | Rejected e => Throw e
     end,
     Info ("Searching for PRs with labels: "
             ++ Js.join ", " (PullRequests.o_labels options))%string
       :: Call rq (api 0%nat rq)
       :: match api 0%nat rq with
          | Resolved page =>
              [Info ("Found "
                       ++ Js.number_to_string (Js.len (filter carries_all page))
                       ++ " PRs matching label criteria")%string]
          | Rejected _ => []
          end)).
  { subst res. unfold run, PullRequests.findPullRequestsByLabels.
    unfold PullRequests.f_labels.
    destruct (Js.len (PullRequests.o_labels options) =? 0) eqn:E0.
    { apply Z.eqb_eq, len_zero_nil in E0. contradiction. }
    unfold bind, info, request, ret.
    unfold PullRequests.f_limit, PullRequests.f_state, PullRequests.f_sort,
      PullRequests.f_direction.
    cbv beta iota zeta.
    change (calls_made ([] ++ [Info _])) with 0%nat.
    fold limit. fold rq.
    destruct (api 0%nat rq) as [page | e]; reflexivity. }
  rewrite Hrun. cbn [fst snd]. split; [| split; [| split]].
  - now destruct (api 0%nat rq).
  - now intros e ->.
  - intros page ->. split; [reflexivity |].
    intros Hl. now rewrite slice_firstn.
  - intros r pr Hret Hin.
    destruct (api 0%nat rq) as [page | e]; [| discriminate].
    injection Hret as <-. apply in_slice, filter_In in Hin as [_ Hall].
    now apply has_every_label_spec.
Qed.

Lemma X8_findPullRequestsByLabels_single_page_witness :
  let res := run (PullRequests.findPullRequestsByLabels
                    MoreExamples.paged_bugs Examples.test_repo
                    MoreExamples.two_urgent_bugs) in
  map pl_per_page (requests (snd res)) = [4] /\
  fst res = Return [Examples.labelled 3 ["bug"; "urgent"]%string].
Proof.
  intros res.
  destruct (X8_findPullRequestsByLabels_single_page
              MoreExamples.paged_bugs Examples.test_repo MoreExamples.two_urgent_bugs)
    as (Hrq & _ & Hpage & _); [discriminate |].
  fold res in Hrq, Hpage. split; [now rewrite Hrq |].
  destruct (Hpage MoreExamples.bugs eq_refl) as [_ Hfirst].
  rewrite Hfirst; [reflexivity | simpl; lia].
Defined.

(** X9: [addLabelsToPullRequest] issues no request for an empty [labels]
    array.  Otherwise it issues exactly one [issues.addLabels] request
    carrying all the labels, and a rejection of that request is thrown on
    whatever its status: a 404 is not swallowed here. *)
Theorem X9_addLabelsToPullRequest (Answer : Type)
    (api : endpoint PullRequestLabels.AddLabelsParams Answer) repo pullNumber labels :
  let rq := {| PullRequestLabels.a_repo := repo;
               PullRequestLabels.a_issue_number := pullNumber;
               PullRequestLabels.a_labels := labels |} in
  let res := run (PullRequestLabels.addLabelsToPullRequest
                    Answer api repo pullNumber labels) in
  (labels = [] ->
   res = (Return tt, [Info "No labels to add"])) /\
  (labels <> [] ->
   requests (snd res) = [rq] /\
   (forall data, api 0%nat rq = Resolved data -> fst res = Return tt) /\
   (forall e, api 0%nat rq = Rejected e -> fst res = Throw e)).
Proof.
  intros rq res. split.
  - intros ->. reflexivity.
  - intros Hne. subst res.
    unfold run, PullRequestLabels.addLabelsToPullRequest.
    destruct (Js.len labels =? 0) eqn:E0.
    { apply Z.eqb_eq, len_zero_nil in E0. contradiction. }
    unfold bind, info, request, ret. cbv beta iota zeta.
    change (calls_made ([] ++ [Info _])) with 0%nat. fold rq.
    destruct (api 0%nat rq) as [data | e]; cbn [fst snd];
      (split; [reflexivity |]); split; intros x Hx; congruence.
Qed.

Lemma X9_addLabelsToPullRequest_witness :
  fst (run (PullRequestLabels.addLabelsToPullRequest unit
              MoreExamples.labels_added Examples.test_repo 123
              ["bug"; "urgent"]%string)) = Return tt /\
  fst (run (PullRequestLabels.addLabelsToPullRequest unit
              MoreExamples.no_such_issue Examples.test_repo 123
              ["bug"]%string)) = Throw MoreExamples.not_found.
Proof.
  split.
  - apply (proj2 (X9_addLabelsToPullRequest unit MoreExamples.labels_added
                    Examples.test_repo 123 ["bug"; "urgent"]%string)
             ltac:(discriminate)) with (data := tt).
    reflexivity.
  - apply (proj2 (X9_addLabelsToPullRequest unit MoreExamples.no_such_issue
                    Examples.test_repo 123 ["bug"]%string)
             ltac:(discriminate)).
    reflexivity.
Defined.

Lemma pullRequestHasLabels_run api repo pullNumber labels requireAll_arg :
  let rq := {| PullRequests.g_repo := repo;
               PullRequests.pull_number := pullNumber |} in
  run (PullRequests.pullRequestHasLabels api repo pullNumber labels requireAll_arg) =
  (match api 0%nat rq with
   | Resolved pr =>
       let prLabels := map PullRequests.name_of (labels_of pr) in
       Return (if Js.default requireAll_arg true
               then forallb (Js.includes_str prLabels) labels
               else existsb (Js.includes_str prLabels) labels)
   | Rejected e => Throw e
   end,
   [Info ("Getting pull request #" ++ Js.number_to_string pullNumber)%string;
    Call rq (api 0%nat rq)]).
Proof.
  intros rq.
  unfold run, PullRequests.pullRequestHasLabels, PullRequests.getPullRequest,
    bind, info, request, ret.
  cbv beta iota zeta.
  change (calls_made ([] ++ [Info _])) with 0%nat. fold rq.
  destruct (api 0%nat rq) as [pr | e]; [| reflexivity].
  now destruct (Js.default requireAll_arg true).
Qed.

(** X10: [pullRequestHasLabels] issues one [pulls.get] request and throws
    on what it is rejected with.  On the pull request received it answers
    [true], with [requireAll] true or left out, exactly when every label
    asked for is the name of one of its labels, and with [requireAll] false
    exactly when some label asked for is.  For a non-empty [labels] array
    having all implies having any. *)
Theorem X10_pullRequestHasLabels api repo pullNumber labels :
  let rq := {| PullRequests.g_repo := repo;
               PullRequests.pull_number := pullNumber |} in
  let has requireAll_arg :=
    run (PullRequests.pullRequestHasLabels api repo pullNumber labels requireAll_arg) in
  (forall requireAll_arg, requests (snd (has requireAll_arg)) = [rq]) /\
  (forall e requireAll_arg,
      api 0%nat rq = Rejected e -> fst (has requireAll_arg) = Throw e) /\
  (forall pr, api 0%nat rq = Resolved pr ->
     let names := map PullRequests.name_of (labels_of pr) in
     (exists b, fst (has None) = Return b /\ fst (has (Some true)) = Return b /\
                (b = true <-> forall l, In l labels -> In (Some l) names)) /\
     (exists b, fst (has (Some false)) = Return b /\
                (b = true <-> exists l, In l labels /\ In (Some l) names)) /\
     (labels <> [] ->
      fst (has (Some true)) = Return true -> fst (has (Some false)) = Return true)).
Proof.
  intros rq has. subst has. cbv beta.
  split; [| split].
  - intros arg. now rewrite pullRequestHasLabels_run.
  - intros e arg He. rewrite pullRequestHasLabels_run. cbv zeta. fold rq.
    now rewrite He.
  - intros pr Hpr names.
    rewrite !pullRequestHasLabels_run. cbv zeta. fold rq. rewrite Hpr.
    fold names. cbn [fst Js.default].
    assert (Hall : forallb (Js.includes_str names) labels = true <->
                   forall l, In l labels -> In (Some l) names).
    { rewrite forallb_forall.
      split; intros H l Hl; apply includes_str_spec, H, Hl. }
    assert (Hany : existsb (Js.includes_str names) labels = true <->
                   exists l, In l labels /\ In (Some l) names).
    { rewrite existsb_exists.
      split; intros (l & Hl & H); exists l; (split; [exact Hl |]);
        now apply includes_str_spec. }
    split; [| split].
    + eexists. split; [reflexivity |]. split; [reflexivity | exact Hall].
    + eexists. split; [reflexivity | exact Hany].
    + intros Hne [= Htrue]. f_equal. apply Hany.
      destruct labels as [| l ls]; [contradiction |].
      exists l. split; [now left |]. apply (proj1 Hall Htrue). now left.
Qed.

Lemma X10_pullRequestHasLabels_witness :
  let has labels requireAll_arg :=
    fst (run (PullRequests.pullRequestHasLabels MoreExamples.pr_7
                Examples.test_repo 7 labels requireAll_arg)) in
  has ["bug"; "urgent"]%string None = Return false /\
  has ["bug"; "urgent"]%string (Some false) = Return true /\
  (has ["bug"]%string (Some true) = Return true ->
   has ["bug"]%string (Some false) = Return true).
Proof.
  intros has. split; [reflexivity |]. split; [reflexivity |].
  apply (proj2 (proj2 (X10_pullRequestHasLabels MoreExamples.pr_7
                         Examples.test_repo 7 ["bug"%string]))
           _ eq_refl).
  discriminate.
Defined.

(** X11: [getPullRequestFiles] issues one [pulls.listFiles] request, always
    for 100 files, and throws on what it is rejected with.  It returns one
    entry per file received, in the same order and with the same name,
    status and counts; the entry has a patch exactly when the file has a
    non-empty one, and then it is that patch. *)
Theorem X11_getPullRequestFiles api repo pullNumber :
  let rq := {| PullRequestLabels.f_repo := repo;
               PullRequestLabels.f_pull_number := pullNumber;
               PullRequestLabels.f_per_page := 100 |} in
  let res := run (PullRequestLabels.getPullRequestFiles api repo pullNumber) in
  requests (snd res) = [rq] /\
  (forall e, api 0%nat rq = Rejected e -> fst res = Throw e) /\
  (forall files, api 0%nat rq = Resolved files ->
     exists out,
       fst res = Return out /\
       List.length out = List.length files /\
       forall i file, nth_error files i = Some file ->
         exists entry,
           nth_error out i = Some entry /\
           PullRequestLabels.filename entry = PullRequestLabels.filename file /\
           PullRequestLabels.status entry = PullRequestLabels.status file /\
           PullRequestLabels.additions entry = PullRequestLabels.additions file /\
           PullRequestLabels.deletions entry = PullRequestLabels.deletions file /\
           PullRequestLabels.changes entry = PullRequestLabels.changes file /\
           (forall p, PullRequestLabels.patch entry = Some p <->
                      PullRequestLabels.patch file = Some p /\ p <> ""%string)).
Proof.
  intros rq res.
  assert (Hrun : res =
    (match api 0%nat rq with
     | Resolved files => Return (map PullRequestLabels.changed_file files)
     | Rejected e => Throw e
     end,
     [Info ("Getting files for PR #" ++ Js.number_to_string pullNumber)%string;
      Call rq (api 0%nat rq)])).
  { subst res. unfold run, PullRequestLabels.getPullRequestFiles,
      bind, info, request, ret.
    cbv beta iota zeta. change (calls_made ([] ++ [Info _])) with 0%nat. fold rq.
    now destruct (api 0%nat rq). }
  rewrite Hrun. cbn [fst snd]. split; [reflexivity |]. split.
  - now intros e ->.
  - intros files ->. eexists. split; [reflexivity |].
    split; [apply length_map |].
    intros i file Hfile. exists (PullRequestLabels.changed_file file).
    split; [now apply map_nth_error |].
    repeat (split; [reflexivity |]).
    intros p. unfold PullRequestLabels.changed_file, DeploymentUtils.spread_if.
    cbn [PullRequestLabels.patch].
    destruct (PullRequestLabels.patch file) as [[| c s] |]; simpl.
    + split; [discriminate | now intros [[= <-] H]].
    + split; [intros [= <-]; now split | now intros [H _]].
    + split; [discriminate | now intros [H _]].
Qed.

Lemma X11_getPullRequestFiles_witness :
  exists out,
    fst (run (PullRequestLabels.getPullRequestFiles
                MoreExamples.files_api Examples.test_repo 123)) = Return out /\
    map PullRequestLabels.patch out = [Some "@@ -1,3 +1,4 @@"%string; None; None].
Proof.
  destruct (proj2 (proj2 (X11_getPullRequestFiles
                            MoreExamples.files_api Examples.test_repo 123))
              MoreExamples.three_files eq_refl) as (out & Hret & _).
  exists (map PullRequestLabels.changed_file MoreExamples.three_files).
  split; reflexivity.
Defined.

(* ================================================================= *)
(** * Sticky comments *)

Lemma prefix_app (m rest : string) : String.prefix m (m ++ rest)%string = true.
Proof.
  induction m as [| a m IH]; simpl; [now destruct rest |].
  destruct (ascii_dec a a) as [_ | Hne]; [exact IH | now contradiction Hne].
Qed.

Lemma str_includes_of_prefix (s m : string) :
  String.prefix m s = true -> Js.str_includes s m = true.
Proof. destruct s; simpl; now intros ->. Qed.

Lemma str_includes_prefix (m rest : string) :
  Js.str_includes (m ++ rest)%string m = true.
Proof. apply str_includes_of_prefix, prefix_app. Qed.

(** [Array.prototype.find] gives the first element that passes the test. *)
Lemma find_first {A} (p : A -> bool) (l : list A) (x : A) :
  find p l = Some x <->
  exists pre post,
    l = pre ++ x :: post /\ p x = true /\ forall y, In y pre -> p y = false.
Proof.
  induction l as [| a l IH]; simpl.
  - split; [discriminate | intros (pre & post & H & _); now destruct pre].
  - destruct (p a) eqn:Ea.
    + split.
      * intros [= <-]. exists [], l. repeat split; [exact Ea | contradiction].
      * intros (pre & post & H & Hx & Hpre).
        destruct pre as [| b pre]; simpl in H; injection H as <- _; [reflexivity |].
        rewrite (Hpre a) in Ea by now left. discriminate Ea.
    + rewrite IH. split.
      * intros (pre & post & -> & Hx & Hpre). exists (a :: pre), post.
        repeat split; [exact Hx |]. intros y [<- | Hy]; [exact Ea | now apply Hpre].
      * intros (pre & post & H & Hx & Hpre).
        destruct pre as [| b pre]; simpl in H; injection H as <- H.
        -- congruence.
        -- exists pre, post. repeat split; try assumption.
           intros y Hy. apply Hpre. now right.
Qed.

Section StickyRuns.
Variable client : StickyComments.Client.
Variable repo : RepoInfo.
Variable issueNumber : Z.

Local Abbreviation lrq := (lookup_request repo issueNumber).

Lemma findCommentByIdentifier_at identifier tr :
  StickyComments.findCommentByIdentifier client repo issueNumber identifier tr =
  (match StickyComments.listComments client (calls_made tr) lrq with
   | Resolved cs =>
       Return (find (StickyComments.carries_marker
                       (StickyComments.identifierMarker identifier)) cs)
   | Rejected e => Throw e
   end,
   tr ++ [Call (StickyComments.ListComments lrq)
            (settled_map StickyComments.CommentList
               (StickyComments.listComments client (calls_made tr) lrq))]).
Proof.
  unfold StickyComments.findCommentByIdentifier, bind, request_via, ret.
  cbv zeta. fold lrq.
  now destruct (StickyComments.listComments client (calls_made tr) lrq).
Qed.

(** Creating a new sticky comment, from a trace with [n] requests. *)
Lemma create_new_at identifier text tr :
  let crq := {| StickyComments.c_repo := repo;
                StickyComments.c_issue_number := issueNumber;
                StickyComments.c_body := sticky_body identifier text |} in
  let answer := StickyComments.createComment client (calls_made tr) crq in
  (info ("Creating new sticky comment with identifier: " ++ identifier)%string ;;
   let* newComment :=
     request_via StickyComments.CreateComment StickyComments.OneComment
       (StickyComments.createComment client) crq in
   ret newComment) tr =
  (settled_outcome answer,
   tr ++ [Info ("Creating new sticky comment with identifier: " ++ identifier)%string;
          Call (StickyComments.CreateComment crq)
            (settled_map StickyComments.OneComment answer)]).
Proof.
  intros crq answer. subst answer.
  unfold bind, info, request_via, ret. cbv beta iota zeta.
  rewrite calls_made_app. change (calls_made [Info _]) with 0%nat.
  rewrite Nat.add_0_r, <- app_assoc.
  now destruct (StickyComments.createComment client (calls_made tr) crq).
Qed.
End StickyRuns.

(** X12: [findCommentByIdentifier] issues one [listComments] request, for
    100 comments, and throws on what it is rejected with.  On the page
    received it returns the first comment whose body contains the marker of
    the identifier, and [null] exactly when no comment of the page does. *)
Theorem X12_findCommentByIdentifier client repo issueNumber identifier :
  let marker := StickyComments.identifierMarker identifier in
  let rq := lookup_request repo issueNumber in
  let res := run (StickyComments.findCommentByIdentifier
                    client repo issueNumber identifier) in
  requests (snd res) = [StickyComments.ListComments rq] /\
  (forall e, StickyComments.listComments client 0%nat rq = Rejected e ->
             fst res = Throw e) /\
  (forall cs, StickyComments.listComments client 0%nat rq = Resolved cs ->
     (forall c, fst res = Return (Some c) <->
        exists pre post,
          cs = pre ++ c :: post /\
          StickyComments.carries_marker marker c = true /\
          forall y, In y pre -> StickyComments.carries_marker marker y = false) /\
     (fst res = Return None <->
        forall y, In y cs -> StickyComments.carries_marker marker y = false)).
Proof.
  intros marker rq res. subst res. unfold run.
  rewrite findCommentByIdentifier_at. change (calls_made []) with 0%nat.
  fold rq. fold marker. cbn [fst snd].
  split; [reflexivity |]. split.
  - now intros e ->.
  - intros cs ->. split.
    + intros c. rewrite <- find_first. split; congruence.
    + split.
      * intros [= Hnone] y Hy. exact (find_none _ _ Hnone y Hy).
      * intros Hall. f_equal.
        destruct (find (StickyComments.carries_marker marker) cs) as [c |] eqn:E;
          [| reflexivity].
        apply find_some in E as [Hin Hc]. rewrite (Hall c Hin) in Hc. discriminate.
Qed.

Lemma X12_findCommentByIdentifier_witness :
  exists c,
    fst (run (StickyComments.findCommentByIdentifier
                MoreExamples.thread_client Examples.test_repo 5 "build"))
      = Return (Some c) /\
    Comments.id c = 12.
Proof.
  destruct (nth_error MoreExamples.thread 1) as [c |] eqn:Hc; [| discriminate].
  exists c. split.
  - apply (proj1 (proj2 (proj2 (X12_findCommentByIdentifier
                                  MoreExamples.thread_client Examples.test_repo
                                  5 "build"))
                   MoreExamples.thread eq_refl) c).
    exists [Examples.comment 11 "first!" "alice" "1000"],
           [Examples.comment 13 "thanks" "bob" "3000"].
    injection Hc as <-. split; [reflexivity |]. split; [reflexivity |].
    intros y [<- | []]. reflexivity.
  - now injection Hc as <-.
Defined.

Lemma createStickyComment_run client repo issueNumber options :
  let identifier := StickyComments.identifier options in
  let fullBody := sticky_body identifier (StickyComments.o_body options) in
  let lrq := lookup_request repo issueNumber in
  let crq := {| StickyComments.c_repo := repo;
                StickyComments.c_issue_number := issueNumber;
                StickyComments.c_body := fullBody |} in
  let listed := StickyComments.listComments client 0%nat lrq in
  let created n := StickyComments.createComment client n crq in
  let creating :=
    Info ("Creating new sticky comment with identifier: " ++ identifier)%string in
  run (StickyComments.createStickyComment client repo issueNumber options) =
  if Js.default (StickyComments.updateIfExists options) true then
    match listed with
    | Rejected e =>
        (Throw e, [Call (StickyComments.ListComments lrq) (Rejected e)])
    | Resolved cs =>
        match find (StickyComments.carries_marker
                      (StickyComments.identifierMarker identifier)) cs with
        | Some existing =>
            let urq := {| StickyComments.u_repo := repo;
                          StickyComments.u_comment_id := Comments.id existing;
                          StickyComments.u_body := fullBody |} in
            (settled_outcome (StickyComments.updateComment client 1%nat urq),
             [Call (StickyComments.ListComments lrq)
                (Resolved (StickyComments.CommentList cs));
              Info ("Updating existing sticky comment " ++ identifier
                      ++ " (ID: " ++ Js.number_to_string (Comments.id existing)
                      ++ ")")%string;
              Call (StickyComments.UpdateComment urq)
                (settled_map StickyComments.OneComment
                   (StickyComments.updateComment client 1%nat urq))])
        | None =>
            (settled_outcome (created 1%nat),
             [Call (StickyComments.ListComments lrq)
                (Resolved (StickyComments.CommentList cs));
              creating;
              Call (StickyComments.CreateComment crq)
                (settled_map StickyComments.OneComment (created 1%nat))])
        end
    end
  else
    (settled_outcome (created 0%nat),
     [creating;
      Call (StickyComments.CreateComment crq)
        (settled_map StickyComments.OneComment (created 0%nat))]).
Proof.
  intros identifier fullBody lrq crq listed created creating.
  unfold run, StickyComments.createStickyComment. cbv zeta.
  fold identifier. fold (sticky_body identifier (StickyComments.o_body options)).
  fold fullBody. fold crq.
  destruct (Js.default (StickyComments.updateIfExists options) true).
  - unfold bind at 1. rewrite findCommentByIdentifier_at.
    change (calls_made []) with 0%nat. fold lrq. fold listed.
    destruct listed as [cs | e]; [| reflexivity].
    cbn [settled_map app].
    destruct (find _ cs) as [existing |].
    + unfold bind, info, request_via, ret. cbv beta iota zeta.
      cbn [app]. change (calls_made [Call _ _; Info _]) with 1%nat.
      now destruct (StickyComments.updateComment client 1%nat _).
    + exact (create_new_at client repo issueNumber identifier
               (StickyComments.o_body options)
               [Call (StickyComments.ListComments lrq)
                  (Resolved (StickyComments.CommentList cs))]).
  - exact (create_new_at client repo issueNumber identifier
             (StickyComments.o_body options) []).
Qed.

(** X13: [createStickyComment] writes the marker of the identifier, a line
    break and the text, through exactly one request.  With
    [updateIfExists] false it creates a comment without looking anything
    up.  Otherwise it first lists the comments: when that request is
    rejected it throws and writes nothing; when a comment of the page
    carries the marker it updates the first such comment and creates none;
    when none does it creates one. *)
Theorem X13_createStickyComment_writes_once client repo issueNumber options :
  let identifier := StickyComments.identifier options in
  let marker := StickyComments.identifierMarker identifier in
  let fullBody := (marker ++ newline ++ StickyComments.o_body options)%string in
  let lrq := lookup_request repo issueNumber in
  let crq := {| StickyComments.c_repo := repo;
                StickyComments.c_issue_number := issueNumber;
                StickyComments.c_body := fullBody |} in
  let urq existing := {| StickyComments.u_repo := repo;
                         StickyComments.u_comment_id := Comments.id existing;
                         StickyComments.u_body := fullBody |} in
  let res := run (StickyComments.createStickyComment client repo issueNumber options) in
  (StickyComments.updateIfExists options = Some false ->
   requests (snd res) = [StickyComments.CreateComment crq] /\
   fst res = settled_outcome (StickyComments.createComment client 0%nat crq)) /\
  (StickyComments.updateIfExists options <> Some false ->
   (forall e, StickyComments.listComments client 0%nat lrq = Rejected e ->
      requests (snd res) = [StickyComments.ListComments lrq] /\
      fst res = Throw e) /\
   (forall cs existing,
      StickyComments.listComments client 0%nat lrq = Resolved cs ->
      find (StickyComments.carries_marker marker) cs = Some existing ->
      requests (snd res) = [StickyComments.ListComments lrq;
                            StickyComments.UpdateComment (urq existing)] /\
      fst res = settled_outcome
                  (StickyComments.updateComment client 1%nat (urq existing))) /\
   (forall cs,
      StickyComments.listComments client 0%nat lrq = Resolved cs ->
      find (StickyComments.carries_marker marker) cs = None ->
      requests (snd res) = [StickyComments.ListComments lrq;
                            StickyComments.CreateComment crq] /\
      fst res = settled_outcome (StickyComments.createComment client 1%nat crq))).
Proof.
  intros identifier marker fullBody lrq crq urq res. subst res.
  rewrite createStickyComment_run. cbv zeta.
  fold identifier. fold marker. fold lrq.
  change (sticky_body identifier (StickyComments.o_body options)) with fullBody.
  fold crq. split.
  - intros ->. cbn [Js.default]. now split.
  - intros Hupdate.
    assert (Hyes : Js.default (StickyComments.updateIfExists options) true = true).
    { destruct (StickyComments.updateIfExists options) as [[|] |];
        [reflexivity | now contradiction Hupdate | reflexivity]. }
    rewrite Hyes. split; [| split].
    + intros e ->. now split.
    + intros cs existing -> ->. now split.
    + intros cs -> ->. now split.
Qed.

Lemma X13_createStickyComment_writes_once_witness :
  let res := run (StickyComments.createStickyComment
                    MoreExamples.thread_client Examples.test_repo 5
                    (MoreExamples.build_report "Build 42 passed")) in
  requests (snd res) =
    [StickyComments.ListComments (lookup_request Examples.test_repo 5);
     StickyComments.UpdateComment
       {| StickyComments.u_repo := Examples.test_repo;
          StickyComments.u_comment_id := 12;
          StickyComments.u_body := sticky_body "build" "Build 42 passed" |}].
Proof.
  intros res.
  destruct (nth_error MoreExamples.thread 1) as [c |] eqn:Hc; [| discriminate].
  injection Hc as Hc.
  destruct (proj2 (X13_createStickyComment_writes_once
                     MoreExamples.thread_client Examples.test_repo 5
                     (MoreExamples.build_report "Build 42 passed"))
              ltac:(discriminate)) as (_ & Hupdate & _).
  destruct (Hupdate MoreExamples.thread c eq_refl) as [Hrq _].
  - now rewrite <- Hc.
  - fold res in Hrq. rewrite Hrq, <- Hc. reflexivity.
Defined.

(** X14: a body written by [createStickyComment] is recognised by the
    lookup for the same identifier, whatever the text.  So when the page
    listed holds a comment written earlier for the identifier,
    [createStickyComment] (with [updateIfExists] not false) updates a
    comment of that page carrying the marker and creates no second one. *)
Theorem X14_sticky_comment_is_found_again :
  (forall identifier text c,
      Comments.body c = Some (sticky_body identifier text) ->
      StickyComments.carries_marker (StickyComments.identifierMarker identifier) c
      = true) /\
  (forall client repo issueNumber options cs earlier text,
      let identifier := StickyComments.identifier options in
      let res := run (StickyComments.createStickyComment
                        client repo issueNumber options) in
      StickyComments.updateIfExists options <> Some false ->
      StickyComments.listComments client 0%nat (lookup_request repo issueNumber)
        = Resolved cs ->
      In earlier cs ->
      Comments.body earlier = Some (sticky_body identifier text) ->
      exists existing,
        In existing cs /\
        StickyComments.carries_marker
          (StickyComments.identifierMarker identifier) existing = true /\
        requests (snd res) =
          [StickyComments.ListComments (lookup_request repo issueNumber);
           StickyComments.UpdateComment
             {| StickyComments.u_repo := repo;
                StickyComments.u_comment_id := Comments.id existing;
                StickyComments.u_body :=
                  sticky_body identifier (StickyComments.o_body options) |}]).
Proof.
  assert (Hfound : forall identifier text c,
             Comments.body c = Some (sticky_body identifier text) ->
             StickyComments.carries_marker
               (StickyComments.identifierMarker identifier) c = true).
  { intros identifier text c Hbody.
    unfold StickyComments.carries_marker. rewrite Hbody.
    apply str_includes_prefix. }
  split; [exact Hfound |].
  intros client repo issueNumber options cs earlier text identifier res
         Hupdate Hlist Hin Hbody.
  subst res. rewrite createStickyComment_run. cbv zeta. fold identifier.
  assert (Hyes : Js.default (StickyComments.updateIfExists options) true = true).
  { destruct (StickyComments.updateIfExists options) as [[|] |];
      [reflexivity | now contradiction Hupdate | reflexivity]. }
  rewrite Hyes, Hlist.
  destruct (find (StickyComments.carries_marker
                    (StickyComments.identifierMarker identifier)) cs)
    as [existing |] eqn:Efind.
  - apply find_some in Efind as [Hex Hcarries].
    exists existing. now repeat split.
  - pose proof (find_none _ _ Efind earlier Hin) as Hno.
    rewrite (Hfound identifier text earlier Hbody) in Hno. discriminate Hno.
Qed.

Lemma X14_sticky_comment_is_found_again_witness :
  exists existing,
    In existing MoreExamples.thread /\
    requests (snd (run (StickyComments.createStickyComment
                          MoreExamples.thread_client Examples.test_repo 5
                          (MoreExamples.build_report "Build 42 passed")))) =
    [StickyComments.ListComments (lookup_request Examples.test_repo 5);
     StickyComments.UpdateComment
       {| StickyComments.u_repo := Examples.test_repo;
          StickyComments.u_comment_id := Comments.id existing;
          StickyComments.u_body := sticky_body "build" "Build 42 passed" |}].
Proof.
  destruct (nth_error MoreExamples.thread 1) as [c |] eqn:Hc; [| discriminate].
  injection Hc as Hc.
  destruct (proj2 X14_sticky_comment_is_found_again
              MoreExamples.thread_client Examples.test_repo 5
              (MoreExamples.build_report "Build 42 passed")
              MoreExamples.thread c "Build 41 passed"%string)
    as (existing & Hin & _ & Hrq).
  - discriminate.
  - reflexivity.
  - rewrite <- Hc. right. now left.
  - now rewrite <- Hc.
  - exists existing. now split.
Defined.

(** X15: [deleteStickyComment] looks the comment up with one [listComments]
    request.  When no comment of the page carries the marker it returns
    [false] and deletes nothing.  When one does, it issues one
    [deleteComment] request, for the first such comment, and returns [true]
    if that request resolves; a rejected request, lookup or deletion, is
    thrown on. *)
Theorem X15_deleteStickyComment client repo issueNumber identifier :
  let marker := StickyComments.identifierMarker identifier in
  let lrq := lookup_request repo issueNumber in
  let drq existing := {| StickyComments.d_repo := repo;
                         StickyComments.d_comment_id := Comments.id existing |} in
  let res := run (StickyComments.deleteStickyComment
                    client repo issueNumber identifier) in
  (forall e, StickyComments.listComments client 0%nat lrq = Rejected e ->
     requests (snd res) = [StickyComments.ListComments lrq] /\ fst res = Throw e) /\
  (forall cs,
     StickyComments.listComments client 0%nat lrq = Resolved cs ->
     find (StickyComments.carries_marker marker) cs = None ->
     requests (snd res) = [StickyComments.ListComments lrq] /\
     fst res = Return false) /\
  (forall cs existing,
     StickyComments.listComments client 0%nat lrq = Resolved cs ->
     find (StickyComments.carries_marker marker) cs = Some existing ->
     requests (snd res) = [StickyComments.ListComments lrq;
                           StickyComments.DeleteComment (drq existing)] /\
     fst res =
       match StickyComments.issues_deleteComment client 1%nat (drq existing) with
       | Resolved _ => Return true
       | Rejected e => Throw e
       end).
Proof.
  intros marker lrq drq res.
  assert (Hrun : res =
    match StickyComments.listComments client 0%nat lrq with
    | Rejected e =>
        (Throw e, [Call (StickyComments.ListComments lrq) (Rejected e)])
    | Resolved cs =>
        match find (StickyComments.carries_marker marker) cs with
        | Some existing =>
            (match StickyComments.issues_deleteComment client 1%nat (drq existing) with
             | Resolved _ => Return true
             | Rejected e => Throw e
             end,
             [Call (StickyComments.ListComments lrq)
                (Resolved (StickyComments.CommentList cs));
              Info ("Deleting comment ID: "
                      ++ Js.number_to_string (Comments.id existing))%string;
              Call (StickyComments.DeleteComment (drq existing))
                (settled_map (fun _ : unit => StickyComments.NoData)
                   (StickyComments.issues_deleteComment client 1%nat (drq existing)))])
        | None =>
            (Return false,
             [Call (StickyComments.ListComments lrq)
                (Resolved (StickyComments.CommentList cs));
              Info ("Sticky comment with identifier '" ++ identifier
                      ++ "' not found")%string])
        end
    end).
  { subst res. unfold run, StickyComments.deleteStickyComment. unfold bind at 1.
    rewrite findCommentByIdentifier_at. change (calls_made []) with 0%nat.
    fold lrq. fold marker.
    destruct (StickyComments.listComments client 0%nat lrq) as [cs | e];
      [| reflexivity].
    cbn [settled_map app].
    destruct (find (StickyComments.carries_marker marker) cs) as [existing |];
      [| reflexivity].
    unfold StickyComments.deleteComment, bind, info, request_via, ret.
    cbv beta iota zeta. cbn [app].
    change (calls_made [Call _ _; Info _]) with 1%nat. fold (drq existing).
    now destruct (StickyComments.issues_deleteComment client 1%nat (drq existing)). }
  rewrite Hrun. split; [| split].
  - intros e ->. now split.
  - intros cs -> ->. now split.
  - intros cs existing -> ->. now split.
Qed.

Lemma X15_deleteStickyComment_witness :
  let gone := run (StickyComments.deleteStickyComment
                     MoreExamples.thread_client Examples.test_repo 5 "build") in
  let absent := run (StickyComments.deleteStickyComment
                       MoreExamples.thread_client Examples.test_repo 5 "deploy") in
  fst gone = Return true /\
  fst absent = Return false /\
  requests (snd absent) =
    [StickyComments.ListComments (lookup_request Examples.test_repo 5)].
Proof.
  intros gone absent. split.
  - destruct (nth_error MoreExamples.thread 1) as [c |] eqn:Hc; [| discriminate].
    injection Hc as Hc.
    destruct (proj2 (proj2 (X15_deleteStickyComment
                              MoreExamples.thread_client Examples.test_repo 5 "build"))
                MoreExamples.thread c eq_refl) as [_ Hret].
    + now rewrite <- Hc.
    + exact Hret.
  - destruct (proj1 (proj2 (X15_deleteStickyComment
                              MoreExamples.thread_client Examples.test_repo 5 "deploy"))
                MoreExamples.thread eq_refl eq_refl) as [Hrq Hret].
    now split.
Defined.

(* ================================================================= *)
(** * Deleting a deployment *)

(** X16: [deleteDeployment] first asks for the status [inactive], with no
    description, target or environment, and only when that request has
    resolved asks for the deletion.  When the status request is rejected
    it throws what it was rejected with and the deployment is never asked
    to be deleted. *)
Theorem X16_deleteDeployment_retires_first client repo deploymentId :
  let srq := {| DeploymentLifecycle.cs_repo := repo;
                DeploymentLifecycle.cs_deployment_id := deploymentId;
                DeploymentLifecycle.cs_state := DeploymentLifecycle.StateInactive;
                DeploymentLifecycle.cs_description := None;
                DeploymentLifecycle.cs_target_url := None;
                DeploymentLifecycle.cs_environment := None |} in
  let drq := {| DeploymentLifecycle.d_repo := repo;
                DeploymentLifecycle.d_deployment_id := deploymentId |} in
  let res := run (DeploymentLifecycle.deleteDeployment client repo deploymentId) in
  (forall e,
      DeploymentLifecycle.createDeploymentStatus client 0%nat srq = Rejected e ->
      fst res = Throw e /\
      requests (snd res) = [DeploymentLifecycle.CreateStatus srq]) /\
  (forall s,
      DeploymentLifecycle.createDeploymentStatus client 0%nat srq = Resolved s ->
      requests (snd res) = [DeploymentLifecycle.CreateStatus srq;
                            DeploymentLifecycle.DeleteDeployment drq] /\
      fst res = settled_outcome
                  (DeploymentLifecycle.repos_deleteDeployment client 1%nat drq)) /\
  (forall pre p rs post,
      snd res = pre ++ Call (DeploymentLifecycle.DeleteDeployment p) rs :: post ->
      exists s, pre = [Call (DeploymentLifecycle.CreateStatus srq)
                         (Resolved (DeploymentLifecycle.StatusData s))]).
Proof.
  intros srq drq res.
  assert (Hrun : res =
    match DeploymentLifecycle.createDeploymentStatus client 0%nat srq with
    | Rejected e =>
        (Throw e, [Call (DeploymentLifecycle.CreateStatus srq) (Rejected e)])
    | Resolved s =>
        (settled_outcome (DeploymentLifecycle.repos_deleteDeployment client 1%nat drq),
         [Call (DeploymentLifecycle.CreateStatus srq)
            (Resolved (DeploymentLifecycle.StatusData s));
          Call (DeploymentLifecycle.DeleteDeployment drq)
            (settled_map (fun _ : unit => DeploymentLifecycle.NoData)
               (DeploymentLifecycle.repos_deleteDeployment client 1%nat drq))])
    end).
  { subst res.
    unfold run, DeploymentLifecycle.deleteDeployment,
      DeploymentLifecycle.setDeploymentStatus, bind, request_via, ret.
    cbv beta iota zeta. change (calls_made []) with 0%nat.
    change (DeploymentUtils.spread_if None) with (@None string). fold srq.
    destruct (DeploymentLifecycle.createDeploymentStatus client 0%nat srq)
      as [s | e]; [| reflexivity].
    cbn [settled_map app]. change (calls_made [Call _ _]) with 1%nat. fold drq.
    now destruct (DeploymentLifecycle.repos_deleteDeployment client 1%nat drq)
      as [[] | e]. }
  rewrite Hrun. split; [| split].
  - intros e ->. now split.
  - intros s ->. now split.
  - intros pre p rs post.
    destruct (DeploymentLifecycle.createDeploymentStatus client 0%nat srq)
      as [s | e]; cbn [snd]; intros H.
    + exists s. destruct pre as [| ev [| ev' pre]]; simpl in H.
      * discriminate H.
      * now injection H as <-.
      * injection H as _ _ H. now destruct pre.
    + destruct pre as [| ev pre]; simpl in H; [discriminate H |].
      injection H as _ H. now destruct pre.
Qed.

Lemma X16_deleteDeployment_retires_first_witness :
  let locked := run (DeploymentLifecycle.deleteDeployment
                       MoreExamples.status_locked Examples.test_repo 9) in
  let gone := run (DeploymentLifecycle.deleteDeployment
                     MoreExamples.deletable Examples.test_repo 9) in
  (fst locked = Throw MoreExamples.server_error /\
   List.length (requests (snd locked)) = 1%nat) /\
  (fst gone = Return tt /\ List.length (requests (snd gone)) = 2%nat).
Proof.
  intros locked gone. split.
  - destruct (proj1 (X16_deleteDeployment_retires_first
                       MoreExamples.status_locked Examples.test_repo 9)
                MoreExamples.server_error eq_refl) as [Hthrow Hrq].
    fold locked in Hthrow, Hrq. split; [exact Hthrow | now rewrite Hrq].
  - destruct (proj1 (proj2 (X16_deleteDeployment_retires_first
                              MoreExamples.deletable Examples.test_repo 9))
                _ eq_refl) as [Hrq Hret].
    fold gone in Hret, Hrq. split; [exact Hret | now rewrite Hrq].
Defined.

(* ================================================================= *)
(** * Text helpers *)

(** ** Lengths and prefixes *)

Lemma string_length_app (s1 s2 : string) :
  String.length (s1 ++ s2)%string = (String.length s1 + String.length s2)%nat.
Proof. induction s1 as [| c s1 IH]; simpl; [reflexivity | now rewrite IH]. Qed.

Lemma string_length_of_list (l : list ascii) :
  String.length (string_of_list_ascii l) = List.length l.
Proof. induction l as [| c l IH]; simpl; [reflexivity | now rewrite IH]. Qed.

Lemma list_length_of_string (s : string) :
  List.length (list_ascii_of_string s) = String.length s.
Proof. induction s as [| c s IH]; simpl; [reflexivity | now rewrite IH]. Qed.

Lemma prefix_firstn (n : nat) (s : string) :
  String.prefix (string_of_list_ascii (firstn n (list_ascii_of_string s))) s = true.
Proof.
  revert s. induction n as [| n IH]; intros s; [now destruct s |].
  destruct s as [| c s]; [reflexivity |].
  simpl. rewrite IH. now destruct (ascii_dec c c).
Qed.

(** What [slice(0, end)] keeps of a string. *)
Lemma text_slice_from_start (end_ : Z) (s : string) :
  let kept := if end_ <? 0 then Z.max (Text.len s + end_) 0
              else Z.min end_ (Text.len s) in
  Text.slice 0 end_ s
  = string_of_list_ascii (firstn (Z.to_nat kept) (list_ascii_of_string s)) /\
  Text.len (Text.slice 0 end_ s) = Z.max kept 0.
Proof.
  intros kept. unfold Text.slice, Js.slice.
  assert (Hlen : Js.len (list_ascii_of_string s) = Text.len s).
  { unfold Js.len, Text.len. now rewrite list_length_of_string. }
  rewrite Hlen. fold kept.
  assert (H0 : 0 <= Text.len s) by (unfold Text.len; lia).
  replace (0 <? 0) with false by reflexivity.
  rewrite (Z.min_l 0 (Text.len s)) by lia.
  rewrite Z.sub_0_r. cbn [Z.to_nat skipn]. split; [reflexivity |].
  unfold Text.len at 1. rewrite string_length_of_list, length_firstn.
  rewrite list_length_of_string.
  assert (kept <= Text.len s).
  { unfold kept. destruct (end_ <? 0) eqn:E; [apply Z.ltb_lt in E |]; lia. }
  unfold Text.len in *. lia.
Qed.

(** X17: [truncateText] returns a text that fits unchanged.  A longer text
    is cut to a prefix of itself followed by three dots.  With a
    [maxLength] of at least 3 the result is never longer than [maxLength],
    and a text that was cut has exactly that length; with a [maxLength]
    below 3 every text that has to be cut comes back longer than
    [maxLength]. *)
Theorem X17_truncateText_length text maxLength :
  let out := Utils.truncateText text maxLength in
  (Text.len text <= maxLength -> out = text) /\
  (maxLength < Text.len text ->
   exists kept, out = (kept ++ "...")%string /\ String.prefix kept text = true) /\
  (3 <= maxLength ->
   Text.len out <= maxLength /\
   (maxLength < Text.len text -> Text.len out = maxLength)) /\
  (maxLength < 3 -> maxLength < Text.len text -> maxLength < Text.len out).
Proof.
  intros out. unfold out, Utils.truncateText.
  destruct (text_slice_from_start (maxLength - 3) text) as [Hkept Hlen].
  cbv zeta in Hkept, Hlen.
  assert (Hcut : Text.len (Text.slice 0 (maxLength - 3) text ++ "...")%string
                 = Text.len (Text.slice 0 (maxLength - 3) text) + 3).
  { unfold Text.len. rewrite string_length_app. simpl String.length. lia. }
  assert (H0 : 0 <= Text.len text) by (unfold Text.len; lia).
  destruct (Text.len text <=? maxLength) eqn:E;
    [apply Z.leb_le in E | apply Z.leb_gt in E].
  - repeat split; intros; solve [lia | reflexivity].
  - split; [lia |]. split; [| split].
    + intros _. eexists. split; [reflexivity |].
      rewrite Hkept. apply prefix_firstn.
    + intros H3. rewrite Hcut, Hlen.
      destruct (maxLength - 3 <? 0) eqn:E3;
        [apply Z.ltb_lt in E3 | apply Z.ltb_ge in E3]; lia.
    + intros H3 _. rewrite Hcut, Hlen. lia.
Qed.

Lemma X17_truncateText_length_witness :
  let short := Utils.truncateText "Hello, World!" 10 in
  let long := Utils.truncateText "Hi" 1 in
  (Text.len short = 10 /\ short = "Hello, ...") /\
  (1 < Text.len long /\ long = "...").
Proof.
  intros short long. split.
  - split; [| reflexivity].
    apply (proj1 (proj2 (proj2 (X17_truncateText_length "Hello, World!" 10))));
      [lia | reflexivity].
  - split; [| reflexivity].
    apply (proj2 (proj2 (proj2 (X17_truncateText_length "Hi" 1))));
      [lia | reflexivity].
Defined.

(** ** Letters *)

Lemma upper_letter (c : ascii) :
  Text.is_upper c = true ->
  Text.is_word (Text.toLowerCase c) = true /\
  Text.is_lower (Text.toLowerCase c) = true /\
  Text.toUpperCase (Text.toLowerCase c) = c.
Proof.
  destruct c as [[] [] [] [] [] [] [] []]; vm_compute; intros H;
    first [discriminate H | repeat split].
Qed.

Lemma lower_letter (c : ascii) :
  Text.is_lower c = true ->
  Text.is_upper (Text.toUpperCase c) = true /\
  Text.toLowerCase (Text.toUpperCase c) = c.
Proof.
  destruct c as [[] [] [] [] [] [] [] []]; vm_compute; intros H;
    first [discriminate H | repeat split].
Qed.

Lemma upper_is_word (c : ascii) : Text.is_upper c = true -> Text.is_word c = true.
Proof. intros H. unfold Text.is_word. now rewrite H. Qed.

(** ** Case conversions *)

Section Separator.
Variable sep : ascii.

Lemma upper_after_pair (c w : ascii) (rest : string) :
  StringUtils.upper_after sep (String c (String w rest))
  = if (c =? sep)%char && Text.is_word w
    then String (Text.toUpperCase w) (StringUtils.upper_after sep rest)
    else String c (StringUtils.upper_after sep (String w rest)).
Proof. reflexivity. Qed.

Lemma lower_behind_empty (s : string) :
  StringUtils.lower_behind sep s = EmptyString -> s = EmptyString.
Proof.
  destruct s as [| c s]; [reflexivity |]. simpl.
  destruct (Text.is_upper c); discriminate.
Qed.

(** From camel case and back: sound when no separator of the input stands
    before a word character. *)
Lemma camel_there_and_back (s : string) :
  (forall pre w post,
      s = (pre ++ String sep (String w post))%string -> Text.is_word w = false) ->
  StringUtils.upper_after sep (StringUtils.lower_behind sep s) = s.
Proof.
  induction s as [| c rest IH]; intros Hfree; [reflexivity |].
  assert (Hrest : StringUtils.upper_after sep (StringUtils.lower_behind sep rest)
                  = rest).
  { apply IH. intros pre w post ->. apply (Hfree (String c pre) w post). reflexivity. }
  cbn [StringUtils.lower_behind].
  destruct (Text.is_upper c) eqn:Hup.
  - destruct (upper_letter c Hup) as (Hw & _ & Hback).
    rewrite upper_after_pair, Ascii.eqb_refl, Hw. cbn [andb].
    now rewrite Hback, Hrest.
  - destruct (StringUtils.lower_behind sep rest) as [| w tail] eqn:Hl.
    + apply lower_behind_empty in Hl. now subst rest.
    + rewrite upper_after_pair.
      assert (Hno : (c =? sep)%char && Text.is_word w = false).
      { destruct (c =? sep)%char eqn:Hc; [| reflexivity]. cbn [andb].
        apply Ascii.eqb_eq in Hc. subst c.
        destruct rest as [| d r]; [discriminate Hl |].
        pose proof (Hfree EmptyString d r eq_refl) as Hd.
        cbn [StringUtils.lower_behind] in Hl.
        destruct (Text.is_upper d) eqn:Hdu.
        - apply upper_is_word in Hdu. congruence.
        - now injection Hl as <- _. }
      rewrite Hno. now rewrite Hrest.
Qed.

(** To camel case and back: sound for an input without capitals in which
    a separator only stands before a word character that is a small
    letter. *)
Lemma camel_back_and_there (s : string) :
  (forall pre c post, s = (pre ++ String c post)%string -> Text.is_upper c = false) ->
  (forall pre w post,
      s = (pre ++ String sep (String w post))%string ->
      Text.is_word w = true -> Text.is_lower w = true) ->
  StringUtils.lower_behind sep (StringUtils.upper_after sep s) = s.
Proof.
  remember (String.length s) as n eqn:Hn.
  revert s Hn. induction n as [n IH] using lt_wf_ind. intros s -> Hsmall Hsep.
  destruct s as [| c [| w rest]]; [reflexivity | |].
  - cbn. now rewrite (Hsmall EmptyString c EmptyString eq_refl).
  - rewrite upper_after_pair.
    pose proof (Hsmall EmptyString c _ eq_refl) as Hc.
    destruct ((c =? sep)%char && Text.is_word w) eqn:Hpair.
    + apply andb_true_iff in Hpair as [Hcs Hw].
      apply Ascii.eqb_eq in Hcs. subst c.
      pose proof (Hsep EmptyString w rest eq_refl Hw) as Hlow.
      destruct (lower_letter w Hlow) as [Hup Hback].
      cbn [StringUtils.lower_behind]. rewrite Hup, Hback.
      rewrite (IH (String.length rest)); [reflexivity | simpl; lia | reflexivity | |].
      * intros pre c post ->. apply (Hsmall (String sep (String w pre)) c post).
        reflexivity.
      * intros pre w' post ->. apply (Hsep (String sep (String w pre)) w' post).
        reflexivity.
    + cbn [StringUtils.lower_behind]. rewrite Hc.
      rewrite (IH (String.length (String w rest))); [reflexivity | simpl; lia | reflexivity | |].
      * intros pre c' post E. apply (Hsmall (String c pre) c' post).
        simpl. now rewrite E.
      * intros pre w' post E. apply (Hsep (String c pre) w' post).
        simpl. now rewrite E.
Qed.

End Separator.

(** Decides a hypothesis about every way of cutting a given string. *)
Ltac scan pre H :=
  repeat (destruct pre as [| ? pre]; simpl in H;
          [ first [discriminate H | (injection H; intros; subst; reflexivity)]
          | first [discriminate H | injection H as _ H] ]).

(** X18: converting from camel case to snake case and back gives the input
    again whenever no underscore of the input stands before a word
    character (a letter, a digit or an underscore), so in particular for
    an input without underscores.  Likewise for kebab case and the
    hyphen. *)
Theorem X18_from_camel_case_and_back :
  (forall str,
      (forall pre w post,
          str = (pre ++ String "_" (String w post))%string ->
          Text.is_word w = false) ->
      StringUtils.snakeToCamel (StringUtils.camelToSnake str) = str) /\
  (forall str,
      (forall pre w post,
          str = (pre ++ String "-" (String w post))%string ->
          Text.is_word w = false) ->
      StringUtils.kebabToCamel (StringUtils.camelToKebab str) = str).
Proof.
  split; intros str Hfree.
  - exact (camel_there_and_back "_" str Hfree).
  - exact (camel_there_and_back "-" str Hfree).
Qed.

Lemma X18_from_camel_case_and_back_witness :
  StringUtils.snakeToCamel (StringUtils.camelToSnake "XMLHttpRequest")
  = "XMLHttpRequest" /\
  StringUtils.kebabToCamel (StringUtils.camelToKebab "myVariableName")
  = "myVariableName".
Proof.
  split.
  - apply (proj1 X18_from_camel_case_and_back "XMLHttpRequest").
    intros pre w post H. scan pre H.
  - apply (proj2 X18_from_camel_case_and_back "myVariableName").
    intros pre w post H. scan pre H.
Defined.

(** X19: converting from snake case to camel case and back gives the input
    again for an input without capital letters in which an underscore that
    stands before a word character stands before a small letter (not
    before a digit or another underscore).  Likewise for kebab case and
    the hyphen. *)
Theorem X19_to_camel_case_and_back :
  (forall str,
      (forall pre c post,
          str = (pre ++ String c post)%string -> Text.is_upper c = false) ->
      (forall pre w post,
          str = (pre ++ String "_" (String w post))%string ->
          Text.is_word w = true -> Text.is_lower w = true) ->
      StringUtils.camelToSnake (StringUtils.snakeToCamel str) = str) /\
  (forall str,
      (forall pre c post,
          str = (pre ++ String c post)%string -> Text.is_upper c = false) ->
      (forall pre w post,
          str = (pre ++ String "-" (String w post))%string ->
          Text.is_word w = true -> Text.is_lower w = true) ->
      StringUtils.camelToKebab (StringUtils.kebabToCamel str) = str).
Proof.
  split; intros str Hsmall Hsep.
  - exact (camel_back_and_there "_" str Hsmall Hsep).
  - exact (camel_back_and_there "-" str Hsmall Hsep).
Qed.

Lemma X19_to_camel_case_and_back_witness :
  StringUtils.camelToSnake (StringUtils.snakeToCamel "my_variable_name")
  = "my_variable_name" /\
  StringUtils.camelToKebab (StringUtils.kebabToCamel "hello-world")
  = "hello-world".
Proof.
  split.
  - apply (proj1 X19_to_camel_case_and_back "my_variable_name").
    + intros pre c post H. scan pre H.
    + intros pre w post H. scan pre H.
  - apply (proj2 X19_to_camel_case_and_back "hello-world").
    + intros pre c post H. scan pre H.
    + intros pre w post H. scan pre H.
Defined.

(** ** Escaping markdown *)

Lemma escapeMarkdown_grows (text : string) :
  (String.length text <= String.length (Utils.escapeMarkdown text))%nat.
Proof.
  induction text as [| c rest IH]; simpl; [lia |].
  destruct (Utils.is_special c); simpl; lia.
Qed.

Lemma escapeMarkdown_injective (t1 t2 : string) :
  Utils.escapeMarkdown t1 = Utils.escapeMarkdown t2 -> t1 = t2.
Proof.
  revert t2. induction t1 as [| c1 r1 IH]; intros [| c2 r2]; simpl.
  - reflexivity.
  - destruct (Utils.is_special c2); discriminate.
  - destruct (Utils.is_special c1); discriminate.
  - destruct (Utils.is_special c1) eqn:H1, (Utils.is_special c2) eqn:H2; intros E.
    + injection E as -> E. now rewrite (IH _ E).
    + injection E as <- _. discriminate H2.
    + injection E as -> _. discriminate H1.
    + injection E as -> E. now rewrite (IH _ E).
Qed.

Lemma escapeMarkdown_fixed (text : string) :
  Utils.escapeMarkdown text = text <->
  (forall pre c post,
      text = (pre ++ String c post)%string -> Utils.is_special c = false).
Proof.
  induction text as [| c rest IH]; simpl.
  - split; [| reflexivity]. intros _ [| a pre] c post H; discriminate H.
  - split.
    + intros E. destruct (Utils.is_special c) eqn:Hc.
      * exfalso. injection E as _ E.
        pose proof (escapeMarkdown_grows rest) as Hg.
        apply (f_equal String.length) in E. simpl in E. lia.
      * injection E as E. intros [| a pre] c' post H; simpl in H.
        -- now injection H as <- _.
        -- injection H as _ H. exact (proj1 IH E pre c' post H).
    + intros Hfree. rewrite (Hfree EmptyString c rest eq_refl).
      f_equal. apply IH. intros pre c' post ->.
      exact (Hfree (String c pre) c' post eq_refl).
Qed.

(** X20: [escapeMarkdown] loses nothing: two texts with the same escaped
    form are the same text.  It leaves a text unchanged exactly when the
    text holds none of the characters it escapes; and since the backslash
    it inserts is one of them, escaping an escaped text again changes it
    unless the first escaping changed nothing. *)
Theorem X20_escapeMarkdown :
  (forall t1 t2, Utils.escapeMarkdown t1 = Utils.escapeMarkdown t2 -> t1 = t2) /\
  (forall text,
      Utils.escapeMarkdown text = text <->
      (forall pre c post,
          text = (pre ++ String c post)%string -> Utils.is_special c = false)) /\
  (forall text,
      Utils.escapeMarkdown (Utils.escapeMarkdown text) = Utils.escapeMarkdown text <->
      Utils.escapeMarkdown text = text).
Proof.
  split; [exact escapeMarkdown_injective |].
  split; [exact escapeMarkdown_fixed |].
  intros text. split.
  - apply escapeMarkdown_injective.
  - intros E. now rewrite !E.
Qed.

Lemma X20_escapeMarkdown_witness :
  Utils.escapeMarkdown "plain text" = "plain text" /\
  Utils.escapeMarkdown "a_b" <> Utils.escapeMarkdown "ab".
Proof.
  split.
  - apply (proj1 (proj2 X20_escapeMarkdown) "plain text").
    intros pre c post H. scan pre H.
  - intros E. apply (proj1 X20_escapeMarkdown "a_b" "ab") in E. discriminate E.
Defined.

(** ** Quoted inputs *)

Lemma drop_closing_quote_closed (s : string) :
  InputUtils.drop_closing_quote (s ++ String Text.double_quote EmptyString)%string = s.
Proof.
  induction s as [| c rest IH]; [reflexivity |].
  change ((String c rest ++ String Text.double_quote "")%string)
    with (String c (rest ++ String Text.double_quote "")%string).
  destruct rest as [| d rest].
  - reflexivity.
  - change (InputUtils.drop_closing_quote
              (String c (String d rest ++ String Text.double_quote "")%string))
      with (String c (InputUtils.drop_closing_quote
                        (String d rest ++ String Text.double_quote "")%string)).
    now rewrite IH.
Qed.

Lemma drop_closing_quote_open (s : string) :
  (forall init, s <> (init ++ String Text.double_quote EmptyString)%string) ->
  InputUtils.drop_closing_quote s = s.
Proof.
  induction s as [| c rest IH]; intros Hopen; [reflexivity |].
  destruct rest as [| d rest].
  - cbn [InputUtils.drop_closing_quote].
    destruct (c =? Text.double_quote)%char eqn:E; [| reflexivity].
    apply Ascii.eqb_eq in E. subst c. now destruct (Hopen EmptyString).
  - change (InputUtils.drop_closing_quote (String c (String d rest)))
      with (String c (InputUtils.drop_closing_quote (String d rest))).
    rewrite IH; [reflexivity |].
    intros init E. apply (Hopen (String c init)). simpl. now rewrite E.
Qed.

Lemma drop_closing_quote_length (s : string) :
  Text.len s - 1 <= Text.len (InputUtils.drop_closing_quote s) <= Text.len s.
Proof.
  unfold Text.len.
  induction s as [| c rest IH]; [simpl; lia |].
  destruct rest as [| d rest].
  - cbn [InputUtils.drop_closing_quote].
    destruct (c =? Text.double_quote)%char; simpl; lia.
  - change (InputUtils.drop_closing_quote (String c (String d rest)))
      with (String c (InputUtils.drop_closing_quote (String d rest))).
    simpl String.length in *. lia.
Qed.

(** X21: [sanitizeInput] removes one pair of double quotes: a text wrapped
    in double quotes comes back as it was, whatever it holds, also when it
    starts or ends with a double quote itself.  A string that neither
    starts nor ends with a double quote is returned unchanged; at most one
    character is removed at each end; and an input that is not a string is
    returned as it is. *)
Theorem X21_sanitizeInput (Other : Type) :
  (forall s,
      InputUtils.sanitizeInput (Other := Other)
        (InputUtils.IsString
           (String Text.double_quote s ++ String Text.double_quote EmptyString)%string)
      = InputUtils.IsString s) /\
  (forall s,
      (forall rest, s <> String Text.double_quote rest) ->
      (forall init, s <> (init ++ String Text.double_quote EmptyString)%string) ->
      InputUtils.sanitizeInput (Other := Other) (InputUtils.IsString s)
      = InputUtils.IsString s) /\
  (forall s, exists out,
      InputUtils.sanitizeInput (Other := Other) (InputUtils.IsString s)
      = InputUtils.IsString out /\
      Text.len s - 2 <= Text.len out <= Text.len s) /\
  (forall v : Other,
      InputUtils.sanitizeInput (InputUtils.NotString v) = InputUtils.NotString v).
Proof.
  split; [| split; [| split; [| reflexivity]]].
  - intros s. cbn [InputUtils.sanitizeInput]. f_equal.
    change ((String Text.double_quote s ++ String Text.double_quote "")%string)
      with (String Text.double_quote (s ++ String Text.double_quote "")%string).
    cbn [InputUtils.strip_quotes]. rewrite Ascii.eqb_refl.
    apply drop_closing_quote_closed.
  - intros s Hstart Hend. cbn [InputUtils.sanitizeInput]. f_equal.
    destruct s as [| c rest]; [reflexivity |].
    cbn [InputUtils.strip_quotes].
    destruct (c =? Text.double_quote)%char eqn:E.
    + apply Ascii.eqb_eq in E. subst c. now destruct (Hstart rest).
    + now apply drop_closing_quote_open.
  - intros s. eexists. split; [reflexivity |].
    destruct s as [| c rest]; [cbn; lia |].
    cbn [InputUtils.strip_quotes].
    destruct (c =? Text.double_quote)%char.
    + pose proof (drop_closing_quote_length rest).
      unfold Text.len in *. simpl String.length. lia.
    + pose proof (drop_closing_quote_length (String c rest)). lia.
Qed.

Lemma X21_sanitizeInput_witness :
  InputUtils.sanitizeInput (Other := bool) (InputUtils.IsString "main")
  = InputUtils.IsString "main".
Proof.
  apply (proj1 (proj2 (X21_sanitizeInput bool)) "main").
  - intros rest H. discriminate H.
  - intros init H. scan init H.
Defined.
